(** * TikTok Shop scraper: extraction, canonical mapping, validation, sorting

    A shallow embedding of the Python sources

      - [src/extractors/utils_format.py]
      - [src/extractors/tiktok_parser.py]
      - [src/utils/parser.py]
      - [src/utils/validator.py]
      - [src/services/scraper.py]

    Python values are a tagged union, dictionaries are insertion-ordered
    association lists, exceptions are an explicit result type, and floats are
    IEEE-754 binary64 numbers ([spec_float] with precision 53).

    Text is modelled by 8-bit characters and the model is exact on ASCII
    text: a character above 127 stands for a byte of the UTF-8 form of a
    text, and is a caseless symbol that is neither a digit, a letter nor
    white space, where Python classifies and converts the code points of
    Unicode.  A property that is sensitive to this is stated for ASCII
    text.  Likewise [str] and [repr] are exact on the values that hold no
    integer of more than 4300 digits, which the interpreter refuses to
    print, and a property that is sensitive to it is stated for those. *)

From Stdlib Require Import ZArith NArith List String Ascii Bool Lia.
From Stdlib Require Import Permutation DecimalString.
From Stdlib Require Import Sorted.
From Stdlib Require Import Floats.SpecFloat.
From ExtLib Require Import Structures.Monad Structures.MonadState.
From ExtLib Require Import Data.Monads.StateMonad.
Import ListNotations.

Local Open Scope string_scope.
Local Open Scope Z_scope.

(** ** Python run-time model *)

Module Py.

(** Exceptions the modelled code can raise. *)
Inductive exn : Type :=
| ValueError
| TypeError
| OverflowError
| AttributeError
| IndexError
| KeyError
| ValidationError.

(** A computation either returns or raises. *)
Inductive result (A : Type) : Type :=
| Ok (a : A)
| Raise (e : exn).
Arguments Ok {A} a.
Arguments Raise {A} e.

Definition bind {A B : Type} (m : result A) (k : A -> result B) : result B :=
  match m with
  | Ok a => k a
  | Raise e => Raise e
  end.

Definition is_ok {A : Type} (m : result A) : bool :=
  match m with Ok _ => true | Raise _ => false end.

(** [try: m except ValueError: h] *)
Definition catch_ValueError {A : Type} (m : result A) (h : result A) : result A :=
  match m with
  | Raise ValueError => h
  | other => other
  end.

(** [try: m except Exception: h] *)
Definition catch_Exception {A : Type} (m : result A) (h : result A) : result A :=
  match m with
  | Raise _ => h
  | other => other
  end.

Fixpoint mapM {A B : Type} (f : A -> result B) (l : list A) : result (list B) :=
  match l with
  | [] => Ok []
  | x :: r =>
      match f x with
      | Raise e => Raise e
      | Ok y => match mapM f r with
                | Raise e => Raise e
                | Ok ys => Ok (y :: ys)
                end
      end
  end.

(** The visits of a loop, one after the other: their results in a row, or
    the first exception. *)
Fixpoint gather {A : Type} (l : list (result (list A))) : result (list A) :=
  match l with
  | [] => Ok []
  | m :: r =>
      match m with
      | Raise e => Raise e
      | Ok a => match gather r with
                | Raise e => Raise e
                | Ok b => Ok (a ++ b)%list
                end
      end
  end.

(** *** Characters and strings *)

Definition code (c : ascii) : N := N_of_ascii c.

Definition in_range (lo hi : N) (c : ascii) : bool :=
  (N.leb lo (code c) && N.leb (code c) hi)%bool.

Definition is_digit : ascii -> bool := in_range 48 57.
Definition is_upper : ascii -> bool := in_range 65 90.
Definition is_lower : ascii -> bool := in_range 97 122.
Definition is_alpha (c : ascii) : bool := (is_upper c || is_lower c)%bool.

(** [str.isspace] on ASCII: TAB..CR, FS..US and the blank. *)
Definition is_space (c : ascii) : bool :=
  (in_range 9 13 c || in_range 28 32 c)%bool.

Definition lower_char (c : ascii) : ascii :=
  if is_upper c then ascii_of_N (code c + 32) else c.

Definition upper_char (c : ascii) : ascii :=
  if is_lower c then ascii_of_N (code c - 32) else c.

Fixpoint smap (f : ascii -> ascii) (s : string) : string :=
  match s with
  | EmptyString => EmptyString
  | String c r => String (f c) (smap f r)
  end.

Fixpoint sfilter (f : ascii -> bool) (s : string) : string :=
  match s with
  | EmptyString => EmptyString
  | String c r => if f c then String c (sfilter f r) else sfilter f r
  end.

Fixpoint sforall (f : ascii -> bool) (s : string) : bool :=
  match s with
  | EmptyString => true
  | String c r => (f c && sforall f r)%bool
  end.

(** [s.lower()] and [s.upper()] of an ASCII text. *)
Definition lower : string -> string := smap lower_char.
Definition upper : string -> string := smap upper_char.

Definition is_empty (s : string) : bool :=
  match s with EmptyString => true | _ => false end.

Fixpoint lstrip (s : string) : string :=
  match s with
  | EmptyString => EmptyString
  | String c r => if is_space c then lstrip r else s
  end.

Fixpoint rstrip (s : string) : string :=
  match s with
  | EmptyString => EmptyString
  | String c r =>
      let r' := rstrip r in
      if (is_space c && is_empty r')%bool then EmptyString else String c r'
  end.

(** [s.strip()] *)
Definition strip (s : string) : string := rstrip (lstrip s).

(** [s.isalpha()]: non-empty and all letters. *)
Definition isalpha (s : string) : bool :=
  (negb (is_empty s) && sforall is_alpha s)%bool.

(** [needle in s] *)
Fixpoint contains (needle s : string) : bool :=
  (String.prefix needle s ||
   match s with
   | EmptyString => false
   | String _ r => contains needle r
   end)%bool.

(** [s.find(c, start)] for a one-character needle; [None] is Python's -1. *)
Fixpoint find_char (c : ascii) (s : string) (start : nat) : option nat :=
  match s with
  | EmptyString => None
  | String x r =>
      match start with
      | O => if Ascii.eqb x c then Some O
             else option_map S (find_char c r O)
      | S start' => option_map S (find_char c r start')
      end
  end.

(** [s.rfind(c, lo, hi)]: the last index [i] with [lo <= i < hi]. *)
Fixpoint rfind_char (c : ascii) (s : string) (lo hi : nat) : option nat :=
  match s, hi with
  | EmptyString, _ => None
  | _, O => None
  | String x r, S hi' =>
      match rfind_char c r (Nat.pred lo) hi' with
      | Some i => Some (S i)
      | None => if (Nat.eqb lo 0 && Ascii.eqb x c)%bool then Some O else None
      end
  end.

(** [s[a:b]] for [0 <= a <= b]. *)
Definition slice (s : string) (a b : nat) : string :=
  String.substring a (b - a) s.

Fixpoint join (sep : string) (l : list string) : string :=
  match l with
  | [] => ""
  | [x] => x
  | x :: r => x ++ sep ++ join sep r
  end.

Definition str_of_Z (z : Z) : string := NilZero.string_of_int (Z.to_int z).
Definition str_of_nat (n : nat) : string := str_of_Z (Z.of_nat n).

Definition digit_val (c : ascii) : Z := Z.of_N (code c) - 48.

(** Value of a string of decimal digits, most significant first. *)
Fixpoint digits_val (acc : Z) (s : string) : Z :=
  match s with
  | EmptyString => acc
  | String c r => digits_val (10 * acc + digit_val c) r
  end.


(** *** Floats: IEEE-754 binary64 *)

Definition float : Type := spec_float.
Definition prec : Z := 53.
Definition emax : Z := 1024.

(** The double nearest to [(-1)^s * n / d] (ties to even). *)
Definition float_of_ratio (s : bool) (n d : positive) : float :=
  SFdiv prec emax (S754_finite s n 0) (S754_finite false d 0).

(** The double nearest to [(-1)^s * m * 10^e10], for [0 <= m]. *)
Definition float_of_dec (s : bool) (m e10 : Z) : float :=
  match m with
  | Z0 => S754_zero s
  | Zpos p =>
      if 0 <=? e10
      then binary_round prec emax s (p * Z.to_pos (10 ^ e10)) 0
      else float_of_ratio s p (Z.to_pos (10 ^ (- e10)))
  | Zneg _ => S754_nan
  end.

Definition float_of_Z (z : Z) : float := binary_normalize prec emax z 0 false.

Definition float_is_zero (f : float) : bool :=
  match f with S754_zero _ => true | _ => false end.

(** [a < b] on floats; false whenever a NaN is involved. *)
Definition float_ltb (a b : float) : bool :=
  match SFcompare a b with Some Lt => true | _ => false end.

(** Nearest integer to [n / d] for [0 < d], ties to even. *)
Definition round_half_even (n d : Z) : Z :=
  let q := n / d in
  let r := n mod d in
  match 2 * r ?= d with
  | Lt => q
  | Gt => q + 1
  | Eq => if Z.even q then q else q + 1
  end.

(** [|f| * 10^nd] rounded to an integer, for a finite non-zero [f]. *)
Definition scaled_round (m : positive) (e : Z) (nd : nat) : Z :=
  let k := 10 ^ Z.of_nat nd in
  if 0 <=? e then Zpos m * 2 ^ e * k
  else round_half_even (Zpos m * k) (2 ^ (- e)).

Fixpoint zeros (n : nat) : string :=
  match n with O => "" | S n' => String "0" (zeros n') end.

(** [n] in decimal with [nd] digits after the point, [0 <= n]. *)
Definition render_fixed (n : Z) (nd : nat) : string :=
  let k := 10 ^ Z.of_nat nd in
  let fp := str_of_Z (n mod k) in
  match nd with
  | O => str_of_Z n
  | _ => str_of_Z (n / k) ++ "." ++ zeros (nd - String.length fp) ++ fp
  end.

(** [format(f, ".{nd}f")] *)
Definition format_fixed (f : float) (nd : nat) : string :=
  match f with
  | S754_nan => "nan"
  | S754_infinity s => if s then "-inf" else "inf"
  | S754_zero s => (if s then "-" else "") ++ render_fixed 0 nd
  | S754_finite s m e =>
      (if s then "-" else "") ++ render_fixed (scaled_round m e nd) nd
  end.

(** [round(f, nd)] *)
Definition py_round (f : float) (nd : nat) : float :=
  match f with
  | S754_finite s m e => float_of_dec s (scaled_round m e nd) (- Z.of_nat nd)
  | _ => f
  end.

(** [int(f)]: truncation; NaN and the infinities raise. *)
Definition int_of_float (f : float) : result Z :=
  match f with
  | S754_nan => Raise ValueError
  | S754_infinity _ => Raise OverflowError
  | S754_zero _ => Ok 0
  | S754_finite s m e =>
      let a := if 0 <=? e then Zpos m * 2 ^ e else Zpos m / 2 ^ (- e) in
      Ok (if s then - a else a)
  end.

(** [float(n)] for an integer; too large a magnitude raises. *)
Definition float_of_int (z : Z) : result float :=
  match float_of_Z z with
  | S754_infinity _ => Raise OverflowError
  | f => Ok f
  end.

(** *** Values *)

(** A [datetime] object, represented by what the program can observe of
    it: the results of [isoformat()], [str()] and [repr()]. *)
Record datetime : Type := {
  dt_isoformat : string;
  dt_str : string;
  dt_repr : string
}.

#[warnings="-register-all"]
Inductive value : Type :=
| VNone
| VBool (b : bool)
| VInt (z : Z)
| VFloat (f : float)
| VStr (s : string)
| VList (l : list value)
| VDict (d : list (string * value))
| VDatetime (t : datetime).

Definition dict : Type := list (string * value).

(** [bool(v)] *)
Definition truthy (v : value) : bool :=
  match v with
  | VNone => false
  | VBool b => b
  | VInt z => negb (z =? 0)
  | VFloat f => negb (float_is_zero f)
  | VStr s => negb (is_empty s)
  | VList l => match l with [] => false | _ => true end
  | VDict d => match d with [] => false | _ => true end
  | VDatetime _ => true
  end.

(** [a or b] *)
Definition por (a b : value) : value := if truthy a then a else b.

(** [d.get(k)] as an option, and with Python's [None] default. *)
Fixpoint lookup (d : dict) (k : string) : option value :=
  match d with
  | [] => None
  | (k', v) :: r => if String.eqb k' k then Some v else lookup r k
  end.

Definition get_or (d : dict) (k : string) (dflt : value) : value :=
  match lookup d k with Some v => v | None => dflt end.

Definition get (d : dict) (k : string) : value := get_or d k VNone.

(** [d[k] = v]: an existing key keeps its position. *)
Fixpoint dict_set (d : dict) (k : string) (v : value) : dict :=
  match d with
  | [] => [(k, v)]
  | (k', v') :: r =>
      if String.eqb k' k then (k', v) :: r else (k', v') :: dict_set r k v
  end.

(** The parts of CPython and of the [datetime] and [dateutil] libraries
    that are taken as given. *)
Class Runtime : Type := {
  (** [repr(f)] of a float: the shortest decimal that reads back as [f] *)
  float_repr : float -> string;
  (** [datetime.utcfromtimestamp(f)] *)
  utcfromtimestamp : float -> result datetime;
  (** [dateutil.parser.parse(s)] *)
  dtparser_parse : string -> result datetime
}.

Definition dquote : ascii := "034"%char.
Definition squote : ascii := "039"%char.
Definition backslash : ascii := "092"%char.

Definition has_char (c : ascii) (s : string) : bool :=
  negb (sforall (fun x => negb (Ascii.eqb x c)) s).

Definition hex_digit (n : N) : ascii :=
  if N.ltb n 10 then ascii_of_N (48 + n) else ascii_of_N (87 + n).

Definition repr_char (q : ascii) (c : ascii) : string :=
  if Ascii.eqb c backslash then String backslash (String backslash "")
  else if Ascii.eqb c q then String backslash (String q "")
  else if N.eqb (code c) 10 then String backslash "n"
  else if N.eqb (code c) 13 then String backslash "r"
  else if N.eqb (code c) 9 then String backslash "t"
  else if (N.ltb (code c) 32 || N.eqb (code c) 127)%bool
       then String backslash
              (String "x" (String (hex_digit (N.div (code c) 16))
                             (String (hex_digit (N.modulo (code c) 16)) "")))
  else String c "".

Fixpoint repr_chars (q : ascii) (s : string) : string :=
  match s with
  | EmptyString => EmptyString
  | String c r => repr_char q c ++ repr_chars q r
  end.

(** [repr(s)] of a string. *)
Definition repr_str (s : string) : string :=
  let q := if (has_char squote s && negb (has_char dquote s))%bool
           then dquote else squote in
  String q (repr_chars q s ++ String q "").

Section WithRuntime.
Context {RT : Runtime}.

(** [repr(v)], for a value that holds no integer of more digits than the
    interpreter prints (see [printable]). *)
Fixpoint py_repr (v : value) : string :=
  match v with
  | VNone => "None"
  | VBool b => if b then "True" else "False"
  | VInt z => str_of_Z z
  | VFloat f => float_repr f
  | VStr s => repr_str s
  | VList l => "[" ++ join ", " (map py_repr l) ++ "]"
  | VDict d =>
      "{" ++ join ", "
               (map (fun kv => match kv with
                               | (k, x) => repr_str k ++ ": " ++ py_repr x
                               end) d) ++ "}"
  | VDatetime t => dt_repr t
  end.

(** [str(v)], for a value that holds no integer of more digits than the
    interpreter prints (see [printable]). *)
Definition py_str (v : value) : string :=
  match v with
  | VStr s => s
  | VDatetime t => dt_str t
  | _ => py_repr v
  end.

End WithRuntime.

(** *** Numbers from text *)

(** The white space that [float] and [int] skip around a literal: TAB..CR
    and the blank (the separators FS..US, which [str.strip] removes, are
    not skipped). *)
Definition is_blank (c : ascii) : bool :=
  (in_range 9 13 c || N.eqb (code c) 32)%bool.

Fixpoint skip_blanks (s : string) : string :=
  match s with
  | EmptyString => EmptyString
  | String c r => if is_blank c then skip_blanks r else s
  end.

Fixpoint drop_blanks (s : string) : string :=
  match s with
  | EmptyString => EmptyString
  | String c r =>
      let r' := drop_blanks r in
      if (is_blank c && is_empty r')%bool then EmptyString else String c r'
  end.

(** The literal inside the white space around it. *)
Definition trim_blanks (s : string) : string := drop_blanks (skip_blanks s).

(** The interpreter's default limit on the number of decimal digits of a
    conversion between [int] and [str] ([sys.int_max_str_digits]). *)
Definition max_str_digits : nat := 4300.

(** [str] and [repr] of an integer of more digits than the limit raise
    [ValueError], also when the integer lies inside a list or a dictionary:
    [py_str] and [py_repr] are exact on the values without such an
    integer. *)
Definition short_int (z : Z) : bool :=
  Z.abs z <? 10 ^ Z.of_nat max_str_digits.

Fixpoint printable (v : value) : bool :=
  match v with
  | VInt z => short_int z
  | VList l => forallb printable l
  | VDict d => forallb (fun kv => match kv with
                                  | (_, x) => printable x
                                  end) d
  | _ => true
  end.

Definition split_sign (s : string) : bool * string :=
  match s with
  | String "-" r => (true, r)
  | String "+" r => (false, r)
  | _ => (false, s)
  end.

(** Digit-group underscores: each one must stand between two digits. *)
Fixpoint drop_underscores (prev_digit : bool) (s : string) : option string :=
  match s with
  | EmptyString => Some EmptyString
  | String c r =>
      if Ascii.eqb c "_" then
        match r with
        | String d _ =>
            if (prev_digit && is_digit d)%bool
            then drop_underscores false r else None
        | EmptyString => None
        end
      else option_map (String c) (drop_underscores (is_digit c) r)
  end.

(** The longest prefix of digits, and what follows it. *)
Fixpoint span_digits (s : string) : string * string :=
  match s with
  | String c r =>
      if is_digit c
      then let (d, t) := span_digits r in (String c d, t)
      else (EmptyString, s)
  | EmptyString => (EmptyString, EmptyString)
  end.

Definition is_e (c : ascii) : bool := (Ascii.eqb c "e" || Ascii.eqb c "E")%bool.

(** [digits? [. digits?] [e [sign] digits]] with a digit in the mantissa;
    the result is the decimal mantissa and the power of ten. *)
Definition parse_decimal (s : string) : option (Z * Z) :=
  let (ip, r1) := span_digits s in
  let (fp, r2) := match r1 with
                  | String "." r => span_digits r
                  | _ => (EmptyString, r1)
                  end in
  let m := digits_val 0 (ip ++ fp) in
  let shift := Z.of_nat (String.length fp) in
  if (is_empty ip && is_empty fp)%bool then None
  else match r2 with
       | EmptyString => Some (m, - shift)
       | String c r3 =>
           if is_e c then
             let (sg, r4) := split_sign r3 in
             let (ed, r5) := span_digits r4 in
             if (is_empty ed || negb (is_empty r5))%bool then None
             else let ev := digits_val 0 ed in
                  Some (m, (if sg then - ev else ev) - shift)
           else None
       end.

(** [float(s)] for a string. *)
Definition float_of_str (s : string) : result float :=
  let (sg, body) := split_sign (trim_blanks s) in
  let lb := lower body in
  if (String.eqb lb "inf" || String.eqb lb "infinity")%bool
  then Ok (S754_infinity sg)
  else if String.eqb lb "nan" then Ok S754_nan
  else match drop_underscores false body with
       | None => Raise ValueError
       | Some b =>
           match parse_decimal b with
           | None => Raise ValueError
           | Some (m, e) => Ok (float_of_dec sg m e)
           end
       end.

(** [int(s)] for a string, base ten; more digits than the limit are
    refused like a malformed literal. *)
Definition int_of_str (s : string) : result Z :=
  let (sg, body) := split_sign (trim_blanks s) in
  match drop_underscores false body with
  | None => Raise ValueError
  | Some b =>
      if (negb (is_empty b) && sforall is_digit b
          && Nat.leb (String.length b) max_str_digits)%bool
      then Ok (if sg then - digits_val 0 b else digits_val 0 b)
      else Raise ValueError
  end.

(** [float(v)] *)
Definition py_float (v : value) : result float :=
  match v with
  | VBool b => Ok (float_of_Z (if b then 1 else 0))
  | VInt z => float_of_int z
  | VFloat f => Ok f
  | VStr s => float_of_str s
  | _ => Raise TypeError
  end.

(** [int(v)] *)
Definition py_int (v : value) : result Z :=
  match v with
  | VBool b => Ok (if b then 1 else 0)
  | VInt z => Ok z
  | VFloat f => int_of_float f
  | VStr s => int_of_str s
  | _ => Raise TypeError
  end.

(** *** [json.loads]

    Tokens are read off the text, then assembled by a stack machine.  White
    space may separate any two tokens.  An escape [\uXXXX] stands for the
    UTF-8 bytes of its code point, two escapes that form a surrogate pair
    for those of the code point they encode; the recursion limit of the
    interpreter is not modelled. *)

Inductive token : Type :=
| TLBrace | TRBrace | TLBrack | TRBrack | TColon | TComma
| TAtom (v : value).

Definition is_json_ws (c : ascii) : bool :=
  (N.eqb (code c) 32 || N.eqb (code c) 9 || N.eqb (code c) 10
   || N.eqb (code c) 13)%bool.

Definition hex_val (c : ascii) : option N :=
  if is_digit c then Some (code c - 48)%N
  else if in_range 97 102 c then Some (code c - 87)%N
  else if in_range 65 70 c then Some (code c - 55)%N
  else None.

Definition hex4 (a b c d : ascii) : option N :=
  match hex_val a, hex_val b, hex_val c, hex_val d with
  | Some x, Some y, Some z, Some w => Some (((x * 16 + y) * 16 + z) * 16 + w)%N
  | _, _, _, _ => None
  end.

Definition unescape (c : ascii) : option ascii :=
  if Ascii.eqb c dquote then Some dquote
  else if Ascii.eqb c backslash then Some backslash
  else if Ascii.eqb c "/" then Some "/"%char
  else if Ascii.eqb c "b" then Some "008"%char
  else if Ascii.eqb c "f" then Some "012"%char
  else if Ascii.eqb c "n" then Some "010"%char
  else if Ascii.eqb c "r" then Some "013"%char
  else if Ascii.eqb c "t" then Some "009"%char
  else None.

Definition cons_char (c : ascii) (n : nat) (r : option (string * nat))
  : option (string * nat) :=
  match r with
  | Some (x, k) => Some (String c x, (n + k)%nat)
  | None => None
  end.

Definition cons_text (t : string) (n : nat) (r : option (string * nat))
  : option (string * nat) :=
  match r with
  | Some (x, k) => Some (t ++ x, (n + k)%nat)
  | None => None
  end.

(** The UTF-8 bytes of a code point; a surrogate on its own is written like
    the other code points of three bytes. *)
Definition utf8 (n : N) : string :=
  let byte (k : N) : ascii := ascii_of_N k in
  let cont (k : N) : ascii := ascii_of_N (128 + k mod 64)%N in
  if N.ltb n 128 then String (byte n) ""
  else if N.ltb n 2048
  then String (byte (192 + n / 64)%N) (String (cont n) "")
  else if N.ltb n 65536
  then String (byte (224 + n / 4096)%N)
         (String (cont (n / 64)%N) (String (cont n) ""))
  else String (byte (240 + n / 262144)%N)
         (String (cont (n / 4096)%N)
            (String (cont (n / 64)%N) (String (cont n) ""))).

Definition is_high_surrogate (n : N) : bool :=
  (N.leb 55296 n && N.leb n 56319)%bool.

Definition is_low_surrogate (n : N) : bool :=
  (N.leb 56320 n && N.leb n 57343)%bool.

(** The code point that a high and a low surrogate encode. *)
Definition join_surrogates (hi lo : N) : N :=
  (65536 + (hi - 55296) * 1024 + (lo - 56320))%N.

(** The body of a string literal, after its opening quote: the decoded
    text and the number of characters read, closing quote included. *)
Fixpoint scan_string (s : string) : option (string * nat) :=
  match s with
  | EmptyString => None
  | String c r =>
      if Ascii.eqb c dquote then Some (EmptyString, 1%nat)
      else if Ascii.eqb c backslash then
        match r with
        | String "u" (String h1 (String h2 (String h3 (String h4 r')))) =>
            match hex4 h1 h2 h3 h4 with
            | Some n =>
                match r' with
                | String b (String u (String l1 (String l2 (String l3
                    (String l4 r''))))) =>
                    match hex4 l1 l2 l3 l4 with
                    | Some m =>
                        if (is_high_surrogate n && Ascii.eqb b backslash
                            && Ascii.eqb u "u" && is_low_surrogate m)%bool
                        then cons_text (utf8 (join_surrogates n m)) 12
                               (scan_string r'')
                        else cons_text (utf8 n) 6 (scan_string r')
                    | None => cons_text (utf8 n) 6 (scan_string r')
                    end
                | _ => cons_text (utf8 n) 6 (scan_string r')
                end
            | None => None
            end
        | String e r' =>
            match unescape e with
            | Some x => cons_char x 2 (scan_string r')
            | None => None
            end
        | EmptyString => None
        end
      else if N.ltb (code c) 32 then None
      else cons_char c 1 (scan_string r)
  end.

(** A number at the head of the text: an optional minus, then either a
    single zero or digits not starting with zero, then optionally a point
    with at least one digit, then optionally an exponent mark with an
    optional sign and at least one digit.  An integer of more digits than
    [int] converts is refused. *)
Definition scan_number (s : string) : option (value * nat) :=
  let (neg, r0) := match s with
                   | String "-" r => (true, r)
                   | _ => (false, s)
                   end in
  let (ip, r1) := match r0 with
                  | String "0" r => ("0", r)
                  | _ => span_digits r0
                  end in
  if is_empty ip then None
  else
    let (fp, r2) := match r1 with
                    | String "." r =>
                        let (d, t) := span_digits r in
                        if is_empty d then (EmptyString, r1) else (d, t)
                    | _ => (EmptyString, r1)
                    end in
    let '(has_exp, ev, elen) :=
      match r2 with
      | String c r3 =>
          if is_e c then
            let (sg, r4) := split_sign r3 in
            let (ed, _) := span_digits r4 in
            if is_empty ed then (false, 0, O)
            else (true, if sg then - digits_val 0 ed else digits_val 0 ed,
                  (String.length r2 - String.length r4 + String.length ed)%nat)
          else (false, 0, O)
      | EmptyString => (false, 0, O)
      end in
    let n := ((if neg then 1 else 0) + String.length ip
              + (if is_empty fp then 0 else S (String.length fp)) + elen)%nat in
    if (is_empty fp && negb has_exp)%bool
    then if Nat.leb (String.length ip) max_str_digits
         then Some (VInt (if neg then - digits_val 0 ip else digits_val 0 ip),
                    n)
         else None
    else Some (VFloat (float_of_dec neg (digits_val 0 (ip ++ fp))
                         (ev - Z.of_nat (String.length fp))), n).

(** The token at the head of the text and its length. *)
Definition scan_token (s : string) : option (token * nat) :=
  match s with
  | EmptyString => None
  | String c r =>
      if Ascii.eqb c dquote then
        match scan_string r with
        | Some (x, n) => Some (TAtom (VStr x), S n)
        | None => None
        end
      else if Ascii.eqb c "{" then Some (TLBrace, 1%nat)
      else if Ascii.eqb c "}" then Some (TRBrace, 1%nat)
      else if Ascii.eqb c "[" then Some (TLBrack, 1%nat)
      else if Ascii.eqb c "]" then Some (TRBrack, 1%nat)
      else if Ascii.eqb c ":" then Some (TColon, 1%nat)
      else if Ascii.eqb c "," then Some (TComma, 1%nat)
      else if String.prefix "null" s then Some (TAtom VNone, 4%nat)
      else if String.prefix "true" s then Some (TAtom (VBool true), 4%nat)
      else if String.prefix "false" s then Some (TAtom (VBool false), 5%nat)
      else match scan_number s with
           | Some (v, n) => Some (TAtom v, n)
           | None =>
               if String.prefix "NaN" s then Some (TAtom (VFloat S754_nan), 3%nat)
               else if String.prefix "Infinity" s
               then Some (TAtom (VFloat (S754_infinity false)), 8%nat)
               else if String.prefix "-Infinity" s
               then Some (TAtom (VFloat (S754_infinity true)), 9%nat)
               else None
           end
  end.

(** [skip] characters of the current token are still to be passed. *)
Fixpoint tokenize (skip : nat) (s : string) : option (list token) :=
  match s with
  | EmptyString => Some []
  | String c r =>
      match skip with
      | S k => tokenize k r
      | O =>
          if is_json_ws c then tokenize O r
          else match scan_token s with
               | Some (t, n) =>
                   match tokenize (Nat.pred n) r with
                   | Some ts => Some (t :: ts)
                   | None => None
                   end
               | None => None
               end
      end
  end.

(** A container under construction. *)
Inductive frame : Type :=
| FArr (acc : list value)
| FObj (acc : dict) (key : string).

Inductive pstate : Type :=
| PValue (stk : list frame)
| PArrFirst (stk : list frame)
| PArrAfter (acc : list value) (stk : list frame)
| PObjFirst (stk : list frame)
| PObjKey (acc : dict) (stk : list frame)
| PColon (acc : dict) (key : string) (stk : list frame)
| PObjAfter (acc : dict) (stk : list frame)
| PDone (v : value)
| PError.

(** A value is complete: hand it to the enclosing container. *)
Definition complete (v : value) (stk : list frame) : pstate :=
  match stk with
  | [] => PDone v
  | FArr acc :: stk' => PArrAfter (v :: acc) stk'
  | FObj acc k :: stk' => PObjAfter (dict_set acc k v) stk'
  end.

Definition open_value (t : token) (stk : list frame) : pstate :=
  match t with
  | TAtom v => complete v stk
  | TLBrace => PObjFirst stk
  | TLBrack => PArrFirst stk
  | _ => PError
  end.

Definition pstep (st : pstate) (t : token) : pstate :=
  match st with
  | PValue stk => open_value t stk
  | PArrFirst stk =>
      match t with
      | TRBrack => complete (VList []) stk
      | _ => open_value t (FArr [] :: stk)
      end
  | PArrAfter acc stk =>
      match t with
      | TComma => PValue (FArr acc :: stk)
      | TRBrack => complete (VList (rev acc)) stk
      | _ => PError
      end
  | PObjFirst stk =>
      match t with
      | TRBrace => complete (VDict []) stk
      | TAtom (VStr k) => PColon [] k stk
      | _ => PError
      end
  | PObjKey acc stk =>
      match t with
      | TAtom (VStr k) => PColon acc k stk
      | _ => PError
      end
  | PColon acc k stk =>
      match t with
      | TColon => PValue (FObj acc k :: stk)
      | _ => PError
      end
  | PObjAfter acc stk =>
      match t with
      | TComma => PObjKey acc stk
      | TRBrace => complete (VDict acc) stk
      | _ => PError
      end
  | PDone _ => PError
  | PError => PError
  end.

(** [json.loads(s)]; a [JSONDecodeError] is a [ValueError]. *)
Definition json_loads (s : string) : result value :=
  match tokenize O s with
  | None => Raise ValueError
  | Some ts =>
      match fold_left pstep ts (PValue []) with
      | PDone v => Ok v
      | _ => Raise ValueError
      end
  end.

End Py.

Declare Scope result_scope.
Delimit Scope result_scope with result.
Notation "x <- m ;; k" := (Py.bind m (fun x => k))
  (at level 61, m at next level, right associativity) : result_scope.

(** ** [src/extractors/utils_format.py] *)

Module UtilsFormat.
Import Py.

Section WithRuntime.
Context {RT : Runtime}.

Definition clean_price (v : value) : option string :=
  match v with
  | VNone => None
  | _ => let text := strip (py_str v) in
         if is_empty text then None else Some text
  end.

Definition clean_score (v : value) : option string :=
  match v with
  | VNone => None
  | _ => let text := strip (py_str v) in
         if is_empty text then None else Some text
  end.

Definition clean_sold (v : value) : option string :=
  match v with
  | VNone => None
  | _ => let text := strip (py_str v) in
         if is_empty text then None else Some text
  end.

End WithRuntime.

(** On a string, as annotated; callers holding an arbitrary value check
    its type where [url.strip()] would. *)
Definition normalize_product_link (url : string) : string :=
  if is_empty url then url else strip url.

End UtilsFormat.

(** ** [src/extractors/tiktok_parser.py] *)

Module TiktokParser.
Import Py UtilsFormat.
Local Open Scope result_scope.

Record Product : Type := {
  title : value;
  origin_price : option string;
  sale_price : option string;
  score : option string;
  sold : option string;
  product_link : string;
  img : value
}.

(** A card element, as [_product_from_card] reads it. *)
Record Card : Type := {
  (** stripped text of the first [span], else [h3], else [h2] *)
  card_title_el : option string;
  (** stripped text of the first [span] whose string contains a dollar sign *)
  card_price_el : option string;
  (** [href] of the first anchor that has one *)
  card_href : option string;
  (** the first [img] element: its [src] attribute, or [None] *)
  card_img : option value
}.

(** A parsed document, as [_parse_listing_page] reads it. *)
Record Soup : Type := {
  (** [script.string] of every [script] element, in document order *)
  scripts : list (option string);
  (** [soup.select(selector)] *)
  select : string -> list Card
}.

(** The loop of [_extract_json_from_script]; [start] is [None] for -1.
    Every round moves [start] to a later brace, so the length of the text
    bounds the number of rounds; [None] is returned when [fuel] runs out. *)
Fixpoint extract_loop (fuel : nat) (text : string) (start : option nat)
  : option (result value) :=
  match start with
  | None => Some (Raise ValueError)
  | Some st =>
      match fuel with
      | O => None
      | S fuel' =>
          match rfind_char "}" text 0 (String.length text) with
          | None => Some (Raise ValueError)
          | Some e =>
              if (e <=? st)%nat then Some (Raise ValueError)
              else
                match json_loads (slice text st (S e)) with
                | Ok v => Some (Ok v)
                | Raise _ =>
                    match rfind_char "}" text st e with
                    | None => Some (Raise ValueError)
                    | Some _ =>
                        extract_loop fuel' text (find_char "{" text (S st))
                    end
                end
          end
      end
  end.

Definition _extract_json_from_script (text : string) : result value :=
  match extract_loop (S (String.length text)) text (find_char "{" text 0) with
  | Some r => r
  | None => Raise ValueError
  end.

Definition _looks_like_product_dict (node : dict) : bool :=
  let keys := map (fun kv => lower (fst kv)) node in
  let has k := existsb (String.eqb k) keys in
  ((has "title" && has "price")
   || (has "name" && has "image" && (has "price" || has "offers")))%bool.

Section WithRuntime.
Context {RT : Runtime}.

Definition _product_from_dict (node : dict) (base_url : string)
  : result Product :=
  let title := por (get node "title") (get_or node "name" (VStr "")) in
  image <- match get node "image" with
           | VList l => match l with
                        | x :: _ => Ok x
                        | [] => Raise IndexError
                        end
           | VStr s => Ok (VStr s)
           | _ => Ok VNone
           end ;;
  let raw_price :=
    match get node "price" with
    | VStr _ | VInt _ | VFloat _ | VBool _ => VStr (py_str (get node "price"))
    | _ => match get node "offers" with
           | VDict offers => VStr (py_str (get offers "price"))
           | _ => VNone
           end
    end in
  let origin_price := raw_price in
  let score := VStr (py_str (por (get node "ratingValue")
                                 (get_or node "rating" (VStr "")))) in
  let sold := VStr (py_str (por (por (get node "sold") (get node "soldCount"))
                                (VStr ""))) in
  let link := por (get node "url") (VStr base_url) in
  plink <- match link with
           | VStr s => Ok (normalize_product_link s)
           | _ => Raise AttributeError
           end ;;
  Ok {| title := title;
        origin_price := clean_price origin_price;
        sale_price := clean_price raw_price;
        score := clean_score score;
        sold := clean_sold sold;
        product_link := plink;
        img := image |}.

(** The recursive [walk] of [_products_from_json_blob]: the products
    appended while visiting [node], in order. *)
Fixpoint walk (base_url : string) (node : value) : result (list Product) :=
  match node with
  | VDict d =>
      here <- (if _looks_like_product_dict d
               then p <- _product_from_dict d base_url ;; Ok [p]
               else Ok []) ;;
      below <- gather (map (fun kv => walk base_url (snd kv)) d) ;;
      Ok (here ++ below)%list
  | VList l => gather (map (walk base_url) l)
  | _ => Ok []
  end.

Definition _products_from_json_blob (data : value) (base_url : string)
  : result (list Product) :=
  walk base_url data.

Definition _product_from_card (card : Card) (base_url : string)
  : option Product :=
  let title := match card_title_el card with Some t => t | None => "" end in
  let price := match card_price_el card with Some t => t | None => "" end in
  let link := match card_href card with Some h => h | None => base_url end in
  let img := match card_img card with Some src => src | None => VNone end in
  let score := "" in
  let sold := "" in
  if (is_empty title && is_empty price)%bool then None
  else Some {| title := VStr title;
               origin_price := None;
               sale_price := clean_price (VStr price);
               score := clean_score (VStr score);
               sold := clean_sold (VStr sold);
               product_link := normalize_product_link link;
               img := img |}.

Definition quoted (s : string) : string :=
  String dquote (s ++ String dquote "").

(** Strategy 1 of [_parse_listing_page]: the loop over the scripts. *)
Fixpoint json_script_scan (l : list (option string)) (url : string)
  : result (list Product) :=
  match l with
  | [] => Ok []
  | script :: rest =>
      let script_text := match script with Some s => s | None => "" end in
      if is_empty script_text then json_script_scan rest url
      else if (contains (quoted "product") (lower script_text)
               && contains (quoted "price") (lower script_text))%bool
      then match _extract_json_from_script script_text with
           | Raise ValueError => json_script_scan rest url
           | Raise e => Raise e
           | Ok data =>
               found <- _products_from_json_blob data url ;;
               more <- json_script_scan rest url ;;
               Ok (found ++ more)%list
           end
      else json_script_scan rest url
  end.

Definition card_selectors : list string :=
  ["a[href*='/product/']"; "div[data-e2e='search-card']"].

Fixpoint cards_to_products (cards : list Card) (url : string) : list Product :=
  match cards with
  | [] => []
  | card :: rest =>
      match _product_from_card card url with
      | Some product => product :: cards_to_products rest url
      | None => cards_to_products rest url
      end
  end.

(** Strategy 2 of [_parse_listing_page]: the loop over the selectors. *)
Definition card_scan (soup : Soup) (url : string) : list Product :=
  flat_map (fun selector => cards_to_products (select soup selector) url)
           card_selectors.

End WithRuntime.

(** The de-duplication loop: [unique] is the insertion-ordered dictionary. *)
Definition has_key (unique : list (string * Product)) (k : string) : bool :=
  existsb (fun kv => String.eqb (fst kv) k) unique.

Fixpoint dedupe_loop (unique : list (string * Product)) (products : list Product)
  : list (string * Product) :=
  match products with
  | [] => unique
  | product :: rest =>
      if has_key unique (product_link product)
      then dedupe_loop unique rest
      else dedupe_loop (unique ++ [(product_link product, product)])%list rest
  end.

(** [list(unique.values())] *)
Definition dedupe (products : list Product) : list Product :=
  map snd (dedupe_loop [] products).

Section WithRuntime.
Context {RT : Runtime}.

Definition _parse_listing_page (soup : Soup) (url : string)
  : result (list Product) :=
  products <- json_script_scan (scripts soup) url ;;
  let products :=
    match products with
    | [] => card_scan soup url
    | _ => products
    end in
  Ok (dedupe products).

End WithRuntime.

End TiktokParser.

(** ** [src/utils/parser.py] *)

Module Parser.
Import Py.
Local Open Scope result_scope.

Definition float_zero : float := S754_zero false.

Section WithRuntime.
Context {RT : Runtime}.

Definition normalize_price (v : value) : result float :=
  match v with
  | VNone => Ok float_zero
  | VBool _ | VInt _ | VFloat _ => py_float v
  | _ =>
      let s := py_str v in
      let digits :=
        sfilter (fun ch => (is_digit ch || Ascii.eqb ch "." || Ascii.eqb ch ",")%bool)
                s in
      let digits := sfilter (fun ch => negb (Ascii.eqb ch ",")) digits in
      catch_ValueError (float_of_str digits) (Ok float_zero)
  end.

End WithRuntime.

Definition currency_mapping : list (string * string) :=
  [("US", "USD"); ("VN", "VND"); ("GB", "GBP"); ("EU", "EUR"); ("PK", "PKR");
   ("ID", "IDR"); ("MY", "MYR"); ("TH", "THB"); ("PH", "PHP")].

Fixpoint mapping_get (m : list (string * string)) (k dflt : string) : string :=
  match m with
  | [] => dflt
  | (k', v) :: r => if String.eqb k' k then v else mapping_get r k dflt
  end.

Definition guess_currency_from_region (region : option string) : string :=
  match region with
  | None => "USD"
  | Some r => if is_empty r then "USD"
              else mapping_get currency_mapping (upper r) "USD"
  end.

Section WithRuntime.
Context {RT : Runtime}.

Definition to_iso8601 (dt : value) : result value :=
  if negb (truthy dt) then Ok VNone
  else match dt with
       | VBool _ | VInt _ | VFloat _ =>
           f <- py_float dt ;;
           t <- utcfromtimestamp f ;;
           Ok (VStr (dt_isoformat t ++ "Z"))
       | VStr s =>
           catch_Exception
             (t <- dtparser_parse s ;; Ok (VStr (dt_isoformat t)))
             (Ok VNone)
       | VDatetime t => Ok (VStr (dt_isoformat t))
       | _ => Ok VNone
       end.

(** [images[0]] *)
Definition first_item (images : value) : result value :=
  match images with
  | VList (x :: _) => Ok x
  | VList [] => Raise IndexError
  | VStr s => match s with
              | String c _ => Ok (VStr (String c ""))
              | EmptyString => Raise IndexError
              end
  | VDict _ => Raise KeyError
  | _ => Raise TypeError
  end.

Definition map_product (raw : dict) (region : option string) : result dict :=
  let currency := por (get raw "currency")
                      (VStr (guess_currency_from_region region)) in
  let images := por (por (get raw "img") (get raw "images")) (VList []) in
  let images := match images with
                | VStr s => VList [VStr s]
                | _ => images
                end in
  let product_id :=
    VStr (py_str (por (por (get raw "product_id") (get raw "id")) (VStr ""))) in
  let title := por (por (get raw "title") (get raw "name")) (VStr "") in
  cover <- (if truthy (get raw "cover") then Ok (get raw "cover")
            else if truthy images then first_item images else Ok VNone) ;;
  price <- normalize_price
             (por (por (get raw "price") (get raw "min_price")) (VInt 0)) ;;
  format_price <-
    (if truthy (get raw "format_price") then Ok (get raw "format_price")
     else p <- normalize_price (get raw "price") ;;
          Ok (VStr (format_fixed p 2 ++ " " ++ py_str currency))) ;;
  let discount := get raw "discount" in
  let warehouse_region :=
    por (get raw "warehouse_region") (get raw "ship_from") in
  let product_rating :=
    VStr (py_str (por (por (get raw "product_rating") (get raw "rating"))
                      (VStr ""))) in
  sold_count <- py_int (por (por (get raw "sold_count") (get raw "sold"))
                            (VInt 0)) ;;
  review_count <- py_int (por (por (get raw "review_count") (get raw "reviews"))
                              (VInt 0)) ;;
  let seller_name :=
    por (por (get raw "seller_name") (get raw "shop_name")) (VStr "") in
  let seller_id :=
    VStr (py_str (por (por (get raw "seller_id") (get raw "shop_id")) (VStr ""))) in
  let promotion_labels :=
    por (por (get raw "promotion_labels") (get raw "badges")) (VList []) in
  created_at <- to_iso8601 (get raw "created_at") ;;
  last_seen_at <- to_iso8601 (get raw "last_seen_at") ;;
  Ok [("product_id", product_id);
      ("title", title);
      ("cover", cover);
      ("img", images);
      ("price", VFloat price);
      ("currency", currency);
      ("format_price", format_price);
      ("discount", discount);
      ("warehouse_region", warehouse_region);
      ("product_rating", product_rating);
      ("sold_count", VInt sold_count);
      ("review_count", VInt review_count);
      ("seller_name", seller_name);
      ("seller_id", seller_id);
      ("promotion_labels", promotion_labels);
      ("created_at", created_at);
      ("last_seen_at", last_seen_at);
      ("_source", por (get raw "_source") (VStr "mock"))].

End WithRuntime.

End Parser.

(** ** [src/utils/validator.py] *)

Module Validator.
Import Py.

(** The validated model. *)
Record InputModel : Type := {
  keyword : option string;
  isTrending : bool;
  region : option string;
  sortType : string;
  limit : Z;
  startUrls : option (list string)
}.

(** A payload whose values already have the Python type of their field.
    For every field the outer [option] tells whether the key is present;
    for the optional fields the inner one is Python's [None]. *)
Record Payload : Type := {
  pl_keyword : option (option string);
  pl_isTrending : option bool;
  pl_region : option (option string);
  pl_sortType : option string;
  pl_limit : option Z;
  pl_startUrls : option (option (list string))
}.

Definition validate_region (v : option string) : result (option string) :=
  match v with
  | None => Ok None
  | Some s =>
      if (negb (Nat.eqb (String.length s) 2) || negb (isalpha s))%bool
      then Raise ValueError
      else Ok (Some (upper s))
  end.

(** [data] is [info.data]: the fields validated so far. *)
Definition validate_keyword (v : option string) (data : dict)
  : result (option string) :=
  let start_urls := get data "startUrls" in
  let is_trending := get_or data "isTrending" (VBool false) in
  let v_true := match v with Some s => negb (is_empty s) | None => false end in
  if (negb (truthy start_urls) && negb (truthy is_trending) && negb v_true)%bool
  then Raise ValueError
  else Ok (option_map strip v).

Definition sort_types : list string :=
  ["PRICE_ASC"; "PRICE_DESC"; "BEST_SELLERS"; "RELEVANCE"].

Definition of_opt_str (o : option string) : value :=
  match o with Some s => VStr s | None => VNone end.

(** [data] after a field: a valid field is recorded, a failed one is not. *)
Definition record_field {A : Type} (data : dict) (name : string)
  (r : result A) (inj : A -> value) : dict :=
  match r with
  | Ok a => (data ++ [(name, inj a)])%list
  | Raise _ => data
  end.

(** [InputModel.model_validate]: the fields are validated in the order of
    their declaration; a field validator runs on a value that is present,
    not on a default, and sees in [info.data] the fields before its own. *)
Definition model_validate (p : Payload) : result InputModel :=
  let data : dict := [] in
  let r_keyword := match pl_keyword p with
                   | None => Ok None
                   | Some v => validate_keyword v data
                   end in
  let data := record_field data "keyword" r_keyword of_opt_str in
  let r_trending := match pl_isTrending p with
                    | None => Ok false
                    | Some b => Ok b
                    end in
  let data := record_field data "isTrending" r_trending VBool in
  let r_region := match pl_region p with
                  | None => Ok None
                  | Some v => validate_region v
                  end in
  let data := record_field data "region" r_region of_opt_str in
  let r_sort := match pl_sortType p with
                | None => Ok "RELEVANCE"
                | Some s => if existsb (String.eqb s) sort_types
                            then Ok s else Raise ValueError
                end in
  let data := record_field data "sortType" r_sort VStr in
  let r_limit := match pl_limit p with
                 | None => Ok 50
                 | Some n => if ((1 <=? n) && (n <=? 2000))%bool
                             then Ok n else Raise ValueError
                 end in
  let r_urls : result (option (list string)) :=
    match pl_startUrls p with
    | None => Ok None
    | Some u => Ok u
    end in
  match r_keyword, r_trending, r_region, r_sort, r_limit, r_urls with
  | Ok k, Ok t, Ok r, Ok s, Ok n, Ok u =>
      Ok {| keyword := k; isTrending := t; region := r;
            sortType := s; limit := n; startUrls := u |}
  | _, _, _, _, _, _ => Raise ValidationError
  end.

(** [validate_input]: a model, or else the exception that the handler
    raises in place of pydantic's own. *)
Definition validate_input (payload : Payload) : result InputModel :=
  match model_validate payload with
  | Ok m => Ok m
  | Raise _ => Raise ValidationError
  end.

End Validator.

(** ** [src/services/scraper.py] *)

Module Scraper.
Import Py Parser.
Import MonadNotation.

(** *** Sorting *)

Section Sorting.
Context {K A : Type}.
Variable lt : K -> K -> bool.

(** [x] goes in front of the first element whose key is not below its own,
    so that equal keys keep their order. *)
Fixpoint insert_sorted (x : K * A) (l : list (K * A)) : list (K * A) :=
  match l with
  | [] => [x]
  | y :: r => if lt (fst y) (fst x) then y :: insert_sorted x r else x :: l
  end.

Definition stable_sort (l : list (K * A)) : list (K * A) :=
  fold_right insert_sorted [] l.

(** [sorted(items, key=key, reverse=reverse)]: the keys are computed first,
    in order; a reversed sort reverses, sorts and reverses again.  The order
    is Python's whenever [lt] is a strict weak order on the keys at hand
    (that is, unless a key is a NaN). *)
Definition sorted_by (key : A -> result K) (reverse : bool) (items : list A)
  : result (list A) :=
  match mapM (fun x => match key x with
                       | Ok k => Ok (k, x)
                       | Raise e => Raise e
                       end) items with
  | Raise e => Raise e
  | Ok keyed =>
      Ok (map snd (if reverse then rev (stable_sort (rev keyed))
                   else stable_sort keyed))
  end.

End Sorting.

Definition price_key (x : dict) : result float :=
  py_float (get_or x "price" (VInt 0)).

Definition sold_key (x : dict) : result Z :=
  py_int (get_or x "sold_count" (VInt 0)).

Definition _apply_sort (items : list dict) (sort : string)
  : result (list dict) :=
  if String.eqb sort "PRICE_ASC" then sorted_by float_ltb price_key false items
  else if String.eqb sort "PRICE_DESC" then sorted_by float_ltb price_key true items
  else if String.eqb sort "BEST_SELLERS" then sorted_by Z.ltb sold_key true items
  else Ok items.

(** *** The mock generator *)

(** The methods of [random.Random] that the generator calls.  [choice n]
    and [choices n k] give the positions drawn in a population of size
    [n]. *)
Class Random : Type := {
  rng : Type;
  seed : string -> rng;
  randint : Z -> Z -> state rng Z;
  uniform : float -> float -> state rng float;
  choice : nat -> state rng nat;
  choices : nat -> nat -> state rng (list nat)
}.

Definition digits : string := "0123456789".
Definition ascii_lowercase : string := "abcdefghijklmnopqrstuvwxyz".

Definition char_at (population : string) (i : nat) : ascii :=
  match String.get i population with
  | Some c => c
  | None => "0"%char
  end.

(** ["".join(...)] of the characters drawn at the positions [idx]. *)
Fixpoint pick_chars (population : string) (idx : list nat) : string :=
  match idx with
  | [] => ""
  | i :: r => String (char_at population i) (pick_chars population r)
  end.

Definition str_or (o : option string) (dflt : string) : string :=
  match o with
  | Some s => if is_empty s then dflt else s
  | None => dflt
  end.

Definition seed_basis (keyword : option string) (is_trending : bool)
  (region : option string) : string :=
  str_or keyword "trending" ++ "|" ++ str_or region "US" ++ "|"
  ++ (if is_trending then "1" else "0").

Definition labels_pool : list value :=
  [VList [VStr "Flash Sale"];
   VList [VStr "Top Choice Star Shop"];
   VList [VStr "Editor Pick"];
   VList [];
   VList [VStr "Limited Offer"]].

Definition discounts : list value :=
  [VNone; VStr "10%"; VStr "15%"; VStr "25%"; VStr "40%"].

Section Mock.
Context {RND : Random}.
Local Open Scope monad_scope.

(** One round of the loop: the draws, in order, and the record yielded. *)
Definition mock_item (keyword region : option string) (i : nat)
  : state rng dict :=
  let currency := guess_currency_from_region region in
  sold <- randint 10 50000 ;;
  u <- uniform (float_of_dec false 1 0) (float_of_dec false 300 0) ;;
  let price := py_round u 2 in
  d <- choice (List.length discounts) ;;
  let discount := nth d discounts VNone in
  pid <- choices (String.length digits) 18 ;;
  let pid := pick_chars digits pid in
  ih <- choices (String.length (ascii_lowercase ++ digits)) 8 ;;
  let img_hash := pick_chars (ascii_lowercase ++ digits) ih in
  let title_kw := slice (str_or keyword "Trending") 0 20 in
  r <- uniform (float_of_dec false 32 (-1)) (float_of_dec false 5 0) ;;
  reviews <- randint 0 (Z.max 10 (sold / 5)) ;;
  sid <- choices (String.length digits) 10 ;;
  l <- choice (List.length labels_pool) ;;
  ret [("product_id", VStr pid);
       ("title", VStr (title_kw ++ " Product " ++ str_of_nat (i + 1)));
       ("cover", VStr ("https://picsum.photos/seed/" ++ img_hash
                       ++ "/400/400.webp"));
       ("img", VList [VStr ("https://picsum.photos/seed/" ++ img_hash
                            ++ "a/800/800.webp");
                      VStr ("https://picsum.photos/seed/" ++ img_hash
                            ++ "b/800/800.webp")]);
       ("price", VFloat price);
       ("currency", VStr currency);
       ("format_price", VNone);
       ("discount", discount);
       ("warehouse_region", VStr (str_or region "US"));
       ("product_rating", VFloat (py_round r 1));
       ("sold_count", VInt sold);
       ("review_count", VInt reviews);
       ("seller_name", VStr (title_kw ++ " Seller"));
       ("seller_id", VStr (pick_chars digits sid));
       ("promotion_labels", nth l labels_pool VNone);
       ("_source", VStr "mock")].

(** [for i in range(...)], from round [i] on, [n] rounds to go. *)
Fixpoint mock_loop (keyword region : option string) (n i : nat)
  : state rng (list dict) :=
  match n with
  | O => ret []
  | S n' =>
      x <- mock_item keyword region i ;;
      xs <- mock_loop keyword region n' (S i) ;;
      ret (x :: xs)
  end.

(** The records the generator yields, as [list(...)] collects them. *)
Definition _mock_products (keyword : option string) (is_trending : bool)
  (region : option string) (limit : Z) : list dict :=
  let rnd := seed (seed_basis keyword is_trending region) in
  evalState (mock_loop keyword region (Z.to_nat limit) 0) rnd.

(** *** The interpreter around a call

    What the module [random] lets a call read besides its arguments: the
    state of the module-level generator, from which [random.randint],
    [random.uniform] and [random.choices] draw, and the entropy of the
    system, from which [random.Random()] seeds a generator that is given no
    seed. *)
Record World : Type := {
  global_rnd : rng;
  entropy : nat -> string;
  drawn : nat
}.

(** [random.Random(a)]: a generator of its own, seeded from [a], or from
    the system when [a] is [None]. *)
Definition new_random (a : option string) : state World rng :=
  mkState (fun w =>
    match a with
    | Some s => (seed s, w)
    | None => (seed (entropy w (drawn w)),
               {| global_rnd := global_rnd w;
                  entropy := entropy w;
                  drawn := S (drawn w) |})
    end).

(** A draw from the module-level generator, as in [random.randint(a, b)]. *)
Definition global_draw {A : Type} (m : state rng A) : state World A :=
  mkState (fun w =>
    let (x, s) := runState m (global_rnd w) in
    (x, {| global_rnd := s; entropy := entropy w; drawn := drawn w |})).

(** [list(self._mock_products(keyword, is_trending, region, limit))], as
    every caller runs the generator: [rnd = random.Random(seed_basis)],
    then the loop, whose draws are all methods of [rnd]. *)
Definition list_mock_products (keyword : option string) (is_trending : bool)
  (region : option string) (limit : Z) : state World (list dict) :=
  rnd <- new_random (Some (seed_basis keyword is_trending region)) ;;
  ret (evalState (mock_loop keyword region (Z.to_nat limit) 0) rnd).

(** Two runs of [call] in one run of the program, with [between] run
    between them. *)
Definition call_twice {A B : Type} (call : state World A)
  (between : state World B) : state World (A * A) :=
  first <- call ;;
  _ <- between ;;
  second <- call ;;
  ret (first, second).

(** The record that [_fetch_url] makes once the response has arrived: its
    draws are functions of the module [random]. *)
Definition fetched_record (url : string) (region : option string)
  : state World dict :=
  let currency := guess_currency_from_region region in
  pid <- global_draw (choices (String.length digits) 18) ;;
  price <- global_draw (uniform (float_of_dec false 5 0)
                                (float_of_dec false 150 0)) ;;
  rating <- global_draw (uniform (float_of_dec false 3 0)
                                 (float_of_dec false 5 0)) ;;
  sold <- global_draw (randint 0 5000) ;;
  reviews <- global_draw (randint 0 800) ;;
  ret [("product_id", VStr (pick_chars digits pid));
       ("title", VStr ("Parsed: " ++ slice url 0 40));
       ("cover", VNone);
       ("img", VList []);
       ("price", VFloat (py_round price 2));
       ("currency", VStr currency);
       ("format_price", VNone);
       ("discount", VNone);
       ("warehouse_region",
        match region with Some r => VStr r | None => VNone end);
       ("product_rating", VFloat (py_round rating 1));
       ("sold_count", VInt sold);
       ("review_count", VInt reviews);
       ("seller_name", VStr "Unknown");
       ("seller_id", VStr "0");
       ("promotion_labels", VList []);
       ("_source", VStr "fetch_url")].

End Mock.

Section Search.
Context {RT : Runtime} {RND : Random}.

(** [search] when [cfg.offline_mode] is set. *)
Definition search_offline (keyword : option string) (is_trending : bool)
  (region : option string) (sort : string) (limit : Z) : result (list dict) :=
  let products := _mock_products keyword is_trending region limit in
  match _apply_sort products sort with
  | Raise e => Raise e
  | Ok products => mapM (fun p => map_product p region) products
  end.

End Search.

End Scraper.

(** ** A reference run time

    Concrete instances of [Runtime] and [Random] on which the model can be
    run.  The theorems below hold for every instance. *)

Module Reference.
Import Py Scraper.

(** *** [repr] of a float *)

(** A finite positive double [m * 2^e] is the decimal [d * 10^q] exactly. *)
Definition exact_decimal (m : positive) (e : Z) : Z * Z :=
  if 0 <=? e then (Zpos m * 2 ^ e, 0)
  else (Zpos m * 5 ^ (- e), e).

Definition reads_back (m : positive) (e : Z) (d q : Z) : bool :=
  match float_of_dec false d q with
  | S754_finite _ m' e' => (Pos.eqb m m' && (e =? e'))%bool
  | _ => false
  end.

(** The [p]-digit decimals next to [d * 10^q] that read back as the double,
    nearest first. *)
Definition candidates (m : positive) (e : Z) (d q : Z) (p : nat)
  : list (Z * Z) :=
  let len := Z.of_nat (String.length (str_of_Z d)) in
  let drop := len - Z.of_nat p in
  if drop <=? 0 then (if reads_back m e d q then [(d, q)] else [])
  else
    let unit := 10 ^ drop in
    let lo := d / unit in
    let hi := lo + 1 in
    let r := d mod unit in
    let near_lo := if 2 * r =? unit then Z.even lo else 2 * r <? unit in
    filter (fun c => reads_back m e (fst c) (snd c))
           (if near_lo then [(lo, q + drop); (hi, q + drop)]
            else [(hi, q + drop); (lo, q + drop)]).

(** The shortest decimal that reads back, searched among 1 to [n] digits
    from [p] digits on. *)
Fixpoint shortest (m : positive) (e : Z) (d q : Z) (n p : nat) : Z * Z :=
  match n with
  | O => (d, q)
  | S n' =>
      match candidates m e d q p with
      | c :: _ => c
      | [] => shortest m e d q n' (S p)
      end
  end.

Fixpoint rstrip_zeros (s : string) : string :=
  match s with
  | EmptyString => EmptyString
  | String c r =>
      let r' := rstrip_zeros r in
      if (Ascii.eqb c "0" && is_empty r')%bool then EmptyString else String c r'
  end.

Definition two_digits (z : Z) : string :=
  if z <? 10 then String "0" (str_of_Z z) else str_of_Z z.

(** The digits [ds] with the decimal point after [decpt] of them, laid out
    as [repr] does. *)
Definition layout (ds : string) (decpt : Z) : string :=
  let n := Z.of_nat (String.length ds) in
  if ((decpt <=? -4) || (16 <? decpt))%bool then
    let rest := String.substring 1 (String.length ds) ds in
    let x := decpt - 1 in
    String.substring 0 1 ds
    ++ (if is_empty rest then "" else "." ++ rest)
    ++ "e" ++ (if x <? 0 then "-" else "+") ++ two_digits (Z.abs x)
  else if decpt <=? 0 then "0." ++ zeros (Z.to_nat (- decpt)) ++ ds
  else if n <=? decpt then ds ++ zeros (Z.to_nat (decpt - n)) ++ ".0"
  else String.substring 0 (Z.to_nat decpt) ds ++ "."
       ++ String.substring (Z.to_nat decpt) (String.length ds) ds.

Definition shortest_repr (f : float) : string :=
  match f with
  | S754_nan => "nan"
  | S754_infinity s => if s then "-inf" else "inf"
  | S754_zero s => if s then "-0.0" else "0.0"
  | S754_finite s m e =>
      let (d, q) := exact_decimal m e in
      let (c, x) := shortest m e d q 17 1 in
      let all := str_of_Z c in
      let ds := rstrip_zeros all in
      (if s then "-" else "")
      ++ layout (if is_empty ds then "0" else ds)
                (Z.of_nat (String.length all) + x)
  end.

(** *** Dates *)

Definition pad (width : nat) (z : Z) : string :=
  let t := str_of_Z z in zeros (width - String.length t) ++ t.

(** Year, month and day of the day number [days] counted from 1970-01-01,
    in the proleptic Gregorian calendar. *)
Definition civil_from_days (days : Z) : Z * Z * Z :=
  let z := days + 719468 in
  let era := z / 146097 in
  let doe := z - era * 146097 in
  let yoe := (doe - doe / 1460 + doe / 36524 - doe / 146096) / 365 in
  let doy := doe - (365 * yoe + yoe / 4 - yoe / 100) in
  let mp := (5 * doy + 2) / 153 in
  let d := doy - (153 * mp + 2) / 5 + 1 in
  let m := if mp <? 10 then mp + 3 else mp - 9 in
  let y := yoe + era * 400 + (if m <=? 2 then 1 else 0) in
  (y, m, d).

(** A naive [datetime] with the given fields. *)
Definition make_datetime (y mo d h mi sec us : Z) : datetime :=
  let date := pad 4 y ++ "-" ++ pad 2 mo ++ "-" ++ pad 2 d in
  let time := pad 2 h ++ ":" ++ pad 2 mi ++ ":" ++ pad 2 sec
              ++ (if us =? 0 then "" else "." ++ pad 6 us) in
  {| dt_isoformat := date ++ "T" ++ time;
     dt_str := date ++ " " ++ time;
     dt_repr := "datetime.datetime("
                ++ join ", " (map str_of_Z
                                ([y; mo; d; h; mi]
                                 ++ (if us =? 0
                                     then (if sec =? 0 then [] else [sec])
                                     else [sec; us]))%list)
                ++ ")" |}.

(** Microseconds since the epoch, to the nearest, ties to even. *)
Definition micros (f : float) : result Z :=
  match f with
  | S754_nan => Raise ValueError
  | S754_infinity _ => Raise OverflowError
  | S754_zero _ => Ok 0
  | S754_finite s m e =>
      let a := scaled_round m e 6 in Ok (if s then - a else a)
  end.

(** [datetime.utcfromtimestamp] where [time_t] has 64 bits. *)
Definition utc_from_timestamp (f : float) : result datetime :=
  match micros f with
  | Raise e => Raise e
  | Ok us =>
      let secs := us / 1000000 in
      if (Z.abs secs >=? 2 ^ 63) then Raise OverflowError
      else
        let '(y, mo, d) := civil_from_days (secs / 86400) in
        let sod := secs mod 86400 in
        if ((y <? 1) || (9999 <? y))%bool then Raise ValueError
        else Ok (make_datetime y mo d (sod / 3600) (sod mod 3600 / 60)
                   (sod mod 60) (us mod 1000000))
  end.

Definition is_leap (y : Z) : bool :=
  ((y mod 4 =? 0) && (negb (y mod 100 =? 0) || (y mod 400 =? 0)))%bool.

Definition days_in_month (y mo : Z) : Z :=
  if mo =? 2 then (if is_leap y then 29 else 28)
  else if ((mo =? 4) || (mo =? 6) || (mo =? 9) || (mo =? 11))%bool then 30
  else 31.

Definition all_digits (s : string) : bool :=
  (negb (is_empty s) && sforall is_digit s)%bool.

(** Of the many notations [dateutil] reads, the plain ISO ones:
    [YYYY-MM-DD], optionally followed by [T] or a blank and [HH:MM:SS]. *)
Definition parse_iso (s : string) : result datetime :=
  let y := String.substring 0 4 s in
  let mo := String.substring 5 2 s in
  let d := String.substring 8 2 s in
  let date_ok :=
    (all_digits y && all_digits mo && all_digits d
     && String.eqb (String.substring 4 1 s) "-"
     && String.eqb (String.substring 7 1 s) "-"
     && (1 <=? digits_val 0 y)
     && (1 <=? digits_val 0 mo) && (digits_val 0 mo <=? 12)
     && (1 <=? digits_val 0 d)
     && (digits_val 0 d <=? days_in_month (digits_val 0 y) (digits_val 0 mo)))%bool in
  let h := String.substring 11 2 s in
  let mi := String.substring 14 2 s in
  let sec := String.substring 17 2 s in
  let time_ok :=
    ((String.eqb (String.substring 10 1 s) "T"
      || String.eqb (String.substring 10 1 s) " ")
     && all_digits h && all_digits mi && all_digits sec
     && String.eqb (String.substring 13 1 s) ":"
     && String.eqb (String.substring 16 1 s) ":"
     && (digits_val 0 h <=? 23) && (digits_val 0 mi <=? 59)
     && (digits_val 0 sec <=? 59))%bool in
  if (date_ok && Nat.eqb (String.length s) 10)%bool
  then Ok (make_datetime (digits_val 0 y) (digits_val 0 mo) (digits_val 0 d)
             0 0 0 0)
  else if (date_ok && time_ok && Nat.eqb (String.length s) 19)%bool
  then Ok (make_datetime (digits_val 0 y) (digits_val 0 mo) (digits_val 0 d)
             (digits_val 0 h) (digits_val 0 mi) (digits_val 0 sec) 0)
  else Raise ValueError.

#[local] Instance runtime : Runtime := {|
  float_repr := shortest_repr;
  utcfromtimestamp := utc_from_timestamp;
  dtparser_parse := parse_iso
|}.

(** *** A linear congruential generator *)

Definition lcg_seed (s : string) : Z :=
  (fix go (acc : Z) (s : string) : Z :=
     match s with
     | EmptyString => acc
     | String c r => go ((31 * acc + Z.of_N (code c)) mod 2 ^ 31) r
     end) 7 s.

Definition lcg_next (s : Z) : Z := (1103515245 * s + 12345) mod 2 ^ 31.

Definition lcg_randint (a b : Z) : state Z Z :=
  mkState (fun s => let s' := lcg_next s in (a + s' mod (b - a + 1), s')).

Definition lcg_uniform (a b : float) : state Z float :=
  mkState (fun s =>
             let s' := lcg_next s in
             let u := match s' with
                      | Zpos p => float_of_ratio false p (Z.to_pos (2 ^ 31))
                      | _ => S754_zero false
                      end in
             (SFadd prec emax a (SFmul prec emax (SFsub prec emax b a) u), s')).

Definition lcg_choice (n : nat) : state Z nat :=
  mkState (fun s => let s' := lcg_next s in
                    (Z.to_nat (s' mod Z.of_nat n), s')).

Fixpoint lcg_choices (n k : nat) : state Z (list nat) :=
  match k with
  | O => mkState (fun s => ([], s))
  | S k' =>
      mkState (fun s =>
                 let (i, s1) := runState (lcg_choice n) s in
                 let (r, s2) := runState (lcg_choices n k') s1 in
                 (i :: r, s2))
  end.

#[local] Instance lcg : Random := {|
  rng := Z;
  seed := lcg_seed;
  randint := lcg_randint;
  uniform := lcg_uniform;
  choice := lcg_choice;
  choices := lcg_choices
|}.

End Reference.

(** ** The specification's wording, as definitions *)

Module Spec.
Import Py TiktokParser.

Definition other_key (k : string) (q : Product) : bool :=
  negb (String.eqb (product_link q) k).

(** The first record of every key, in first-seen order: the head is kept,
    and what is kept of the rest loses the records with the head's key. *)
Fixpoint first_per_key (l : list Product) : list Product :=
  match l with
  | [] => []
  | p :: r => p :: filter (other_key (product_link p)) (first_per_key r)
  end.

(** The identity key of a record: its product link after stripping the
    white space around it. *)
Definition identity_key (p : Product) : string :=
  UtilsFormat.normalize_product_link (product_link p).

Definition other_identity (k : string) (q : Product) : bool :=
  negb (String.eqb (identity_key q) k).

(** The first record of every identity key, in first-seen order. *)
Fixpoint first_per_identity (l : list Product) : list Product :=
  match l with
  | [] => []
  | p :: r =>
      p :: filter (other_identity (identity_key p)) (first_per_identity r)
  end.

(** The first record with identity key [k]. *)
Definition first_with_identity (k : string) (l : list Product)
  : option Product :=
  find (fun p => String.eqb (identity_key p) k) l.

(** The record holds its identity key as its link. *)
Definition keyed (p : Product) : Prop := identity_key p = product_link p.

(** [l1] is [l2] with some elements left out, the order unchanged. *)
Inductive subseq {A : Type} : list A -> list A -> Prop :=
| subseq_nil : subseq [] []
| subseq_skip : forall x l1 l2, subseq l1 l2 -> subseq l1 (x :: l2)
| subseq_take : forall x l1 l2, subseq l1 l2 -> subseq (x :: l1) (x :: l2).

(** The first record with key [k]. *)
Definition first_with (k : string) (l : list Product) : option Product :=
  find (fun p => String.eqb (product_link p) k) l.

(** A record passes when [field] is absent from it or holds a value that
    [coerces]. *)
Definition present_ok (field : string) (coerces : value -> bool) (x : dict)
  : bool :=
  match lookup x field with
  | Some v => coerces v
  | None => true
  end.

(** The two prices of a record agree. *)
Definition single_price (p : Product) : Prop := origin_price p = sale_price p.

(** [float(v)], respectively [int(v)], returns. *)
Definition float_coercible (v : value) : bool := is_ok (py_float v).
Definition int_coercible (v : value) : bool := is_ok (py_int v).

End Spec.

(** ** Sample inputs *)

Module Examples.
Import Py TiktokParser Validator.

(** A script made of one JSON object: a listing with one product. *)
Definition widget_json : string :=
  "{" ++ quoted "product" ++ ":[{" ++ quoted "title" ++ ":" ++ quoted "Widget"
  ++ "," ++ quoted "price" ++ ":" ++ quoted "$9.99" ++ "}]}".

Definition widget_value : value :=
  VDict [("product",
          VList [VDict [("title", VStr "Widget"); ("price", VStr "$9.99")]])].

Definition listing_url : string := "https://shop.example/list".

Definition widget : Product :=
  {| title := VStr "Widget";
     origin_price := Some "$9.99";
     sale_price := Some "$9.99";
     score := None;
     sold := None;
     product_link := listing_url;
     img := VNone |}.

Definition gadget_card : Card :=
  {| card_title_el := Some "Gadget";
     card_price_el := Some "$5";
     card_href := Some "/product/1";
     card_img := None |}.

(** A listing page with the script above and a card under every selector. *)
Definition widget_soup : Soup :=
  {| scripts := [Some widget_json]; select := fun _ => [gadget_card] |}.

(** The payload [{}]. *)
Definition empty_payload : Payload :=
  {| pl_keyword := None; pl_isTrending := None; pl_region := None;
     pl_sortType := None; pl_limit := None; pl_startUrls := None |}.

(** The payload [{"keyword": null, "isTrending": true}]. *)
Definition trending_payload : Payload :=
  {| pl_keyword := Some None; pl_isTrending := Some true; pl_region := None;
     pl_sortType := None; pl_limit := None; pl_startUrls := None |}.

(** The payload [{"keyword": "", "startUrls": ["https://shop.example/list"]}]. *)
Definition urls_payload : Payload :=
  {| pl_keyword := Some (Some ""); pl_isTrending := None; pl_region := None;
     pl_sortType := None; pl_limit := None;
     pl_startUrls := Some (Some [listing_url]) |}.

(** Records to sort: a numeric string, no price at all, an integer. *)
Definition priced_items : list dict :=
  [[("price", VStr "2.5")]; [("title", VStr "free")]; [("price", VInt 1)]].

End Examples.

(** ** [src/extractors/utils_format.py]: the loaders *)

Module Loaders.
Import Py.

(** What the program finds at a path. *)
Inductive file_state : Type :=
| Missing
| Unreadable
| Content (text : string).

Definition default_settings : dict :=
  [("user_agent",
    VStr ("Mozilla/5.0 (Windows NT 10.0; Win64; x64) "
          ++ "AppleWebKit/537.36 (KHTML, like Gecko) "
          ++ "Chrome/120.0.0.0 Safari/537.36"));
   ("request_timeout", VInt 15)].

(** [{**a, **b}] *)
Definition merge (a b : dict) : dict :=
  fold_left (fun acc kv => dict_set acc (fst kv) (snd kv)) b a.

(** [load_settings]: the defaults unless the file holds a JSON object. *)
Definition load_settings (file : file_state) : dict :=
  match file with
  | Missing => default_settings
  | Unreadable => default_settings
  | Content text =>
      match json_loads text with
      | Ok (VDict data) => merge default_settings data
      | _ => default_settings
      end
  end.

(** The loop of [load_urls_from_file] over the lines of the file. *)
Fixpoint url_lines (lines : list string) : list string :=
  match lines with
  | [] => []
  | line :: rest =>
      let line := strip line in
      if (is_empty line || String.prefix "#" line)%bool
      then url_lines rest
      else line :: url_lines rest
  end.

(** [load_urls_from_file]; [None] when the path does not exist. *)
Definition load_urls_from_file (file : option (list string)) : list string :=
  match file with
  | None => []
  | Some lines => url_lines lines
  end.

End Loaders.

(** ** [src/services/scraper.py]: the search *)

Module Service.
Import Py Parser Scraper.
Local Open Scope result_scope.


Section Search.
Context {RT : Runtime} {RND : Random}.

(** What the [k]-th use of [_fetch_url] in a search comes to, retries
    included: the record made of the response, or the exception that leaves
    it. *)
Variable fetch_url : nat -> string -> option string -> result dict.




End Search.

End Service.

(** ** Notions used to state the properties *)

Module Notions.
Import Py TiktokParser.

(** [a <= b] on floats; false whenever a NaN is involved. *)
Definition float_leb (a b : float) : bool :=
  match SFcompare a b with
  | Some Lt | Some Eq => true
  | _ => false
  end.

Definition is_nan (f : float) : bool :=
  match f with S754_nan => true | _ => false end.

(** Neither key is below the other. *)
Definition tied {K : Type} (lt : K -> K -> bool) (a b : K) : bool :=
  (negb (lt a b) && negb (lt b a))%bool.

(** The record [x] has a key, and it is tied with [k]. *)
Definition keyed_as {K A : Type} (lt : K -> K -> bool) (key : A -> result K)
  (k : K) (x : A) : bool :=
  match key x with
  | Ok k' => tied lt k' k
  | Raise _ => false
  end.

(** The place of a float that is not a NaN in the order of the floats:
    its class first, then the exponent and the mantissa. *)
Definition float_rank (f : float) : Z * Z * Z :=
  match f with
  | S754_infinity true => (-2, 0, 0)
  | S754_finite true m e => (-1, - e, Zneg m)
  | S754_zero _ => (0, 0, 0)
  | S754_nan => (0, 0, 0)
  | S754_finite false m e => (1, e, Zpos m)
  | S754_infinity false => (2, 0, 0)
  end.

Definition rank_compare (a b : Z * Z * Z) : comparison :=
  let '(a1, a2, a3) := a in
  let '(b1, b2, b3) := b in
  match a1 ?= b1 with
  | Eq => match a2 ?= b2 with
          | Eq => a3 ?= b3
          | c => c
          end
  | c => c
  end.

(** The record [x] has a sold count, and it is [k]. *)
Definition has_sold (k : Z) (x : dict) : bool :=
  match Scraper.sold_key x with
  | Ok k' => k' =? k
  | Raise _ => false
  end.

(** The price key of the record is not a NaN. *)
Definition no_nan_price (x : dict) : Prop :=
  Scraper.price_key x <> Ok S754_nan.

(** The record has the shape of the generator's records: the sixteen
    fields, with a float price, integer counts and the currency of the
    region. *)
Definition mock_shaped (region : option string) (x : dict) : Prop :=
  exists pid title cover img_a img_b price discount rating sold reviews
         seller sid labels,
    x = [("product_id", VStr pid);
         ("title", VStr title);
         ("cover", VStr ("https://picsum.photos/seed/" ++ cover));
         ("img", VList [VStr img_a; VStr img_b]);
         ("price", VFloat price);
         ("currency", VStr (Parser.guess_currency_from_region region));
         ("format_price", VNone);
         ("discount", discount);
         ("warehouse_region", VStr (Scraper.str_or region "US"));
         ("product_rating", VFloat rating);
         ("sold_count", VInt sold);
         ("review_count", VInt reviews);
         ("seller_name", VStr seller);
         ("seller_id", VStr sid);
         ("promotion_labels", labels);
         ("_source", VStr "mock")].

(** The sold count that a canonical record shows. *)
Definition shown_sold (r : dict) : option value := lookup r "sold_count".

(** The outermost container under construction is an object. *)
Fixpoint bottom_obj (stk : list frame) : bool :=
  match stk with
  | [] => false
  | [FObj _ _] => true
  | _ :: r => bottom_obj r
  end.

(** The parser is inside a text that began with an opening brace, or has
    finished one. *)
Definition in_object (st : pstate) : Prop :=
  match st with
  | PValue stk | PArrFirst stk | PArrAfter _ stk => bottom_obj stk = true
  | PObjFirst stk | PObjKey _ stk | PColon _ _ stk | PObjAfter _ stk =>
      stk = [] \/ bottom_obj stk = true
  | PDone v => exists d, v = VDict d
  | PError => True
  end.

(** The dictionary [d] is the value itself or lies somewhere inside it,
    under lists and dictionaries. *)
Inductive inside : value -> dict -> Prop :=
| inside_here : forall d, inside (VDict d) d
| inside_value : forall d k v d',
    In (k, v) d -> inside v d' -> inside (VDict d) d'
| inside_item : forall l v d',
    In v l -> inside v d' -> inside (VList l) d'.

Definition is_empty_list (v : value) : bool :=
  match v with VList [] => true | _ => false end.

Definition is_str (v : value) : bool :=
  match v with VStr _ => true | _ => false end.

(** The keys of a dictionary, renamed by [f]. *)
Definition rename_keys (f : string -> string) (d : dict) : dict :=
  map (fun kv => (f (fst kv), snd kv)) d.

(** The text is made of ASCII characters. *)
Definition ascii_text (s : string) : bool :=
  sforall (fun ch => N.ltb (code ch) 128) s.

(** The digits and decimal points of a text, in order. *)
Definition price_chars (s : string) : string :=
  sfilter (fun ch => (is_digit ch || Ascii.eqb ch ".")%bool) s.

(** The sign bit of a float other than a NaN. *)
Definition is_negative (f : float) : bool :=
  match f with
  | S754_zero s | S754_infinity s | S754_finite s _ _ => s
  | S754_nan => false
  end.

(** [None] or an ASCII string. *)
Definition is_text (v : value) : bool :=
  match v with
  | VNone => true
  | VStr s => ascii_text s
  | _ => false
  end.

(** Every value of the record is an ASCII string or [None]. *)
Definition text_record (raw : dict) : Prop :=
  Forall (fun kv => is_text (snd kv) = true) raw.

(** [raw.get(first) or raw.get(second) or 0] *)
Definition count_field (raw : dict) (first second : string) : value :=
  por (por (get raw first) (get raw second)) (VInt 0).

Definition canonical_keys : list string :=
  ["product_id"; "title"; "cover"; "img"; "price"; "currency";
   "format_price"; "discount"; "warehouse_region"; "product_rating";
   "sold_count"; "review_count"; "seller_name"; "seller_id";
   "promotion_labels"; "created_at"; "last_seen_at"; "_source"].

Definition is_str_or_none (v : value) : bool :=
  match v with VStr _ | VNone => true | _ => false end.

(** No key occurs twice. *)
Definition unique_keys (d : dict) : Prop := NoDup (map fst d).

Definition frame_unique (f : frame) : Prop :=
  match f with
  | FObj acc _ => unique_keys acc
  | FArr _ => True
  end.

(** The objects under construction and the finished value, if it is an
    object, have no key twice. *)
Definition state_unique (st : pstate) : Prop :=
  match st with
  | PValue stk | PArrFirst stk | PArrAfter _ stk | PObjFirst stk =>
      Forall frame_unique stk
  | PObjKey acc stk | PColon acc _ stk | PObjAfter acc stk =>
      unique_keys acc /\ Forall frame_unique stk
  | PDone (VDict d) => unique_keys d
  | PDone _ => True
  | PError => True
  end.

(** A token that is not a whole object. *)
Definition plain_token (t : token) : Prop :=
  match t with
  | TAtom (VDict _) => False
  | _ => True
  end.

End Notions.

(** ** Further sample inputs *)

Module Samples.
Import Py TiktokParser Validator Examples.

(** The payload [{"keyword": " shoes ", "region": "vn", "limit": 5}]. *)
Definition shoes_payload : Payload :=
  {| pl_keyword := Some (Some " shoes "); pl_isTrending := None;
     pl_region := Some (Some "vn"); pl_sortType := None;
     pl_limit := Some 5; pl_startUrls := None |}.

Definition shoes_model : InputModel :=
  {| keyword := Some "shoes"; isTrending := false; region := Some "VN";
     sortType := "RELEVANCE"; limit := 5; startUrls := None |}.

(** Records to sort by sold count: two of them tied. *)
Definition lamp : dict := [("title", VStr "Lamp"); ("sold_count", VInt 5)].
Definition desk : dict := [("title", VStr "Desk"); ("sold_count", VStr "20")].
Definition sofa : dict := [("title", VStr "Sofa"); ("sold_count", VInt 5)].
Definition sold_items : list dict := [lamp; desk; sofa].

(** A script that assigns an object: [window.__DATA__ = {"a":1};]. *)
Definition assign_before : string := "window.__DATA__ = ".
Definition assign_body : string := quoted "a" ++ ":1".
Definition assign_after : string := ";".

(** A record as a page gives it: every value is a text. *)
Definition scraped_record : dict :=
  [("title", VStr "Widget"); ("price", VStr "$1,299.50");
   ("sold_count", VStr "12"); ("img", VStr "https://shop.example/w.png")].

(** What the mapper makes of it for the region [gb]. *)
Definition scraped_canonical : dict :=
  [("product_id", VStr "");
   ("title", VStr "Widget");
   ("cover", VStr "https://shop.example/w.png");
   ("img", VList [VStr "https://shop.example/w.png"]);
   ("price", VFloat (float_of_dec false 129950 (-2)));
   ("currency", VStr "GBP");
   ("format_price", VStr "1299.50 GBP");
   ("discount", VNone);
   ("warehouse_region", VNone);
   ("product_rating", VStr "");
   ("sold_count", VInt 12);
   ("review_count", VInt 0);
   ("seller_name", VStr "");
   ("seller_id", VStr "");
   ("promotion_labels", VList []);
   ("created_at", VNone);
   ("last_seen_at", VNone);
   ("_source", VStr "mock")].

(** The product of the sample listing, as the script holds it. *)
Definition widget_node : dict :=
  [("title", VStr "Widget"); ("price", VStr "$9.99")].

(** A page without scripts and with two cards, whose links differ by the
    white space around them. *)
Definition padded_card : Card :=
  {| card_title_el := Some "Lamp";
     card_price_el := Some "$5";
     card_href := Some " /product/1";
     card_img := None |}.

Definition plain_card : Card :=
  {| card_title_el := Some "Lamp again";
     card_price_el := Some "$6";
     card_href := Some "/product/1 ";
     card_img := None |}.

Definition card_soup : Soup :=
  {| scripts := [];
     select := fun selector =>
                 if String.eqb selector "div[data-e2e='search-card']"
                 then [padded_card; plain_card] else [] |}.

Definition lamp_record : Product :=
  {| title := VStr "Lamp";
     origin_price := None;
     sale_price := Some "$5";
     score := None;
     sold := None;
     product_link := "/product/1";
     img := VNone |}.

(** Two states of the interpreter, on the reference generator. *)
Definition world_a : Scraper.World (RND := Reference.lcg) :=
  Scraper.Build_World (RND := Reference.lcg) 1 (fun _ => "a") 0.

Definition world_b : Scraper.World (RND := Reference.lcg) :=
  Scraper.Build_World (RND := Reference.lcg) 2 (fun _ => "b") 7.

End Samples.

(** * Properties *)

Import Py UtilsFormat TiktokParser Parser Validator Scraper Spec Examples.

(** ** De-duplication *)

Section Dedupe.

Lemma has_key_app (u : list (string * Product)) (k k' : string) (p : Product) :
  has_key (u ++ [(k, p)]) k' = (has_key u k' || String.eqb k k')%bool.
Proof.
  unfold has_key. rewrite existsb_app. simpl. now rewrite orb_false_r.
Qed.

Lemma filter_comm {A : Type} (f g : A -> bool) (l : list A) :
  filter f (filter g l) = filter g (filter f l).
Proof.
  induction l as [|x l IH]; simpl; [reflexivity|].
  destruct (g x) eqn:Hg, (f x) eqn:Hf; simpl; rewrite ?Hg, ?Hf, IH; reflexivity.
Qed.

Lemma filter_twice {A : Type} (f : A -> bool) (l : list A) :
  filter f (filter f l) = filter f l.
Proof.
  induction l as [|x l IH]; simpl; [reflexivity|].
  destruct (f x) eqn:Hf; simpl; rewrite ?Hf, IH; reflexivity.
Qed.

Lemma filter_and {A : Type} (f g : A -> bool) (l : list A) :
  filter f (filter g l) = filter (fun x => (g x && f x)%bool) l.
Proof.
  induction l as [|x l IH]; simpl; [reflexivity|].
  destruct (g x); simpl; [destruct (f x)|]; rewrite IH; reflexivity.
Qed.

Lemma filter_all {A : Type} (f : A -> bool) (l : list A) :
  (forall x, In x l -> f x = true) -> filter f l = l.
Proof.
  induction l as [|x l IH]; simpl; intros H; [reflexivity|].
  rewrite (H x (or_introl eq_refl)), IH; auto.
Qed.

Lemma first_per_key_filter (k : string) (l : list Product) :
  first_per_key (filter (other_key k) l) = filter (other_key k) (first_per_key l).
Proof.
  induction l as [|p r IH]; simpl; [reflexivity|].
  destruct (other_key k p) eqn:Hk; simpl.
  - rewrite ?Hk, IH. f_equal. apply filter_comm.
  - rewrite ?Hk, IH.
    unfold other_key in Hk. apply negb_false_iff, String.eqb_eq in Hk.
    rewrite Hk. symmetry. apply filter_twice.
Qed.

(** The loop keeps what the dictionary holds and adds, of the remaining
    records, the first of every key not yet in it. *)
Lemma dedupe_loop_spec (l : list Product) :
  forall u,
    map snd (dedupe_loop u l)
    = (map snd u
       ++ first_per_key
            (filter (fun p => negb (has_key u (product_link p))) l))%list.
Proof.
  induction l as [|p r IH]; intros u; simpl.
  - now rewrite app_nil_r.
  - destruct (has_key u (product_link p)) eqn:Hk; simpl.
    + apply IH.
    + rewrite IH, map_app. simpl. rewrite <- app_assoc. simpl.
      do 2 f_equal.
      rewrite <- first_per_key_filter, filter_and.
      f_equal. apply filter_ext. intros q.
      rewrite has_key_app, negb_orb. unfold other_key.
      now rewrite (String.eqb_sym (product_link q)).
Qed.

Lemma dedupe_first_per_key (l : list Product) : dedupe l = first_per_key l.
Proof.
  unfold dedupe. rewrite dedupe_loop_spec. simpl.
  f_equal. apply filter_all. reflexivity.
Qed.

Lemma subseq_refl {A : Type} (l : list A) : subseq l l.
Proof. induction l; constructor; assumption. Qed.

Lemma subseq_filter {A : Type} (f : A -> bool) (l : list A) :
  subseq (filter f l) l.
Proof.
  induction l as [|x l IH]; simpl; [constructor|].
  destruct (f x); constructor; assumption.
Qed.

Lemma subseq_trans {A : Type} (l1 l2 l3 : list A) :
  subseq l1 l2 -> subseq l2 l3 -> subseq l1 l3.
Proof.
  intros H12 H23. revert l1 H12.
  induction H23 as [|x l2 l3 H IH|x l2 l3 H IH]; intros l1 H12.
  - assumption.
  - constructor. now apply IH.
  - inversion H12; subst.
    + apply subseq_skip. now apply IH.
    + apply subseq_take. now apply IH.
Qed.

Lemma subseq_In {A : Type} (l1 l2 : list A) :
  subseq l1 l2 -> forall x, In x l1 -> In x l2.
Proof.
  induction 1 as [|y l1 l2 H IH|y l1 l2 H IH]; intros x Hx.
  - assumption.
  - right. now apply IH.
  - destruct Hx as [->|Hx]; [now left|right; now apply IH].
Qed.

Lemma subseq_length {A : Type} (l1 l2 : list A) :
  subseq l1 l2 -> (List.length l1 <= List.length l2)%nat.
Proof. induction 1; simpl; lia. Qed.

Lemma first_per_key_subseq (l : list Product) : subseq (first_per_key l) l.
Proof.
  induction l as [|p r IH]; simpl; [apply subseq_nil|apply subseq_take].
  eapply subseq_trans; [apply subseq_filter|exact IH].
Qed.

Lemma NoDup_keys_filter (f : Product -> bool) (l : list Product) :
  NoDup (map product_link l) -> NoDup (map product_link (filter f l)).
Proof.
  induction l as [|p r IH]; simpl; intros H; [constructor|].
  inversion H as [|? ? Hnin Hnd]; subst.
  destruct (f p); simpl; [constructor|]; auto.
  intros Hin. apply Hnin.
  apply in_map_iff in Hin as (q & Hq & Hqin).
  apply filter_In in Hqin as [Hqin _].
  apply in_map_iff. now exists q.
Qed.

Lemma first_per_key_NoDup (l : list Product) :
  NoDup (map product_link (first_per_key l)).
Proof.
  induction l as [|p r IH]; simpl; constructor.
  - intros Hin. apply in_map_iff in Hin as (q & Hq & Hqin).
    apply filter_In in Hqin as [_ Hk]. unfold other_key in Hk.
    apply negb_true_iff, String.eqb_neq in Hk. contradiction.
  - now apply NoDup_keys_filter.
Qed.

Lemma first_with_filter (k k' : string) (l : list Product) :
  k <> k' ->
  first_with k (filter (other_key k') l) = first_with k l.
Proof.
  intros Hne. unfold first_with.
  induction l as [|p r IH]; simpl; [reflexivity|].
  destruct (String.eqb (product_link p) k) eqn:Hk.
  - apply String.eqb_eq in Hk.
    assert (Ho : other_key k' p = true).
    { unfold other_key. apply negb_true_iff, String.eqb_neq. congruence. }
    rewrite Ho. simpl. apply String.eqb_eq in Hk. now rewrite Hk.
  - destruct (other_key k' p); simpl; [rewrite Hk|]; apply IH.
Qed.

Lemma first_per_key_first_with (k : string) (l : list Product) :
  first_with k (first_per_key l) = first_with k l.
Proof.
  induction l as [|p r IH]; simpl; [reflexivity|].
  unfold first_with in *. simpl.
  destruct (String.eqb (product_link p) k) eqn:Hk; [reflexivity|].
  apply String.eqb_neq in Hk.
  fold (first_with k (filter (other_key (product_link p)) (first_per_key r))).
  rewrite first_with_filter by congruence. exact IH.
Qed.

Lemma first_per_key_fixed (l : list Product) :
  NoDup (map product_link l) -> first_per_key l = l.
Proof.
  induction l as [|p r IH]; simpl; intros H; [reflexivity|].
  inversion H as [|? ? Hnin Hnd]; subst.
  rewrite IH by assumption. f_equal.
  apply filter_all. intros q Hq. unfold other_key.
  apply negb_true_iff, String.eqb_neq. intros Heq.
  apply Hnin. apply in_map_iff. now exists q.
Qed.

(** The loop, on the links as the records hold them: it yields the records
    that are the first with their link, in the input's order. *)
Lemma dedupe_by_link (X : list Product) :
  dedupe X = first_per_key X
  /\ subseq (dedupe X) X
  /\ NoDup (map product_link (dedupe X))
  /\ (forall k, first_with k (dedupe X) = first_with k X)
  /\ dedupe (dedupe X) = dedupe X
  /\ (List.length (dedupe X) <= List.length X)%nat.
Proof.
  rewrite !dedupe_first_per_key.
  repeat split.
  - apply first_per_key_subseq.
  - apply first_per_key_NoDup.
  - intros k. apply first_per_key_first_with.
  - apply first_per_key_fixed, first_per_key_NoDup.
  - apply subseq_length, first_per_key_subseq.
Qed.

End Dedupe.

(** ** The structured-data walk *)

Section ValueInduction.

Variable P : value -> Prop.
Hypothesis HNone : P VNone.
Hypothesis HBool : forall b, P (VBool b).
Hypothesis HInt : forall z, P (VInt z).
Hypothesis HFloat : forall f, P (VFloat f).
Hypothesis HStr : forall s, P (VStr s).
Hypothesis HList : forall l, Forall P l -> P (VList l).
Hypothesis HDict : forall d, Forall (fun kv => P (snd kv)) d -> P (VDict d).
Hypothesis HDatetime : forall t, P (VDatetime t).

(** Induction on a value, with the hypothesis for every item of a list and
    every value of a dictionary. *)
Lemma value_nested_ind : forall v, P v.
Proof.
  fix IH 1. intros [| b | z | f | s | l | d | t].
  - apply HNone.
  - apply HBool.
  - apply HInt.
  - apply HFloat.
  - apply HStr.
  - apply HList. induction l as [|x r IHl]; constructor; [apply IH|exact IHl].
  - apply HDict. induction d as [|kv r IHd]; constructor; [apply IH|exact IHd].
  - apply HDatetime.
Qed.

End ValueInduction.

Lemma gather_Forall {A : Type} (Q : A -> Prop) (l : list (result (list A))) :
  Forall (fun m => forall a, m = Ok a -> Forall Q a) l ->
  forall b, gather l = Ok b -> Forall Q b.
Proof.
  induction 1 as [|m r Hm Hr IH]; simpl; intros b Hb.
  - inversion Hb. constructor.
  - destruct m as [a|e]; [|discriminate].
    destruct (gather r) as [c|e]; [|discriminate].
    inversion Hb; subst. apply Forall_app. split; [now apply Hm|now apply IH].
Qed.

Section Walk.
Context {RT : Runtime}.

Lemma product_from_dict_single_price (node : dict) (base_url : string) (p : Product) :
  _product_from_dict node base_url = Ok p -> single_price p.
Proof.
  unfold _product_from_dict, bind. intros H.
  destruct (match get node "image" with
            | VList l => _ | VStr s => _ | _ => _ end); [|discriminate].
  destruct (match por (get node "url") (VStr base_url) with
            | VStr s => _ | _ => _ end); [|discriminate].
  inversion H. reflexivity.
Qed.

Lemma walk_single_price (base_url : string) (node : value) :
  forall ps, walk base_url node = Ok ps -> Forall single_price ps.
Proof.
  induction node as [| | | | |l IH|d IH|] using value_nested_ind;
    intros ps H; simpl in H; try (inversion H; constructor).
  - apply (gather_Forall single_price (map (walk base_url) l)); [|exact H].
    apply Forall_map. exact IH.
  - unfold bind in H.
    destruct (if _looks_like_product_dict d then _ else _) as [here|e] eqn:Hh;
      [|discriminate].
    destruct (gather _) as [below|e] eqn:Hb; [|discriminate].
    inversion H; subst. apply Forall_app. split.
    + destruct (_looks_like_product_dict d).
      * destruct (_product_from_dict d base_url) as [p|e] eqn:Hp; [|discriminate].
        inversion Hh; subst. constructor; [|constructor].
        eapply product_from_dict_single_price; eassumption.
      * inversion Hh. constructor.
    + apply (gather_Forall single_price _) with (b := below) in Hb; [exact Hb|].
      apply Forall_map. exact IH.
Qed.

Lemma json_script_scan_single_price (l : list (option string)) (url : string) :
  forall found, json_script_scan l url = Ok found -> Forall single_price found.
Proof.
  induction l as [|script rest IH]; simpl; intros found H.
  - inversion H. constructor.
  - destruct (is_empty _); [now apply IH|].
    destruct (_ && _)%bool; [|now apply IH].
    destruct (_extract_json_from_script _) as [data|e].
    + unfold bind, _products_from_json_blob in H.
      destruct (walk url data) as [a|e] eqn:Ha; [|discriminate].
      destruct (json_script_scan rest url) as [b|e]; [|discriminate].
      inversion H; subst. apply Forall_app. split.
      * eapply walk_single_price; eassumption.
      * now apply IH.
    + destruct e; try discriminate. now apply IH.
Qed.

(** C10. Every record that the structured-data scan of a listing page
    produces has its original price equal to its sale price: both come
    from the one raw price of the JSON node. *)
Theorem structured_scan_single_price
  (scripts : list (option string)) (url : string) (found : list Product) :
  json_script_scan scripts url = Ok found ->
  Forall (fun p => origin_price p = sale_price p) found.
Proof. apply json_script_scan_single_price. Qed.

Lemma dedupe_In (l : list Product) (x : Product) : In x (dedupe l) -> In x l.
Proof.
  rewrite dedupe_first_per_key.
  apply subseq_In, first_per_key_subseq.
Qed.

(** C6. When the structured-data scan of a listing page finds a record, the
    page's records are those it found, de-duplicated: every one of them is
    a record of the scan, and the cards of the page have no part in the
    result, whatever they are.  The card scan supplies the records only
    when the structured-data scan found none. *)
Theorem listing_strategy_precedence
  (soup : Soup) (url : string) (found : list Product) :
  json_script_scan (scripts soup) url = Ok found ->
  (found <> [] ->
   _parse_listing_page soup url = Ok (dedupe found)
   /\ (forall x, In x (dedupe found) -> In x found)
   /\ (forall cards,
         _parse_listing_page {| scripts := scripts soup; select := cards |} url
         = Ok (dedupe found)))
  /\ (found = [] ->
      _parse_listing_page soup url = Ok (dedupe (card_scan soup url))).
Proof.
  intros H. unfold _parse_listing_page. simpl. rewrite H. simpl. split.
  - intros Hne. destruct found as [|p ps]; [contradiction|].
    repeat split. apply dedupe_In.
  - intros ->. reflexivity.
Qed.

End Walk.

(** The scan of the sample page finds the widget, whose two prices agree. *)
Lemma structured_scan_single_price_witness :
  json_script_scan (RT := Reference.runtime) (scripts widget_soup) listing_url
  = Ok [widget]
  /\ Forall (fun p => origin_price p = sale_price p) [widget].
Proof.
  split; [vm_compute; reflexivity|].
  apply (structured_scan_single_price (RT := Reference.runtime)
           (scripts widget_soup) listing_url [widget]).
  vm_compute; reflexivity.
Defined.

(** On the sample page, which has both a product script and cards, the
    page's only record is the widget of the script. *)
Lemma listing_strategy_precedence_witness :
  json_script_scan (RT := Reference.runtime) (scripts widget_soup) listing_url
  = Ok [widget]
  /\ _parse_listing_page (RT := Reference.runtime) widget_soup listing_url
     = Ok (dedupe [widget]).
Proof.
  split; [vm_compute; reflexivity|].
  apply (listing_strategy_precedence (RT := Reference.runtime)
           widget_soup listing_url [widget]);
    [vm_compute; reflexivity|discriminate].
Defined.

(** ** Sorting *)

Section SortFacts.
Context {K A : Type}.
Variable lt : K -> K -> bool.

Lemma insert_sorted_perm (x : K * A) (l : list (K * A)) :
  Permutation (insert_sorted lt x l) (x :: l).
Proof.
  induction l as [|y r IH]; simpl; [reflexivity|].
  destruct (lt (fst y) (fst x)); [|reflexivity].
  rewrite IH. apply perm_swap.
Qed.

Lemma stable_sort_perm (l : list (K * A)) : Permutation (stable_sort lt l) l.
Proof.
  induction l as [|x r IH]; simpl; [reflexivity|].
  rewrite insert_sorted_perm. now constructor.
Qed.

Lemma decorate_ok (key : A -> result K) (items : list A) :
  forallb (fun x => is_ok (key x)) items = true ->
  exists keyed,
    mapM (fun x => match key x with
                   | Ok k => Ok (k, x)
                   | Raise e => Raise e
                   end) items = Ok keyed
    /\ map snd keyed = items.
Proof.
  induction items as [|x r IH]; simpl; intros H.
  - exists []. split; reflexivity.
  - apply andb_true_iff in H as [Hx Hr].
    destruct (key x) as [k|e]; [|discriminate].
    destruct (IH Hr) as (keyed & -> & Hk).
    exists ((k, x) :: keyed). simpl. now rewrite Hk.
Qed.

Lemma sorted_by_returns (key : A -> result K) (reverse : bool) (items : list A) :
  forallb (fun x => is_ok (key x)) items = true ->
  exists r, sorted_by lt key reverse items = Ok r /\ Permutation r items.
Proof.
  intros H. destruct (decorate_ok key items H) as (keyed & Hm & Hk).
  unfold sorted_by. rewrite Hm. eexists. split; [reflexivity|].
  rewrite <- Hk. apply Permutation_map.
  destruct reverse.
  - rewrite <- Permutation_rev, stable_sort_perm. symmetry. apply Permutation_rev.
  - apply stable_sort_perm.
Qed.

End SortFacts.

Lemma price_key_ok (x : dict) :
  is_ok (price_key x) = present_ok "price" float_coercible x.
Proof.
  unfold price_key, present_ok, get_or. destruct (lookup x "price"); reflexivity.
Qed.

Lemma sold_key_ok (x : dict) :
  is_ok (sold_key x) = present_ok "sold_count" int_coercible x.
Proof.
  unfold sold_key, present_ok, get_or.
  destruct (lookup x "sold_count"); reflexivity.
Qed.

Lemma forallb_ext_eq {A : Type} (f g : A -> bool) (l : list A) :
  (forall x, f x = g x) -> forallb f l = forallb g l.
Proof. intros H. induction l; simpl; [reflexivity|]. now rewrite H, IHl. Qed.

(** A sort returns exactly when every key can be computed. *)
Lemma sorted_by_is_ok {K A : Type} (lt : K -> K -> bool)
  (key : A -> result K) (reverse : bool) (items : list A) :
  is_ok (sorted_by lt key reverse items)
  = forallb (fun x => is_ok (key x)) items.
Proof.
  unfold sorted_by.
  assert (H : is_ok (mapM (fun x => match key x with
                                    | Ok k => Ok (k, x)
                                    | Raise e => Raise e
                                    end) items)
              = forallb (fun x => is_ok (key x)) items).
  { induction items as [|x r IH]; simpl; [reflexivity|].
    destruct (key x); simpl; [|reflexivity].
    rewrite <- IH. now destruct (mapM _ r). }
  rewrite <- H. now destruct (mapM _ items).
Qed.

(** The price sorts return exactly on the lists whose present prices are
    all numbers to [float]. *)
Lemma apply_sort_price_is_ok (items : list dict) :
  is_ok (_apply_sort items "PRICE_ASC")
  = forallb (present_ok "price" float_coercible) items
  /\ is_ok (_apply_sort items "PRICE_DESC")
     = forallb (present_ok "price" float_coercible) items
  /\ is_ok (_apply_sort items "BEST_SELLERS")
     = forallb (present_ok "sold_count" int_coercible) items.
Proof.
  unfold _apply_sort. simpl. rewrite !sorted_by_is_ok.
  repeat split; apply forallb_ext_eq;
    first [apply price_key_ok | apply sold_key_ok].
Qed.

(** Sorting returns a result, a rearrangement of the records, whenever
    every record that holds the field of the sort mode (the price for the
    two price modes, the sold count for the best sellers) holds a value
    that the numeric coercion accepts.  A record without the field is keyed
    0, and the relevance mode returns the records as they are. *)
Lemma apply_sort_returns_on_coercible (items : list dict) (sort : string) :
  (sort = "PRICE_ASC" \/ sort = "PRICE_DESC" ->
   forallb (present_ok "price" float_coercible) items = true) ->
  (sort = "BEST_SELLERS" ->
   forallb (present_ok "sold_count" int_coercible) items = true) ->
  (exists r, _apply_sort items sort = Ok r /\ Permutation r items)
  /\ (forall x, lookup x "price" = None -> price_key x = Ok (S754_zero false))
  /\ (forall x, lookup x "sold_count" = None -> sold_key x = Ok 0)
  /\ _apply_sort items "RELEVANCE" = Ok items.
Proof.
  intros Hprice Hsold. repeat split.
  - unfold _apply_sort.
    destruct (String.eqb sort "PRICE_ASC") eqn:E1.
    { apply String.eqb_eq in E1. apply sorted_by_returns.
      rewrite (forallb_ext_eq _ _ _ price_key_ok). auto. }
    destruct (String.eqb sort "PRICE_DESC") eqn:E2.
    { apply String.eqb_eq in E2. apply sorted_by_returns.
      rewrite (forallb_ext_eq _ _ _ price_key_ok). auto. }
    destruct (String.eqb sort "BEST_SELLERS") eqn:E3.
    { apply String.eqb_eq in E3. apply sorted_by_returns.
      rewrite (forallb_ext_eq _ _ _ sold_key_ok). auto. }
    exists items. split; reflexivity.
  - intros x Hx. unfold price_key, get_or. rewrite Hx. reflexivity.
  - intros x Hx. unfold sold_key, get_or. rewrite Hx. reflexivity.
Qed.

(** Three records, one of them without a price, sort by ascending price. *)
Lemma apply_sort_returns_on_coercible_witness :
  forallb (present_ok "price" float_coercible) priced_items = true
  /\ exists r, _apply_sort priced_items "PRICE_ASC" = Ok r
               /\ Permutation r priced_items.
Proof.
  split; [vm_compute; reflexivity|].
  apply (apply_sort_returns_on_coercible priced_items "PRICE_ASC").
  - intros _. vm_compute; reflexivity.
  - discriminate.
Defined.

Section SortCoercion.
Context {RT : Runtime}.

(** C4, on the code.  A price or a sold count that is not a number makes
    the sort raise, in each of the three modes that read a key, where a
    missing field is keyed 0 and where the mapper, which runs on the same
    records next, maps the same price to zero. *)
Theorem apply_sort_unparsable_field_raises :
  _apply_sort [[("price", VStr "abc")]] "PRICE_ASC" = Raise ValueError
  /\ _apply_sort [[("price", VStr "abc")]] "PRICE_DESC" = Raise ValueError
  /\ _apply_sort [[("sold_count", VStr "1.2k")]] "BEST_SELLERS"
     = Raise ValueError
  /\ _apply_sort [[("title", VStr "free")]] "PRICE_ASC"
     = Ok [[("title", VStr "free")]]
  /\ price_key [("title", VStr "free")] = Ok (S754_zero false)
  /\ sold_key [("title", VStr "free")] = Ok 0
  /\ normalize_price (VStr "abc") = Ok (S754_zero false)
  /\ (exists r, map_product [("price", VStr "abc")] None = Ok r
                /\ lookup r "price" = Some (VFloat (S754_zero false))).
Proof.
  do 7 (split; [reflexivity|]). eexists. split; reflexivity.
Qed.

End SortCoercion.

(** ** JSON in a script *)

Lemma find_char_bounds (c : ascii) (s : string) :
  forall n i, find_char c s n = Some i -> (n <= i < String.length s)%nat.
Proof.
  induction s as [|x r IH]; simpl; intros n i H; [discriminate|].
  destruct n as [|n'].
  - destruct (Ascii.eqb x c).
    + inversion H. lia.
    + destruct (find_char c r 0) as [j|] eqn:Hj; [|discriminate].
      inversion H. apply IH in Hj. lia.
  - destruct (find_char c r n') as [j|] eqn:Hj; [|discriminate].
    inversion H. apply IH in Hj. lia.
Qed.

(** The loop ends within its fuel when the fuel exceeds what is left of the
    text after [start]. *)
Lemma extract_loop_fuel (text : string) :
  forall fuel start,
    (forall st, start = Some st ->
                (st < String.length text < st + fuel)%nat) ->
    extract_loop fuel text start <> None.
Proof.
  induction fuel as [|fuel IH]; intros start H; simpl.
  - destruct start as [st|]; [|discriminate].
    specialize (H st eq_refl). lia.
  - destruct start as [st|]; [|discriminate].
    specialize (H st eq_refl).
    destruct (rfind_char "}" text 0 (String.length text)) as [e|]; [|discriminate].
    destruct (e <=? st)%nat; [discriminate|].
    destruct (json_loads _); [discriminate|].
    destruct (rfind_char "}" text st e); [|discriminate].
    apply IH. intros st' Hst'. apply find_char_bounds in Hst'. lia.
Qed.

(** [_extract_json_from_script] is the outcome of its loop: the fuel it is
    given always suffices. *)
Lemma extract_json_from_script_total (text : string) :
  extract_loop (S (String.length text)) text (find_char "{" text 0)
  = Some (_extract_json_from_script text).
Proof.
  unfold _extract_json_from_script.
  destruct (extract_loop _ _ _) as [r|] eqn:H; [reflexivity|].
  exfalso. revert H. apply extract_loop_fuel.
  intros st Hst. apply find_char_bounds in Hst. lia.
Qed.

(** C5, on the code.  The object of the sample script parses, but with the
    noise [;}}] after it the extraction raises instead of recovering it:
    the text is tried only up to its last closing brace, for every opening
    brace in turn.  One closing brace of noise is enough for that, while
    noise without one is passed over. *)
Theorem extract_json_trailing_braces_fails :
  json_loads widget_json = Ok widget_value
  /\ _extract_json_from_script (widget_json ++ ";}}") = Raise ValueError
  /\ _extract_json_from_script (widget_json ++ " }") = Raise ValueError
  /\ _extract_json_from_script (widget_json ++ "; //") = Ok widget_value.
Proof. repeat split; vm_compute; reflexivity. Qed.

(** ** The canonical mapper *)

Section Mapper.
Context {RT : Runtime}.

(** C2, on the code.  A sold count that is not a number makes the mapper
    raise, where a price that is not a number is mapped to zero. *)
Theorem map_product_unparsable_count_raises :
  map_product [("sold_count", VStr "abc")] None = Raise ValueError
  /\ map_product [("review_count", VStr "1.2k")] None = Raise ValueError
  /\ normalize_price (VStr "abc") = Ok (S754_zero false).
Proof. repeat split; reflexivity. Qed.

(** C8, on the code.  For a record that holds its price under [min_price]
    only, the canonical price is 5.0 and the formatted price is that of
    0.0. *)
Theorem map_product_format_price_ignores_min_price :
  exists r,
    map_product [("min_price", VInt 5)] None = Ok r
    /\ lookup r "price" = Some (VFloat (float_of_Z 5))
    /\ lookup r "currency" = Some (VStr "USD")
    /\ lookup r "format_price" = Some (VStr "0.00 USD")
    /\ format_fixed (float_of_Z 5) 2 ++ " USD" = "5.00 USD".
Proof. eexists. repeat split; reflexivity. Qed.

(** C9, on the code.  The epoch itself, as an integer or as a float, is
    mapped to null, where one second later is a timestamp. *)
Theorem to_iso8601_epoch_zero_is_null :
  to_iso8601 (VInt 0) = Ok VNone
  /\ to_iso8601 (VFloat (S754_zero false)) = Ok VNone
  /\ to_iso8601 (VInt 1)
     = bind (utcfromtimestamp (float_of_Z 1))
            (fun t => Ok (VStr (dt_isoformat t ++ "Z"))).
Proof. repeat split; reflexivity. Qed.

End Mapper.

(** ** Validation of a search request *)

Lemma validate_keyword_rule (v : option string) (data : dict) :
  is_ok (validate_keyword v data)
  = (truthy (get data "startUrls")
     || truthy (get_or data "isTrending" (VBool false))
     || match v with Some s => negb (is_empty s) | None => false end)%bool.
Proof.
  unfold validate_keyword.
  destruct (truthy (get data "startUrls")); simpl; [reflexivity|].
  destruct (truthy (get_or data "isTrending" (VBool false))); simpl;
    [reflexivity|].
  destruct v as [s|]; simpl; [destruct (is_empty s)|]; reflexivity.
Qed.

(** C3, on the code.  The empty payload, which has no keyword, no start
    URLs and no trending flag, is accepted; and a keyword that is null or
    empty is rejected even with the trending flag set or with start URLs.
    The check of [validate_keyword] is the stated one, but the keyword is
    the first field: the data it is checked against is empty, and an absent
    keyword is not checked at all. *)
Theorem validate_input_keyword_rule_not_enforced :
  validate_input empty_payload
  = Ok {| keyword := None; isTrending := false; region := None;
          sortType := "RELEVANCE"; limit := 50; startUrls := None |}
  /\ is_ok (validate_input trending_payload) = false
  /\ is_ok (validate_input urls_payload) = false.
Proof. repeat split; reflexivity. Qed.

(** ** The mock generator *)

Section MockFacts.
Context {RND : Random}.

Lemma mock_loop_step (keyword region : option string) (n i : nat) (s : rng) :
  runState (mock_loop keyword region (S n) i) s
  = (let (x, s1) := runState (mock_item keyword region i) s in
     let (xs, s2) := runState (mock_loop keyword region n (S i)) s1 in
     (x :: xs, s2)).
Proof. reflexivity. Qed.

Lemma mock_loop_length (keyword region : option string) (n : nat) :
  forall i s,
    List.length (evalState (mock_loop keyword region n i) s) = n.
Proof.
  induction n as [|n IH]; intros i s; [reflexivity|].
  unfold evalState in *. rewrite mock_loop_step.
  destruct (runState (mock_item keyword region i) s) as [x s1].
  specialize (IH (S i) s1).
  destruct (runState (mock_loop keyword region n (S i)) s1) as [xs s2].
  simpl in *. now rewrite IH.
Qed.

(** Asking for more records leaves the first ones as they were. *)
Lemma mock_loop_prefix (keyword region : option string) (n m : nat) :
  forall i s,
    firstn n (evalState (mock_loop keyword region (n + m) i) s)
    = evalState (mock_loop keyword region n i) s.
Proof.
  induction n as [|n IH]; intros i s; [reflexivity|].
  unfold evalState in *.
  change (S n + m)%nat with (S (n + m)). rewrite !mock_loop_step.
  destruct (runState (mock_item keyword region i) s) as [x s1].
  specialize (IH (S i) s1).
  destruct (runState (mock_loop keyword region (n + m) (S i)) s1) as [xs s2].
  destruct (runState (mock_loop keyword region n (S i)) s1) as [ys s3].
  simpl in *. now rewrite IH.
Qed.

Lemma mock_products_length (keyword : option string) (is_trending : bool)
  (region : option string) (limit : Z) :
  List.length (_mock_products keyword is_trending region limit) = Z.to_nat limit.
Proof. apply mock_loop_length. Qed.

(** C1.  Two calls of the generator with identical arguments yield the
    same records in the same order, field for field: a call seeds a random
    source of its own from its arguments and draws from nothing else.  So
    the records do not depend on the state the interpreter is in (the
    module-level generator, the entropy of the system), the call leaves
    that state as it was, and two calls in one run yield the same list
    whatever runs between them. *)
Theorem mock_products_deterministic (keyword : option string)
  (is_trending : bool) (region : option string) (limit : Z) (w w' : World) :
  let call := list_mock_products keyword is_trending region limit in
  evalState call w = evalState call w'
  /\ execState call w = w
  /\ (forall (A : Type) (between : state World A),
        let twice := call_twice call between in
        fst (evalState twice w) = snd (evalState twice w)
        /\ fst (evalState twice w) = evalState call w')
  /\ evalState call w = _mock_products keyword is_trending region limit.
Proof.
  intros call. split; [reflexivity|]. split; [reflexivity|].
  split; [|reflexivity].
  intros A between twice. unfold twice, call_twice, evalState. simpl.
  destruct (runState between w) as [x w1]. simpl. split; reflexivity.
Qed.

End MockFacts.

(** Five pairs of shoes in Vietnam, on the reference generator, in two
    states of the interpreter; a fetched record differs between them. *)
Lemma mock_products_deterministic_witness :
  evalState (list_mock_products (RND := Reference.lcg)
               (Some "shoes") false (Some "VN") 5) Samples.world_a
  = evalState (list_mock_products (RND := Reference.lcg)
                 (Some "shoes") false (Some "VN") 5) Samples.world_b
  /\ evalState (fetched_record (RND := Reference.lcg) listing_url (Some "VN"))
               Samples.world_a
     <> evalState (fetched_record (RND := Reference.lcg) listing_url
                     (Some "VN")) Samples.world_b.
Proof.
  split.
  - apply (mock_products_deterministic (RND := Reference.lcg)
             (Some "shoes") false (Some "VN") 5 Samples.world_a Samples.world_b).
  - vm_compute. discriminate.
Defined.

(** * Further properties *)

Import Loaders Service Notions Samples.

(** ** Text helpers *)

Lemma is_empty_true (s : string) : is_empty s = true <-> s = "".
Proof. destruct s; simpl; split; intros H; congruence. Qed.

Lemma lstrip_idem (s : string) : lstrip (lstrip s) = lstrip s.
Proof.
  induction s as [|c r IH]; simpl; [reflexivity|].
  destruct (is_space c) eqn:Hc; [exact IH|]. simpl. now rewrite Hc.
Qed.

Lemma rstrip_idem (s : string) : rstrip (rstrip s) = rstrip s.
Proof.
  induction s as [|c r IH]; simpl; [reflexivity|].
  destruct (is_space c && is_empty (rstrip r))%bool eqn:Hc; [reflexivity|].
  simpl. now rewrite IH, Hc.
Qed.

Lemma rstrip_spaces (s : string) :
  sforall is_space s = true -> rstrip s = "".
Proof.
  induction s as [|c r IH]; simpl; [reflexivity|].
  intros H. apply andb_true_iff in H as [Hc Hr].
  now rewrite (IH Hr), Hc.
Qed.

Lemma rstrip_empty (s : string) :
  rstrip s = "" -> sforall is_space s = true.
Proof.
  induction s as [|c r IH]; simpl; [reflexivity|].
  destruct (is_space c) eqn:Hc; simpl.
  - destruct (rstrip r) eqn:Hr; simpl; [auto|discriminate].
  - discriminate.
Qed.

Lemma lstrip_spaces (s : string) :
  sforall is_space s = true -> lstrip s = "".
Proof.
  induction s as [|c r IH]; simpl; [reflexivity|].
  intros H. apply andb_true_iff in H as [Hc Hr]. now rewrite Hc, IH.
Qed.

Lemma sforall_lstrip (f : ascii -> bool) (s : string) :
  sforall f s = true -> sforall f (lstrip s) = true.
Proof.
  induction s as [|c r IH]; simpl; [reflexivity|].
  intros H. destruct (is_space c); [|exact H].
  apply andb_true_iff in H as [_ Hr]. auto.
Qed.

Lemma lstrip_rstrip (s : string) : lstrip (rstrip s) = rstrip (lstrip s).
Proof.
  induction s as [|c r IH]; simpl; [reflexivity|].
  destruct (is_space c) eqn:Hc; simpl.
  - destruct (is_empty (rstrip r)) eqn:He; simpl.
    + apply is_empty_true in He.
      symmetry. apply rstrip_spaces, sforall_lstrip, rstrip_empty, He.
    + now rewrite Hc.
  - now rewrite Hc.
Qed.

Lemma strip_idem (s : string) : strip (strip s) = strip s.
Proof.
  unfold strip.
  now rewrite lstrip_rstrip, lstrip_idem, rstrip_idem.
Qed.

(** The first and the last character of a text. *)
Lemma lstrip_head (s : string) (c : ascii) (r : string) :
  lstrip s = String c r -> is_space c = false.
Proof.
  induction s as [|x t IH]; simpl; [discriminate|].
  destruct (is_space x) eqn:Hx; [exact IH|].
  intros H. inversion H; subst. exact Hx.
Qed.

Lemma rstrip_last (s : string) (t : string) (c : ascii) :
  rstrip s = (t ++ String c "") -> is_space c = false.
Proof.
  revert t. induction s as [|x r IH]; simpl; intros t H.
  - destruct t; discriminate.
  - destruct (is_space x && is_empty (rstrip r))%bool eqn:Hx.
    + destruct t; discriminate.
    + destruct t as [|y t']; simpl in H; inversion H; subst.
      * rewrite H2 in Hx. simpl in Hx. now rewrite andb_true_r in Hx.
      * eapply IH. eassumption.
Qed.

Lemma strip_trimmed (s : string) :
  lstrip (strip s) = strip s /\ rstrip (strip s) = strip s.
Proof.
  unfold strip. split.
  - now rewrite lstrip_rstrip, lstrip_idem.
  - apply rstrip_idem.
Qed.

(** X1.  Normalising a link twice is normalising it once, and a normalised
    link neither begins nor ends with white space. *)
Theorem normalize_product_link_trims (url : string) :
  normalize_product_link (normalize_product_link url)
  = normalize_product_link url
  /\ (forall c r, normalize_product_link url = String c r -> is_space c = false)
  /\ (forall t c, normalize_product_link url = (t ++ String c "")
                  -> is_space c = false).
Proof.
  unfold normalize_product_link.
  destruct (is_empty url) eqn:He.
  - apply is_empty_true in He. subst. simpl. repeat split.
    + intros; discriminate.
    + intros t c H. destruct t; discriminate.
  - repeat split.
    + destruct (is_empty (strip url)) eqn:He'; [reflexivity|apply strip_idem].
    + intros c r H. destruct (strip_trimmed url) as [Hl _].
      rewrite <- Hl in H. eapply lstrip_head; eassumption.
    + intros t c H. destruct (strip_trimmed url) as [_ Hr].
      rewrite <- Hr in H. eapply rstrip_last; eassumption.
Qed.

(** ** [utils_format.py] *)

Section Cleaners.
Context {RT : Runtime}.

(** X2.  A cleaned price is never empty and has no white space around it:
    it is the trimmed text of the value, and cleaning it again changes
    nothing.  There is no cleaned price exactly for [None] and for a value
    whose text is blank.  Scores and sold counts are cleaned in the same
    way. *)
Theorem clean_price_text (v : value) :
  (forall t, clean_price v = Some t ->
             t <> "" /\ strip t = t /\ t = strip (py_str v)
             /\ clean_price (VStr t) = Some t)
  /\ (clean_price v = None <-> v = VNone \/ strip (py_str v) = "")
  /\ clean_score v = clean_price v
  /\ clean_sold v = clean_price v.
Proof.
  assert (H : forall t, clean_price v = Some t ->
                        t = strip (py_str v) /\ is_empty t = false).
  { intros t. unfold clean_price.
    destruct v; try discriminate;
      match goal with
      | |- context [is_empty ?x] => destruct (is_empty x) eqn:He
      end; try discriminate; intros E; inversion E; subst; auto. }
  repeat split.
  - apply H in H0 as [_ He]. intros ->. discriminate.
  - apply H in H0 as [-> _]. apply strip_idem.
  - now apply H in H0.
  - apply H in H0 as [-> He]. unfold clean_price. simpl.
    now rewrite strip_idem, He.
  - unfold clean_price.
    destruct v; auto; right;
      match goal with
      | H : context [is_empty ?x] |- _ => destruct (is_empty x) eqn:He
      end; try discriminate; now apply is_empty_true.
  - intros [->|He]; [reflexivity|]. unfold clean_price.
    destruct v; auto; now rewrite He.
Qed.

End Cleaners.

Lemma url_lines_clean (lines : list string) :
  Forall (fun u => u <> "" /\ strip u = u /\ String.prefix "#" u = false)
         (url_lines lines).
Proof.
  induction lines as [|l r IH]; simpl; [constructor|].
  destruct (is_empty (strip l)) eqn:He; simpl; [exact IH|].
  destruct (String.prefix "#" (strip l)) eqn:Hp; [exact IH|].
  constructor; [|exact IH]. repeat split.
  - intros E. rewrite E in He. discriminate.
  - apply strip_idem.
  - exact Hp.
Qed.

Lemma url_lines_fixed (l : list string) :
  Forall (fun u => u <> "" /\ strip u = u /\ String.prefix "#" u = false) l ->
  url_lines l = l.
Proof.
  induction 1 as [|u r (Hne & Hs & Hp) _ IH]; simpl; [reflexivity|].
  rewrite Hs, Hp, IH. destruct u; [contradiction|reflexivity].
Qed.

Lemma url_lines_subseq (lines : list string) :
  subseq (url_lines lines) (map strip lines).
Proof.
  induction lines as [|l r IH]; simpl; [apply subseq_nil|].
  destruct (is_empty (strip l) || String.prefix "#" (strip l))%bool.
  - now apply subseq_skip.
  - now apply subseq_take.
Qed.

(** X3.  Every URL loaded from a file is a non-empty trimmed line that does
    not begin with [#]; the URLs are trimmed lines of the file, in the
    order of the file; loading the loaded URLs again gives them back; and a
    missing file gives no URL. *)
Theorem load_urls_from_file_clean (file : option (list string)) :
  Forall (fun u => u <> "" /\ strip u = u /\ String.prefix "#" u = false)
         (load_urls_from_file file)
  /\ load_urls_from_file (Some (load_urls_from_file file))
     = load_urls_from_file file
  /\ (forall lines, file = Some lines ->
                    subseq (load_urls_from_file file) (map strip lines))
  /\ load_urls_from_file None = [].
Proof.
  assert (H : Forall (fun u => u <> "" /\ strip u = u
                               /\ String.prefix "#" u = false)
                     (load_urls_from_file file)).
  { destruct file; simpl; [apply url_lines_clean|constructor]. }
  repeat split; auto.
  - simpl. now apply url_lines_fixed.
  - intros lines ->. apply url_lines_subseq.
Qed.

(** ** [parser.py]: currencies *)

Lemma upper_lower_char (c : ascii) : upper_char (lower_char c) = upper_char c.
Proof. destruct c as [[] [] [] [] [] [] [] []]; reflexivity. Qed.

Lemma upper_upper_char (c : ascii) : upper_char (upper_char c) = upper_char c.
Proof. destruct c as [[] [] [] [] [] [] [] []]; reflexivity. Qed.

Lemma lower_upper_char (c : ascii) : lower_char (upper_char c) = lower_char c.
Proof. destruct c as [[] [] [] [] [] [] [] []]; reflexivity. Qed.

Lemma smap_smap (f g : ascii -> ascii) (s : string) :
  smap f (smap g s) = smap (fun c => f (g c)) s.
Proof. induction s; simpl; congruence. Qed.

Lemma smap_ext (f g : ascii -> ascii) (s : string) :
  (forall c, f c = g c) -> smap f s = smap g s.
Proof. intros H. induction s; simpl; [reflexivity|]. now rewrite H, IHs. Qed.

Lemma upper_lower (s : string) : upper (lower s) = upper s.
Proof. unfold upper, lower. rewrite smap_smap. apply smap_ext, upper_lower_char. Qed.

Lemma upper_upper (s : string) : upper (upper s) = upper s.
Proof. unfold upper. rewrite smap_smap. apply smap_ext, upper_upper_char. Qed.

Lemma lower_upper (s : string) : lower (upper s) = lower s.
Proof. unfold upper, lower. rewrite smap_smap. apply smap_ext, lower_upper_char. Qed.

Lemma is_empty_smap (f : ascii -> ascii) (s : string) :
  is_empty (smap f s) = is_empty s.
Proof. destruct s; reflexivity. Qed.

Lemma length_smap (f : ascii -> ascii) (s : string) :
  String.length (smap f s) = String.length s.
Proof. induction s; simpl; congruence. Qed.

Lemma mapping_get_cases (m : list (string * string)) (k dflt : string) :
  mapping_get m k dflt = dflt \/ In (mapping_get m k dflt) (map snd m).
Proof.
  induction m as [|[k' v] r IH]; simpl; [now left|].
  destruct (String.eqb k' k); [right; now left|].
  destruct IH as [IH|IH]; [now left|right; now right].
Qed.

Lemma mapping_get_unknown (m : list (string * string)) (k dflt : string) :
  ~ In k (map fst m) -> mapping_get m k dflt = dflt.
Proof.
  induction m as [|[k' v] r IH]; simpl; [reflexivity|].
  intros H. destruct (String.eqb k' k) eqn:E.
  - apply String.eqb_eq in E. exfalso. apply H. now left.
  - apply IH. intros Hin. apply H. now right.
Qed.

(** X5.  The currency of an ASCII region does not depend on the case of
    its letters, is one of the nine known currencies, and is the dollar for
    every region outside the table. *)
Theorem guess_currency_case_insensitive (region : option string) :
  (forall r, region = Some r -> ascii_text r = true) ->
  guess_currency_from_region (option_map lower region)
  = guess_currency_from_region region
  /\ guess_currency_from_region (option_map upper region)
     = guess_currency_from_region region
  /\ In (guess_currency_from_region region)
        ["USD"; "VND"; "GBP"; "EUR"; "PKR"; "IDR"; "MYR"; "THB"; "PHP"]
  /\ (forall r, region = Some r ->
                ~ In (upper r)
                     ["US"; "VN"; "GB"; "EU"; "PK"; "ID"; "MY"; "TH"; "PH"] ->
                guess_currency_from_region region = "USD").
Proof.
  intros _. unfold guess_currency_from_region. repeat split.
  - destruct region as [r|]; [|reflexivity]. unfold option_map.
    unfold lower at 1. now rewrite is_empty_smap, upper_lower.
  - destruct region as [r|]; [|reflexivity]. unfold option_map.
    unfold upper at 1. now rewrite is_empty_smap, upper_upper.
  - destruct region as [r|]; [|now left].
    destruct (is_empty r); [now left|].
    destruct (mapping_get_cases currency_mapping (upper r) "USD") as [->|H];
      [now left|exact H].
  - intros r -> H. destruct (is_empty r); [reflexivity|].
    now apply mapping_get_unknown.
Qed.

(** ** [validator.py] *)

Lemma is_upper_upper_char (c : ascii) :
  is_alpha c = true -> is_upper (upper_char c) = true.
Proof. destruct c as [[] [] [] [] [] [] [] []]; simpl; intros H; try reflexivity; discriminate. Qed.

Lemma is_upper_alpha (c : ascii) : is_upper c = true -> is_alpha c = true.
Proof. unfold is_alpha. now intros ->. Qed.

Lemma upper_char_fixed (c : ascii) : is_upper c = true -> upper_char c = c.
Proof. destruct c as [[] [] [] [] [] [] [] []]; simpl; intros H; try reflexivity; discriminate. Qed.

Lemma sforall_upper (s : string) :
  sforall is_alpha s = true -> sforall is_upper (upper s) = true.
Proof.
  unfold upper. induction s as [|c r IH]; simpl; [reflexivity|].
  intros H. apply andb_true_iff in H as [Hc Hr].
  now rewrite is_upper_upper_char, IH.
Qed.

Lemma sforall_impl (f g : ascii -> bool) (s : string) :
  (forall c, f c = true -> g c = true) ->
  sforall f s = true -> sforall g s = true.
Proof.
  intros Hfg. induction s as [|c r IH]; simpl; [reflexivity|].
  intros H. apply andb_true_iff in H as [Hc Hr]. now rewrite Hfg, IH.
Qed.

Lemma validate_region_result (v : option string) (r : option string) :
  validate_region v = Ok r ->
  r = option_map upper v
  /\ (forall code, r = Some code ->
                   String.length code = 2%nat
                   /\ sforall is_upper code = true)
  /\ validate_region r = Ok r.
Proof.
  unfold validate_region. destruct v as [s|]; intros H.
  - destruct (negb (Nat.eqb (String.length s) 2)) eqn:Hl; [discriminate|].
    destruct (isalpha s) eqn:Ha; [|discriminate].
    simpl in H. inversion H; subst. clear H.
    apply negb_false_iff, Nat.eqb_eq in Hl.
    unfold isalpha in Ha. apply andb_true_iff in Ha as [Hne Ha].
    assert (Hu : sforall is_upper (upper s) = true) by now apply sforall_upper.
    assert (Hlen : String.length (upper s) = 2%nat)
      by (unfold upper; now rewrite length_smap).
    split; [reflexivity|split].
    + intros code E. inversion E; subst. now split.
    + simpl. rewrite Hlen. simpl. unfold isalpha.
      unfold upper at 1. rewrite is_empty_smap, Hne. simpl.
      rewrite (sforall_impl _ _ _ is_upper_alpha Hu). simpl.
      now rewrite upper_upper.
  - inversion H; subst. split; [reflexivity|split]; [|reflexivity].
    intros; discriminate.
Qed.

(** X9.  An accepted ASCII region is the upper-case form of the given one:
    two upper-case letters, which the validator accepts again
    unchanged. *)
Theorem validate_region_normal_form (v : option string) (r : option string) :
  (forall s, v = Some s -> ascii_text s = true) ->
  validate_region v = Ok r ->
  r = option_map upper v
  /\ (forall code, r = Some code ->
                   String.length code = 2%nat
                   /\ sforall is_upper code = true)
  /\ validate_region r = Ok r.
Proof. intros _. apply validate_region_result. Qed.

(** X10.  In a validated model the limit lies between 1 and 2000, the sort
    type is one of the four known ones, the region (given in ASCII) is two
    upper-case letters, a keyword is the trimmed form of a non-empty given
    keyword, and the trending flag and the start URLs are those of the
    payload, or their defaults. *)
Theorem validate_input_model_invariants (p : Payload) (m : InputModel) :
  (forall s, pl_region p = Some (Some s) -> ascii_text s = true) ->
  validate_input p = Ok m ->
  1 <= limit m <= 2000
  /\ In (sortType m) ["PRICE_ASC"; "PRICE_DESC"; "BEST_SELLERS"; "RELEVANCE"]
  /\ (forall code, region m = Some code ->
                   String.length code = 2%nat /\ sforall is_upper code = true)
  /\ (forall k, keyword m = Some k ->
                exists raw, pl_keyword p = Some (Some raw)
                            /\ raw <> "" /\ k = strip raw)
  /\ isTrending m = match pl_isTrending p with Some b => b | None => false end
  /\ startUrls m = match pl_startUrls p with Some u => u | None => None end.
Proof.
  intros _. unfold validate_input, model_validate. intros H.
  destruct (match pl_keyword p with None => _ | Some v => _ end)
    as [k|] eqn:Hk; [|destruct (pl_isTrending p); discriminate].
  assert (Ht : exists t, match pl_isTrending p with
                         | Some b => Ok b | None => Ok false end = Ok t
                         /\ t = match pl_isTrending p with
                                | Some b => b | None => false end)
    by (destruct (pl_isTrending p); eexists; split; reflexivity).
  destruct Ht as (t & Ht & Ht'). rewrite Ht in H.
  destruct (match pl_region p with None => _ | Some v => _ end)
    as [r|] eqn:Hr; [|discriminate].
  destruct (match pl_sortType p with None => _ | Some v => _ end)
    as [s|] eqn:Hs; [|discriminate].
  destruct (match pl_limit p with None => _ | Some v => _ end)
    as [n|] eqn:Hn; [|discriminate].
  assert (Hu : exists u, match pl_startUrls p with
                         | Some u => Ok u | None => Ok None end = Ok u
                         /\ u = match pl_startUrls p with
                                | Some u => u | None => None end)
    by (destruct (pl_startUrls p); eexists; split; reflexivity).
  destruct Hu as (u & Hu & Hu'). rewrite Hu in H.
  inversion H; subst m; simpl. clear H.
  split; [|split; [|split; [|split; [|split]]]].
  - destruct (pl_limit p) as [x|]; [|inversion Hn; lia].
    destruct ((1 <=? x) && (x <=? 2000))%bool eqn:E; [|discriminate].
    inversion Hn; subst. apply andb_true_iff in E as [E1 E2]. lia.
  - destruct (pl_sortType p) as [x|]; [|inversion Hs; simpl; auto].
    destruct (existsb (String.eqb x) sort_types) eqn:E; [|discriminate].
    inversion Hs; subst. apply existsb_exists in E as (y & Hy & E).
    apply String.eqb_eq in E. subst. exact Hy.
  - intros code E. subst r.
    destruct (pl_region p) as [x|]; [|discriminate].
    apply validate_region_result in Hr as (_ & Hc & _).
    now apply Hc.
  - intros k' E. subst k.
    destruct (pl_keyword p) as [v|]; [|discriminate].
    unfold validate_keyword in Hk. simpl in Hk.
    destruct v as [raw|]; simpl in Hk; [|discriminate].
    destruct (is_empty raw) eqn:He; simpl in Hk; [discriminate|].
    inversion Hk; subst. exists raw. repeat split.
    intros ->. discriminate.
  - exact Ht'.
  - exact Hu'.
Qed.

(** ** [scraper.py]: sorting *)

Section SortOrder.
Context {K A : Type}.
Variable lt : K -> K -> bool.
Variable good : K -> Prop.
Hypothesis lt_asym : forall a b, good a -> good b -> lt a b = true -> lt b a = false.
Hypothesis lt_ntrans :
  forall a b c, good a -> good b -> good c ->
                lt b a = false -> lt c b = false -> lt c a = false.

(** [q] is not below [p]. *)
Let above (p q : K * A) : Prop := lt (fst q) (fst p) = false.

Lemma Forall_insert_sorted (P : K * A -> Prop) (x : K * A) (l : list (K * A)) :
  P x -> Forall P l -> Forall P (insert_sorted lt x l).
Proof.
  intros Hx Hl.
  eapply Permutation_Forall; [|apply Forall_cons; eassumption].
  symmetry. apply insert_sorted_perm.
Qed.

Lemma insert_sorted_sorted (x : K * A) (l : list (K * A)) :
  good (fst x) -> Forall (fun p => good (fst p)) l ->
  StronglySorted above l -> StronglySorted above (insert_sorted lt x l).
Proof.
  intros Gx Gl Hs. induction Hs as [|y r Hr IH Hy]; simpl.
  - constructor; constructor.
  - inversion Gl as [|? ? Gy Gr]; subst.
    destruct (lt (fst y) (fst x)) eqn:E.
    + constructor; [now apply IH|].
      apply Forall_insert_sorted; [|exact Hy].
      unfold above. now apply lt_asym.
    + constructor; [now constructor|].
      constructor; [exact E|].
      rewrite Forall_forall in *. intros z Hz. unfold above in *.
      apply (lt_ntrans (fst x) (fst y) (fst z)); auto.
Qed.

Lemma stable_sort_good (P : K * A -> Prop) (l : list (K * A)) :
  Forall P l -> Forall P (stable_sort lt l).
Proof.
  intros H. eapply Permutation_Forall; [|exact H].
  symmetry. apply stable_sort_perm.
Qed.

Lemma stable_sort_sorted (l : list (K * A)) :
  Forall (fun p => good (fst p)) l -> StronglySorted above (stable_sort lt l).
Proof.
  induction 1 as [|x r Gx Gr IH]; simpl; [constructor|].
  apply insert_sorted_sorted; auto. now apply stable_sort_good.
Qed.

Lemma insert_sorted_stable (k : K) (x : K * A) (l : list (K * A)) :
  good k -> good (fst x) -> Forall (fun p => good (fst p)) l ->
  filter (fun p => tied lt (fst p) k) (insert_sorted lt x l)
  = filter (fun p => tied lt (fst p) k) (x :: l).
Proof.
  intros Gk Gx Gl. induction Gl as [|y r Gy Gr IH]; [reflexivity|].
  cbn [insert_sorted]. destruct (lt (fst y) (fst x)) eqn:E; [|reflexivity].
  cbn [filter] in *. rewrite IH.
  destruct (tied lt (fst y) k) eqn:Ty; [|reflexivity].
  destruct (tied lt (fst x) k) eqn:Tx; [|reflexivity].
  exfalso. unfold tied in *.
  apply andb_true_iff in Ty as [Ty1 Ty2], Tx as [Tx1 Tx2].
  apply negb_true_iff in Ty1, Ty2, Tx1, Tx2.
  rewrite (lt_ntrans (fst x) k (fst y)) in E; auto. discriminate.
Qed.

Lemma stable_sort_stable (k : K) (l : list (K * A)) :
  good k -> Forall (fun p => good (fst p)) l ->
  filter (fun p => tied lt (fst p) k) (stable_sort lt l)
  = filter (fun p => tied lt (fst p) k) l.
Proof.
  intros Gk. induction 1 as [|x r Gx Gr IH]; simpl; [reflexivity|].
  rewrite insert_sorted_stable; auto; [|now apply stable_sort_good].
  simpl. now rewrite IH.
Qed.

Lemma filter_rev {B : Type} (f : B -> bool) (l : list B) :
  filter f (rev l) = rev (filter f l).
Proof.
  induction l as [|x r IH]; simpl; [reflexivity|].
  rewrite filter_app, IH. simpl. destruct (f x); simpl;
    [reflexivity|now rewrite app_nil_r].
Qed.

Lemma StronglySorted_app {B : Type} (R : B -> B -> Prop) (l1 l2 : list B) :
  StronglySorted R l1 -> StronglySorted R l2 ->
  (forall a b, In a l1 -> In b l2 -> R a b) ->
  StronglySorted R (l1 ++ l2).
Proof.
  intros H1 H2 H. induction H1 as [|x r Hr IH Hx]; simpl; [exact H2|].
  constructor.
  - apply IH. intros a b Ha Hb. apply H; [now right|exact Hb].
  - apply Forall_app. split; [exact Hx|].
    rewrite Forall_forall. intros b Hb. apply H; [now left|exact Hb].
Qed.

Lemma StronglySorted_rev {B : Type} (R : B -> B -> Prop) (l : list B) :
  StronglySorted R l -> StronglySorted (fun a b => R b a) (rev l).
Proof.
  induction 1 as [|x r Hr IH Hx]; simpl; [constructor|].
  apply StronglySorted_app; [exact IH|constructor; constructor|].
  intros a b Ha [<-|[]]. rewrite Forall_forall in Hx.
  apply Hx. now apply in_rev.
Qed.

Variable key : A -> result K.

Lemma decorate_keys (items : list A) (keyed : list (K * A)) :
  mapM (fun x => match key x with
                 | Ok k => Ok (k, x)
                 | Raise e => Raise e
                 end) items = Ok keyed ->
  map snd keyed = items /\ Forall (fun p => key (snd p) = Ok (fst p)) keyed.
Proof.
  revert keyed. induction items as [|x r IH]; simpl; intros keyed H.
  - inversion H. split; [reflexivity|constructor].
  - destruct (key x) as [k|e] eqn:Hk; [|discriminate].
    destruct (mapM _ r) as [ks|e]; [|discriminate].
    inversion H; subst. destruct (IH ks eq_refl) as [Hm Hf].
    simpl. split; [now rewrite Hm|]. constructor; [exact Hk|exact Hf].
Qed.

Lemma StronglySorted_map_snd (R : K -> K -> Prop) (l : list (K * A)) :
  Forall (fun p => key (snd p) = Ok (fst p)) l ->
  StronglySorted (fun p q => R (fst p) (fst q)) l ->
  StronglySorted (fun a b => exists ka kb,
                      key a = Ok ka /\ key b = Ok kb /\ R ka kb)
                 (map snd l).
Proof.
  intros Hk Hs. induction Hs as [|p r Hr IH Hp]; simpl; [constructor|].
  inversion Hk as [|? ? Kp Kr]; subst.
  constructor; [now apply IH|].
  rewrite Forall_forall in *. intros b Hb.
  apply in_map_iff in Hb as (q & <- & Hq).
  exists (fst p), (fst q). repeat split; auto.
Qed.

Lemma filter_map_snd (k : K) (l : list (K * A)) :
  Forall (fun p => key (snd p) = Ok (fst p)) l ->
  filter (keyed_as lt key k) (map snd l)
  = map snd (filter (fun p => tied lt (fst p) k) l).
Proof.
  induction 1 as [|p r Hp Hr IH]; simpl; [reflexivity|].
  unfold keyed_as at 1. rewrite Hp, IH.
  now destruct (tied lt (fst p) k).
Qed.

(** The outcome of a sort: in order, and stable. *)
Lemma sorted_by_in_order (reverse : bool) (items out : list A) :
  sorted_by lt key reverse items = Ok out ->
  Forall (fun x => forall k, key x = Ok k -> good k) items ->
  StronglySorted
    (fun a b => exists ka kb,
         key a = Ok ka /\ key b = Ok kb
         /\ (if reverse then lt ka kb else lt kb ka) = false) out
  /\ (forall k, good k ->
                filter (keyed_as lt key k) out
                = filter (keyed_as lt key k) items).
Proof.
  unfold sorted_by. intros H G.
  destruct (mapM _ items) as [keyed|e] eqn:Hm; [|discriminate].
  apply decorate_keys in Hm as [Hitems Hkeys].
  assert (Gk : Forall (fun p => good (fst p)) keyed).
  { rewrite Forall_forall in *. intros p Hp.
    apply (G (snd p)); [|now apply Hkeys].
    rewrite <- Hitems. now apply in_map. }
  inversion H; subst out; clear H. destruct reverse.
  - split.
    + apply (StronglySorted_map_snd (fun ka kb => lt ka kb = false)).
      * apply Forall_rev, stable_sort_good, Forall_rev, Hkeys.
      * apply (StronglySorted_rev above), stable_sort_sorted, Forall_rev, Gk.
    + intros k Hk. rewrite filter_map_snd
        by (apply Forall_rev, stable_sort_good, Forall_rev, Hkeys).
      rewrite filter_rev, stable_sort_stable by (auto; apply Forall_rev, Gk).
      rewrite filter_rev, rev_involutive, <- filter_map_snd by exact Hkeys.
      now rewrite Hitems.
  - split.
    + apply (StronglySorted_map_snd (fun ka kb => lt kb ka = false)).
      * apply stable_sort_good, Hkeys.
      * apply stable_sort_sorted, Gk.
    + intros k Hk. rewrite filter_map_snd by (apply stable_sort_good, Hkeys).
      rewrite stable_sort_stable by auto.
      rewrite <- filter_map_snd by exact Hkeys. now rewrite Hitems.
Qed.

End SortOrder.

(** *** The order of the floats *)

Lemma SFcompare_rank (a b : float) :
  is_nan a = false -> is_nan b = false ->
  SFcompare a b = Some (rank_compare (float_rank a) (float_rank b)).
Proof.
  destruct a as [sa|sa| |sa ma ea], b as [sb|sb| |sb mb eb];
    try discriminate; intros _ _;
    try (destruct sa; destruct sb; reflexivity);
    try (destruct sa; reflexivity); try (destruct sb; reflexivity).
  destruct sa, sb; simpl; try reflexivity.
  rewrite Z.compare_opp, (Z.compare_antisym ea eb).
  destruct (ea ?= eb); reflexivity.
Qed.

Lemma rank_compare_Lt (a b : Z * Z * Z) :
  rank_compare a b = Lt <->
  fst (fst a) < fst (fst b)
  \/ (fst (fst a) = fst (fst b)
      /\ (snd (fst a) < snd (fst b)
          \/ (snd (fst a) = snd (fst b) /\ snd a < snd b))).
Proof.
  destruct a as [[a1 a2] a3], b as [[b1 b2] b3]. simpl.
  destruct (Z.compare_spec a1 b1); [| |].
  all: try (split; [intros; lia|intros; reflexivity]).
  all: try (split; [discriminate|intros; lia]).
  subst. destruct (Z.compare_spec a2 b2).
  - subst. rewrite Z.compare_lt_iff. lia.
  - split; [intros; lia|reflexivity].
  - split; [discriminate|intros; lia].
Qed.

Lemma rank_compare_antisym (a b : Z * Z * Z) :
  rank_compare b a = CompOpp (rank_compare a b).
Proof.
  destruct a as [[a1 a2] a3], b as [[b1 b2] b3]. simpl.
  rewrite (Z.compare_antisym a1 b1), (Z.compare_antisym a2 b2),
    (Z.compare_antisym a3 b3).
  destruct (a1 ?= b1); simpl; try reflexivity.
  destruct (a2 ?= b2); reflexivity.
Qed.

Lemma float_ltb_rank (a b : float) :
  is_nan a = false -> is_nan b = false ->
  float_ltb a b = true <-> rank_compare (float_rank a) (float_rank b) = Lt.
Proof.
  intros Ha Hb. unfold float_ltb. rewrite SFcompare_rank by assumption.
  destruct (rank_compare _ _); split; intros; congruence.
Qed.

Lemma float_ltb_false (a b : float) :
  is_nan a = false -> is_nan b = false ->
  float_ltb a b = false <-> rank_compare (float_rank a) (float_rank b) <> Lt.
Proof.
  intros Ha Hb. rewrite <- float_ltb_rank by assumption.
  destruct (float_ltb a b); split; intros; congruence.
Qed.

Lemma float_ltb_asym (a b : float) :
  is_nan a = false -> is_nan b = false ->
  float_ltb a b = true -> float_ltb b a = false.
Proof.
  intros Ha Hb. rewrite float_ltb_rank, float_ltb_false by assumption.
  rewrite !rank_compare_Lt. lia.
Qed.

Lemma float_ltb_ntrans (a b c : float) :
  is_nan a = false -> is_nan b = false -> is_nan c = false ->
  float_ltb b a = false -> float_ltb c b = false -> float_ltb c a = false.
Proof.
  intros Ha Hb Hc. rewrite !float_ltb_false by assumption.
  rewrite !rank_compare_Lt. lia.
Qed.

Lemma float_leb_of_not_ltb (a b : float) :
  is_nan a = false -> is_nan b = false ->
  float_ltb b a = false -> float_leb a b = true.
Proof.
  intros Ha Hb. unfold float_ltb, float_leb.
  rewrite !SFcompare_rank by assumption.
  rewrite (rank_compare_antisym (float_rank a) (float_rank b)).
  destruct (rank_compare _ _); simpl; congruence.
Qed.

Lemma apply_sort_perm (items out : list dict) (sort : string) :
  _apply_sort items sort = Ok out -> Permutation out items.
Proof.
  unfold _apply_sort. intros H.
  assert (G : forall (K : Type) (lt : K -> K -> bool) key reverse,
             sorted_by lt key reverse items = Ok out -> Permutation out items).
  { intros K lt key reverse E.
    pose proof (sorted_by_is_ok lt key reverse items) as Hok.
    rewrite E in Hok. simpl in Hok. symmetry in Hok.
    destruct (sorted_by_returns lt key reverse items Hok) as (r & Hr & Hp).
    congruence. }
  destruct (String.eqb sort "PRICE_ASC"); [now apply G in H|].
  destruct (String.eqb sort "PRICE_DESC"); [now apply G in H|].
  destruct (String.eqb sort "BEST_SELLERS"); [now apply G in H|].
  inversion H. reflexivity.
Qed.

Lemma StronglySorted_impl {B : Type} (R S : B -> B -> Prop) (l : list B) :
  (forall a b, In a l -> In b l -> R a b -> S a b) ->
  StronglySorted R l -> StronglySorted S l.
Proof.
  intros H Hs. induction Hs as [|x r Hr IH Hx]; [constructor|].
  constructor.
  - apply IH. intros a b Ha Hb. apply H; now right.
  - rewrite Forall_forall in *. intros b Hb.
    apply H; [now left|now right|now apply Hx].
Qed.

Lemma best_sellers_order (items out : list dict) :
  _apply_sort items "BEST_SELLERS" = Ok out ->
  Permutation out items
  /\ StronglySorted
       (fun a b => exists ka kb,
            sold_key a = Ok ka /\ sold_key b = Ok kb /\ kb <= ka) out
  /\ (forall k, filter (has_sold k) out = filter (has_sold k) items).
Proof.
  intros H. split; [eapply apply_sort_perm; eassumption|].
  unfold _apply_sort in H. simpl in H.
  destruct (sorted_by_in_order Z.ltb (fun _ => True)
              (fun a b _ _ E => proj2 (Z.ltb_ge b a)
                                  (Z.lt_le_incl _ _ (proj1 (Z.ltb_lt a b) E)))
              (fun a b c _ _ _ E1 E2 =>
                 proj2 (Z.ltb_ge c a)
                   (Z.le_trans _ _ _ (proj1 (Z.ltb_ge b a) E1)
                      (proj1 (Z.ltb_ge c b) E2)))
              sold_key true items out H) as [Hs Hst].
  { rewrite Forall_forall. auto. }
  split.
  - eapply StronglySorted_impl; [|exact Hs].
    intros a b _ _ (ka & kb & Ha & Hb & E).
    exists ka, kb. repeat split; auto. now apply Z.ltb_ge.
  - intros k. specialize (Hst k I).
    assert (Hext : forall x, has_sold k x = keyed_as Z.ltb sold_key k x).
    { intros x. unfold has_sold, keyed_as, tied.
      destruct (sold_key x) as [k'|]; try reflexivity.
      destruct (Z.eqb_spec k' k), (Z.ltb_spec k' k), (Z.ltb_spec k k');
        simpl; try reflexivity; lia. }
    now rewrite !(filter_ext _ _ Hext).
Qed.

(** X11.  Sorting by best sellers rearranges the records by descending
    sold count, and records with the same sold count keep the order they
    had. *)
Theorem best_sellers_descending_stable (items out : list dict) :
  _apply_sort items "BEST_SELLERS" = Ok out ->
  Permutation out items
  /\ StronglySorted
       (fun a b => exists ka kb,
            sold_key a = Ok ka /\ sold_key b = Ok kb /\ kb <= ka) out
  /\ (forall k, filter (has_sold k) out = filter (has_sold k) items).
Proof. apply best_sellers_order. Qed.

(** X12.  When no price is a NaN, sorting by price rearranges the records
    in ascending, or descending, order of their prices, and records with
    equal prices keep the order they had, in both directions. *)
Theorem price_sorts_in_order (items out : list dict) (descending : bool) :
  _apply_sort items (if descending then "PRICE_DESC" else "PRICE_ASC") = Ok out ->
  Forall no_nan_price items ->
  Permutation out items
  /\ StronglySorted
       (fun a b => exists ka kb,
            price_key a = Ok ka /\ price_key b = Ok kb
            /\ (if descending then float_leb kb ka else float_leb ka kb) = true)
       out
  /\ (forall k, is_nan k = false ->
                filter (keyed_as float_ltb price_key k) out
                = filter (keyed_as float_ltb price_key k) items).
Proof.
  intros H Hn. split; [eapply apply_sort_perm; eassumption|].
  assert (E : sorted_by float_ltb price_key descending items = Ok out).
  { destruct descending; exact H. }
  assert (G : Forall (fun x => forall k, price_key x = Ok k -> is_nan k = false)
                     items).
  { rewrite Forall_forall in *. intros x Hx k Hk.
    specialize (Hn x Hx). destruct k; try reflexivity.
    exfalso. apply Hn. exact Hk. }
  destruct (sorted_by_in_order float_ltb (fun k => is_nan k = false)
              float_ltb_asym float_ltb_ntrans price_key descending items out
              E G) as [Hs Hst].
  split; [|exact Hst].
  assert (Gout : forall a, In a out ->
                           forall k, price_key a = Ok k -> is_nan k = false).
  { intros a Ha. rewrite Forall_forall in G. apply G.
    eapply Permutation_in; [eapply apply_sort_perm; eassumption|exact Ha]. }
  eapply StronglySorted_impl; [|exact Hs].
  intros a b Ha Hb (ka & kb & Ka & Kb & L).
  exists ka, kb. repeat split; auto.
  destruct descending; apply float_leb_of_not_ltb; eauto.
Qed.

(** ** [scraper.py]: the generator and the search *)

Section MockShape.
Context {RND : Random}.

Lemma mock_item_shaped (keyword region : option string) (i : nat) (s : rng) :
  mock_shaped region (fst (runState (mock_item keyword region i) s)).
Proof.
  unfold mock_item. simpl.
  repeat match goal with
         | |- context [let (_, _) := ?e in _] => destruct e
         end.
  simpl. unfold mock_shaped. repeat eexists.
Qed.

Lemma mock_loop_shaped (keyword region : option string) (n : nat) :
  forall i s,
    Forall (mock_shaped region)
           (evalState (mock_loop keyword region n i) s).
Proof.
  induction n as [|n IH]; intros i s; [constructor|].
  unfold evalState in *. rewrite mock_loop_step.
  pose proof (mock_item_shaped keyword region i s) as Hx.
  destruct (runState (mock_item keyword region i) s) as [x s1].
  specialize (IH (S i) s1).
  destruct (runState (mock_loop keyword region n (S i)) s1) as [xs s2].
  simpl in *. now constructor.
Qed.

Lemma mock_products_shaped (keyword : option string) (is_trending : bool)
  (region : option string) (limit : Z) :
  Forall (mock_shaped region) (_mock_products keyword is_trending region limit).
Proof. apply mock_loop_shaped. Qed.

End MockShape.

Lemma guess_currency_nonempty (region : option string) :
  is_empty (guess_currency_from_region region) = false.
Proof.
  unfold guess_currency_from_region.
  destruct region as [r|]; [|reflexivity].
  destruct (is_empty r); [reflexivity|].
  destruct (mapping_get_cases currency_mapping (upper r) "USD") as [->|H];
    [reflexivity|].
  revert H. generalize (mapping_get currency_mapping (upper r) "USD").
  intros c H. simpl in H.
  repeat (destruct H as [H|H]; [subst c; reflexivity|]). contradiction.
Qed.

Lemma mock_shaped_keys (region : option string) (x : dict) :
  mock_shaped region x ->
  exists price sold,
    price_key x = Ok price /\ sold_key x = Ok sold
    /\ lookup x "sold_count" = Some (VInt sold)
    /\ lookup x "price" = Some (VFloat price).
Proof.
  intros (pid & title & cover & ia & ib & price & discount & rating & sold
          & reviews & seller & sid & labels & ->).
  exists price, sold. repeat split; reflexivity.
Qed.

Section MapMock.
Context {RT : Runtime}.

(** The mapper takes every record of the generator, and keeps its currency
    and its sold count. *)
Lemma map_product_mock_shaped (region region' : option string) (x : dict) :
  mock_shaped region x ->
  exists r,
    map_product x region' = Ok r
    /\ lookup r "currency" = Some (VStr (guess_currency_from_region region))
    /\ lookup r "sold_count" = lookup x "sold_count"
    /\ lookup r "_source" = Some (VStr "mock").
Proof.
  intros (pid & title & cover & ia & ib & price & discount & rating & sold
          & reviews & seller & sid & labels & ->).
  pose proof (guess_currency_nonempty region) as Hc.
  destruct (guess_currency_from_region region) as [|c0 cur] eqn:Ecur;
    [discriminate|]. clear Hc.
  unfold map_product, get, get_or, por, normalize_price, to_iso8601, bind.
  simpl.
  destruct (float_is_zero price) eqn:Hp, (sold =? 0) eqn:Hs,
    (reviews =? 0) eqn:Hr;
    simpl; rewrite ?Hp, ?Hs, ?Hr; simpl;
    eexists; (split; [reflexivity|]);
    try apply Z.eqb_eq in Hs; subst;
    repeat split; reflexivity.
Qed.

End MapMock.

Lemma mapM_Forall2 {A B : Type} (f : A -> result B) (Q : A -> B -> Prop)
  (l : list A) :
  Forall (fun x => exists r, f x = Ok r /\ Q x r) l ->
  exists rs, mapM f l = Ok rs /\ Forall2 Q l rs.
Proof.
  induction 1 as [|x r (y & Hy & Hq) _ (ys & Hys & Hf)]; simpl.
  - exists []. split; [reflexivity|constructor].
  - exists (y :: ys). rewrite Hy, Hys. split; [reflexivity|now constructor].
Qed.

Lemma apply_sort_mock (region : option string) (items : list dict)
  (sort : string) :
  Forall (mock_shaped region) items ->
  exists out, _apply_sort items sort = Ok out /\ Permutation out items.
Proof.
  intros H.
  assert (Hp : forallb (fun x => is_ok (price_key x)) items = true).
  { apply forallb_forall. rewrite Forall_forall in H. intros x Hx.
    destruct (mock_shaped_keys region x (H x Hx)) as (p & s & -> & _).
    reflexivity. }
  assert (Hs : forallb (fun x => is_ok (sold_key x)) items = true).
  { apply forallb_forall. rewrite Forall_forall in H. intros x Hx.
    destruct (mock_shaped_keys region x (H x Hx)) as (p & s & _ & -> & _).
    reflexivity. }
  unfold _apply_sort.
  destruct (String.eqb sort "PRICE_ASC"); [now apply sorted_by_returns|].
  destruct (String.eqb sort "PRICE_DESC"); [now apply sorted_by_returns|].
  destruct (String.eqb sort "BEST_SELLERS"); [now apply sorted_by_returns|].
  exists items. split; reflexivity.
Qed.

Lemma StronglySorted_Forall2 {A B : Type} (R : A -> A -> Prop)
  (S : B -> B -> Prop) (Q : A -> B -> Prop) (l : list A) (rs : list B) :
  (forall a b ra rb, R a b -> Q a ra -> Q b rb -> S ra rb) ->
  Forall2 Q l rs -> StronglySorted R l -> StronglySorted S rs.
Proof.
  intros H HQ. induction HQ as [|a ra l rs Ha HQ IH]; intros Hs;
    [constructor|].
  inversion Hs as [|? ? Hl Hall]; subst. constructor; [now apply IH|].
  clear IH Hs Hl. induction HQ as [|b rb l rs Hb HQ IH]; [constructor|].
  inversion Hall; subst. constructor; [|now apply IH].
  eapply H; eassumption.
Qed.


Section SearchFacts.
Context {RT : Runtime} {RND : Random}.



(** The records of the canonical pipeline on the generator's output. *)
Lemma search_offline_records (keyword : option string) (is_trending : bool)
  (region : option string) (sort : string) (limit : Z) :
  exists out rs,
    _apply_sort (_mock_products keyword is_trending region limit) sort = Ok out
    /\ Permutation out (_mock_products keyword is_trending region limit)
    /\ mapM (fun p => map_product p region) out = Ok rs
    /\ Forall2 (fun x r =>
                  lookup r "currency"
                  = Some (VStr (guess_currency_from_region region))
                  /\ lookup r "sold_count" = lookup x "sold_count"
                  /\ lookup r "_source" = Some (VStr "mock")) out rs.
Proof.
  pose proof (mock_products_shaped keyword is_trending region limit) as Hsh.
  destruct (apply_sort_mock region _ sort Hsh) as (out & Hout & Hperm).
  assert (Hsh' : Forall (mock_shaped region) out).
  { eapply Permutation_Forall; [symmetry; exact Hperm|exact Hsh]. }
  destruct (mapM_Forall2 (fun p => map_product p region)
              (fun x r =>
                 lookup r "currency"
                 = Some (VStr (guess_currency_from_region region))
                 /\ lookup r "sold_count" = lookup x "sold_count"
                 /\ lookup r "_source" = Some (VStr "mock")) out)
    as (rs & Hrs & Hf).
  { rewrite Forall_forall in *. intros x Hx.
    apply map_product_mock_shaped with (region := region). now apply Hsh'. }
  exists out, rs. auto.
Qed.

(** X14.  An offline search always returns: as many canonical records as
    the limit says, each in the currency of the region and marked as mock
    data, and by descending sold count when best sellers are asked
    for. *)
Theorem search_offline_returns_limit (keyword : option string)
  (is_trending : bool) (region : option string) (sort : string) (limit : Z) :
  exists rs,
    search_offline keyword is_trending region sort limit = Ok rs
    /\ List.length rs = Z.to_nat limit
    /\ Forall (fun r => lookup r "currency"
                        = Some (VStr (guess_currency_from_region region))
                        /\ lookup r "_source" = Some (VStr "mock")) rs
    /\ (sort = "BEST_SELLERS" ->
        StronglySorted
          (fun a b => exists ka kb,
               shown_sold a = Some (VInt ka) /\ shown_sold b = Some (VInt kb)
               /\ kb <= ka) rs).
Proof.
  destruct (search_offline_records keyword is_trending region sort limit)
    as (out & rs & Hout & Hperm & Hrs & Hf).
  exists rs. unfold search_offline. rewrite Hout, Hrs.
  split; [reflexivity|]. split; [|split].
  - rewrite <- (Forall2_length Hf), (Permutation_length Hperm).
    apply mock_products_length.
  - clear -Hf. induction Hf as [|x r l rs (Hc & _ & Hs) _ IH]; constructor; auto.
  - intros ->. apply best_sellers_order in Hout as (_ & Hs & _).
    assert (Hsh : Forall (mock_shaped region) out).
    { eapply Permutation_Forall; [symmetry; exact Hperm|].
      apply mock_products_shaped. }
    clear Hperm Hrs.
    assert (Hf' : Forall2 (fun x r => mock_shaped region x
                                      /\ lookup r "sold_count"
                                         = lookup x "sold_count") out rs).
    { clear Hs. induction Hf as [|x r l rs (_ & Hq & _) _ IH];
        [constructor|].
      inversion Hsh; subst. constructor; auto. }
    eapply (StronglySorted_Forall2 _ _ _ out rs); [|exact Hf'|exact Hs].
    intros a b ra rb (ka & kb & Ka & Kb & Hle) [Sa Qa] [Sb Qb].
    destruct (mock_shaped_keys region a Sa) as (_ & sa & _ & Ka' & La & _).
    destruct (mock_shaped_keys region b Sb) as (_ & sb & _ & Kb' & Lb & _).
    exists ka, kb. unfold shown_sold. rewrite Qa, Qb, La, Lb.
    repeat split; congruence.
Qed.


End SearchFacts.

Section MockMore.
Context {RND : Random}.

Lemma mock_item_title (keyword region : option string) (i : nat) (s : rng) :
  lookup (fst (runState (mock_item keyword region i) s)) "title"
  = Some (VStr (slice (str_or keyword "Trending") 0 20 ++ " Product "
                ++ str_of_nat (i + 1))).
Proof.
  unfold mock_item. simpl.
  repeat match goal with
         | |- context [let (_, _) := ?e in _] => destruct e
         end.
  reflexivity.
Qed.

Lemma mock_loop_titles (keyword region : option string) (n : nat) :
  forall i s j x,
    nth_error (evalState (mock_loop keyword region n i) s) j = Some x ->
    lookup x "title"
    = Some (VStr (slice (str_or keyword "Trending") 0 20 ++ " Product "
                  ++ str_of_nat (i + j + 1))).
Proof.
  induction n as [|n IH]; intros i s j x H.
  - destruct j; discriminate.
  - unfold evalState in *. rewrite mock_loop_step in H.
    pose proof (mock_item_title keyword region i s) as Ht.
    destruct (runState (mock_item keyword region i) s) as [y s1].
    specialize (IH (S i) s1).
    destruct (runState (mock_loop keyword region n (S i)) s1) as [ys s2].
    simpl in *. destruct j as [|j]; simpl in H.
    + inversion H; subst. now rewrite Nat.add_0_r.
    + apply IH in H.
      replace (i + S j + 1)%nat with (S (i + j + 1)) by lia. exact H.
Qed.

(** X13.  The generator yields [limit] records (none for a negative
    limit), each with the sixteen fields of a mock record; the title of the
    [j]-th one is the keyword, cut at twenty characters, followed by its
    number [j+1]; and a smaller limit yields a prefix of the same
    records. *)
Theorem mock_products_count_and_numbering (keyword : option string)
  (is_trending : bool) (region : option string) (limit : Z) :
  List.length (_mock_products keyword is_trending region limit) = Z.to_nat limit
  /\ Forall (mock_shaped region)
            (_mock_products keyword is_trending region limit)
  /\ (forall j x,
        nth_error (_mock_products keyword is_trending region limit) j = Some x ->
        lookup x "title"
        = Some (VStr (slice (str_or keyword "Trending") 0 20 ++ " Product "
                      ++ str_of_nat (j + 1))))
  /\ (forall fewer,
        fewer <= limit ->
        firstn (Z.to_nat fewer)
               (_mock_products keyword is_trending region limit)
        = _mock_products keyword is_trending region fewer).
Proof.
  split; [apply mock_products_length|].
  split; [apply mock_products_shaped|]. split.
  - intros j x H. now apply mock_loop_titles in H.
  - intros fewer Hle. unfold _mock_products.
    replace (Z.to_nat limit)
      with (Z.to_nat fewer + (Z.to_nat limit - Z.to_nat fewer))%nat by lia.
    apply mock_loop_prefix.
Qed.

End MockMore.

(** ** [tiktok_parser.py]: JSON in a script *)

Lemma has_char_cons (c x : ascii) (s : string) :
  has_char c (String x s) = (Ascii.eqb x c || has_char c s)%bool.
Proof.
  unfold has_char. simpl. destruct (Ascii.eqb x c); simpl; reflexivity.
Qed.

Lemma find_char_after (c : ascii) (p r : string) :
  has_char c p = false ->
  find_char c (p ++ String c r) 0 = Some (String.length p).
Proof.
  induction p as [|x p IH]; simpl; intros H.
  - now rewrite Ascii.eqb_refl.
  - rewrite has_char_cons in H. apply orb_false_iff in H as [Hx Hp].
    now rewrite Hx, IH.
Qed.

Lemma find_char_absent (c : ascii) (s : string) :
  has_char c s = false -> forall n, find_char c s n = None.
Proof.
  induction s as [|x s IH]; simpl; intros H n; [reflexivity|].
  rewrite has_char_cons in H. apply orb_false_iff in H as [Hx Hs].
  destruct n; [rewrite Hx|]; now rewrite IH.
Qed.

Lemma rfind_char_absent (c : ascii) (s : string) :
  has_char c s = false -> forall lo hi, rfind_char c s lo hi = None.
Proof.
  induction s as [|x s IH]; intros H lo hi; [now destruct hi|].
  rewrite has_char_cons in H. apply orb_false_iff in H as [Hx Hs].
  destruct hi; simpl; [reflexivity|].
  now rewrite IH, Hx, andb_false_r.
Qed.

Lemma rfind_char_last (c : ascii) (noise : string) :
  has_char c noise = false ->
  forall l,
    rfind_char c (l ++ String c noise) 0
               (String.length (l ++ String c noise))
    = Some (String.length l).
Proof.
  intros H. induction l as [|x l IH]; simpl.
  - now rewrite rfind_char_absent, Ascii.eqb_refl.
  - now rewrite IH.
Qed.

Lemma substring_prefix (j n : string) :
  String.substring 0 (String.length j) (j ++ n) = j.
Proof.
  induction j as [|x j IH]; simpl; [now destruct n|]. now rewrite IH.
Qed.

Lemma substring_middle (p j n : string) :
  String.substring (String.length p) (String.length j) (p ++ j ++ n) = j.
Proof.
  induction p as [|x p IH]; simpl; [apply substring_prefix|exact IH].
Qed.

Lemma append_assoc (a b c : string) : ((a ++ b) ++ c = a ++ (b ++ c))%string.
Proof. induction a; simpl; congruence. Qed.

Lemma length_append (a b : string) :
  String.length (a ++ b) = (String.length a + String.length b)%nat.
Proof. induction a; simpl; congruence. Qed.

Lemma extract_loop_exn (text : string) :
  forall fuel start e,
    extract_loop fuel text start = Some (Raise e) -> e = ValueError.
Proof.
  induction fuel as [|fuel IH]; intros start e H; simpl in H.
  - destruct start; [discriminate|]. now inversion H.
  - destruct start as [st|]; [|now inversion H].
    destruct (rfind_char "}" text 0 (String.length text)) as [en|];
      [|now inversion H].
    destruct (en <=? st)%nat; [now inversion H|].
    destruct (json_loads _); [discriminate|].
    destruct (rfind_char "}" text st en); [|now inversion H].
    eapply IH; eassumption.
Qed.

(** X16.  A JSON object is read out of a script that wraps it, as long as
    nothing before it has an opening brace and nothing after it a closing
    one. *)
Theorem extract_json_tolerates_wrapping (before body after : string)
  (v : value) :
  has_char "{" before = false ->
  has_char "}" after = false ->
  json_loads ("{" ++ body ++ "}") = Ok v ->
  _extract_json_from_script (before ++ ("{" ++ body ++ "}") ++ after) = Ok v.
Proof.
  intros Hb Ha Hv.
  set (text := (before ++ ("{" ++ body ++ "}") ++ after)%string).
  assert (Hfind : find_char "{" text 0 = Some (String.length before)).
  { unfold text. simpl. now apply find_char_after. }
  assert (Htext : text = ((before ++ "{" ++ body) ++ String "}" after)%string).
  { unfold text. simpl. rewrite !append_assoc. reflexivity. }
  assert (Hrfind : rfind_char "}" text 0 (String.length text)
                   = Some (String.length (before ++ "{" ++ body)%string)).
  { rewrite Htext. now apply rfind_char_last. }
  unfold _extract_json_from_script. fold text. rewrite Hfind.
  cbn [extract_loop]. rewrite Hrfind.
  assert (Hlt : (String.length (before ++ "{" ++ body)%string
                 <=? String.length before)%nat = false).
  { apply Nat.leb_gt. rewrite length_append.
    change (String.length ("{" ++ body)%string) with (S (String.length body)).
    lia. }
  rewrite Hlt.
  assert (Hs : slice text (String.length before)
                     (S (String.length (before ++ "{" ++ body)%string))
               = ("{" ++ body ++ "}")%string).
  { unfold slice.
    replace (S (String.length (before ++ "{" ++ body)%string)
             - String.length before)%nat
      with (String.length ("{" ++ body ++ "}")%string).
    - apply substring_middle.
    - assert (L1 : String.length (before ++ "{" ++ body)%string
                   = (String.length before + S (String.length body))%nat)
        by (rewrite length_append; reflexivity).
      assert (L2 : String.length ("{" ++ body ++ "}")%string
                   = S (S (String.length body)))
        by (simpl; rewrite length_append; simpl; lia).
      rewrite L1, L2. lia. }
  rewrite Hs, Hv. reflexivity.
Qed.

Lemma bottom_obj_cons (f : frame) (stk : list frame) :
  bottom_obj stk = true -> bottom_obj (f :: stk) = true.
Proof.
  destruct stk as [|g r]; [discriminate|]. intros H.
  destruct f; exact H.
Qed.

Lemma bottom_obj_tail (acc : list value) (stk : list frame) :
  bottom_obj (FArr acc :: stk) = true -> bottom_obj stk = true.
Proof. destruct stk; [discriminate|auto]. Qed.

Lemma bottom_obj_tail_obj (acc : dict) (k : string) (stk : list frame) :
  bottom_obj (FObj acc k :: stk) = true -> stk = [] \/ bottom_obj stk = true.
Proof. destruct stk; [now left|right; assumption]. Qed.

Lemma complete_in_object (v : value) (stk : list frame) :
  (stk = [] -> exists d, v = VDict d) ->
  stk = [] \/ bottom_obj stk = true ->
  in_object (complete v stk).
Proof.
  intros Hv [->|Hb]; simpl; [auto|].
  destruct stk as [|[acc|acc k] r]; [discriminate| |]; simpl.
  - now apply bottom_obj_tail in Hb.
  - now apply bottom_obj_tail_obj in Hb.
Qed.

Lemma open_value_in_object (t : token) (stk : list frame) :
  bottom_obj stk = true -> in_object (open_value t stk).
Proof.
  intros Hb. destruct t; simpl; auto.
  apply complete_in_object; [|now right].
  intros ->. discriminate.
Qed.

Lemma pstep_in_object (st : pstate) (t : token) :
  in_object st -> in_object (pstep st t).
Proof.
  destruct st as [stk|stk|acc stk|stk|acc stk|acc k stk|acc stk|v|]; simpl;
    intros H; auto;
    try (now apply open_value_in_object);
    destruct t as [| | | | | |v']; simpl; auto;
    try (destruct v'; simpl; auto);
    try (apply open_value_in_object; now apply bottom_obj_cons);
    try (apply complete_in_object; [intros ->; discriminate|now right]);
    try (apply complete_in_object; [eauto|assumption]);
    try (now apply bottom_obj_cons);
    try (destruct H as [->|H]; [reflexivity|];
         destruct stk; [discriminate|exact H]).
Qed.

Lemma fold_pstep_in_object (ts : list token) :
  forall st, in_object st -> in_object (fold_left pstep ts st).
Proof.
  induction ts as [|t ts IH]; simpl; intros st H; [exact H|].
  apply IH. now apply pstep_in_object.
Qed.

(** A text that opens with a brace parses to an object, if to anything. *)
Lemma json_loads_object (r : string) (v : value) :
  json_loads (String "{" r) = Ok v -> exists d, v = VDict d.
Proof.
  unfold json_loads. simpl.
  destruct (tokenize 0 r) as [ts|]; [|discriminate]. simpl.
  pose proof (fold_pstep_in_object ts (PObjFirst []) (or_introl eq_refl)) as H.
  destruct (fold_left pstep ts (PObjFirst [])); try discriminate.
  intros E. inversion E; subst. exact H.
Qed.

Lemma find_char_get (c : ascii) (s : string) :
  forall n i, find_char c s n = Some i ->
              forall len, exists r,
                String.substring i (S len) s = String c r.
Proof.
  induction s as [|x s IH]; simpl; intros n i H len; [discriminate|].
  destruct n as [|n].
  - destruct (Ascii.eqb x c) eqn:E.
    + inversion H; subst. apply Ascii.eqb_eq in E. subst. eauto.
    + destruct (find_char c s 0) as [j|] eqn:Hj; [|discriminate].
      inversion H; subst. simpl. eapply IH; eassumption.
  - destruct (find_char c s n) as [j|] eqn:Hj; [|discriminate].
    inversion H; subst. simpl. eapply IH; eassumption.
Qed.

Lemma extract_loop_object (text : string) :
  forall fuel start v,
    (forall st, start = Some st ->
                exists n, find_char "{" text n = Some st) ->
    extract_loop fuel text start = Some (Ok v) -> exists d, v = VDict d.
Proof.
  induction fuel as [|fuel IH]; intros start v Hst H; simpl in H.
  - destruct start; discriminate.
  - destruct start as [st|]; [|discriminate].
    destruct (rfind_char "}" text 0 (String.length text)) as [en|];
      [|discriminate].
    destruct (en <=? st)%nat eqn:Hle; [discriminate|].
    destruct (json_loads (slice text st (S en))) as [w|e] eqn:Hj.
    + inversion H; subst. destruct (Hst st eq_refl) as [n Hn].
      apply Nat.leb_gt in Hle. unfold slice in Hj.
      replace (S en - st)%nat with (S (en - st)) in Hj by lia.
      destruct (find_char_get "{" text n st Hn (en - st)%nat) as [r Hr].
      rewrite Hr in Hj. eapply json_loads_object; eassumption.
    + destruct (rfind_char "}" text st en); [|discriminate].
      eapply IH; [|eassumption]. intros st' E. eauto.
Qed.

(** X17.  The extraction from a script raises nothing but [ValueError],
    returns nothing but an object, and fails on a text that lacks one of
    the two braces. *)
Theorem extract_json_outcomes (text : string) :
  (forall e, _extract_json_from_script text = Raise e -> e = ValueError)
  /\ (forall v, _extract_json_from_script text = Ok v -> exists d, v = VDict d)
  /\ (has_char "{" text = false \/ has_char "}" text = false ->
      _extract_json_from_script text = Raise ValueError).
Proof.
  pose proof (extract_json_from_script_total text) as Ht.
  split; [|split].
  - intros e He. rewrite He in Ht. eapply extract_loop_exn; eassumption.
  - intros v Hv. rewrite Hv in Ht.
    eapply extract_loop_object; [|eassumption]. intros st E. eauto.
  - unfold _extract_json_from_script. intros [H|H].
    + now rewrite find_char_absent.
    + simpl. destruct (find_char "{" text 0); [|reflexivity].
      now rewrite rfind_char_absent.
Qed.

(** ** [tiktok_parser.py]: the walk *)

Lemma gather_In {A : Type} (l : list (result (list A))) :
  forall b, gather l = Ok b ->
            forall p, In p b <-> exists a, In (Ok a) l /\ In p a.
Proof.
  induction l as [|m r IH]; simpl; intros b H p.
  - inversion H; subst. split; [contradiction|intros (a & [] & _)].
  - destruct m as [a|e]; [|discriminate].
    destruct (gather r) as [c|e]; [|discriminate].
    inversion H; subst. rewrite in_app_iff, (IH c eq_refl p). split.
    + intros [Hp|(a' & Ha & Hp)]; [exists a|exists a']; auto.
    + intros (a' & [E|Ha] & Hp); [inversion E; subst; now left|].
      right. now exists a'.
Qed.

Section WalkMore.
Context {RT : Runtime}.

Lemma walk_finds (base_url : string) (node : value) :
  forall ps, walk base_url node = Ok ps ->
             forall p, In p ps <->
                       exists d, inside node d
                                 /\ _looks_like_product_dict d = true
                                 /\ _product_from_dict d base_url = Ok p.
Proof.
  induction node as [| | | | |l IH|d0 IH|] using value_nested_ind;
    intros ps H p; simpl in H;
    try (inversion H; subst; split;
         [contradiction|intros (d & Hin & _); inversion Hin]).
  - rewrite (gather_In _ ps H). split.
    + intros (a & Ha & Hp). apply in_map_iff in Ha as (x & Hx & Hxl).
      rewrite Forall_forall in IH.
      apply (IH x Hxl a Hx p) in Hp as (d & Hd & Hl & Hp).
      exists d. split; [|auto]. eapply inside_item; eassumption.
    + intros (d & Hd & Hl & Hp). inversion Hd; subst.
      destruct (walk base_url v) as [a|e] eqn:Hv.
      * exists a. split; [apply in_map_iff; now exists v|].
        rewrite Forall_forall in IH. apply (IH v H1 a Hv p). eauto.
      * exfalso. clear -H H1 Hv. revert ps H.
        induction l as [|x r IHr]; [contradiction|]. simpl. intros ps H.
        destruct H1 as [->|Hin].
        -- rewrite Hv in H. discriminate.
        -- destruct (walk base_url x); [|discriminate].
           destruct (gather (map (walk base_url) r)) eqn:Hg; [|discriminate].
           eapply IHr; eauto.
  - unfold bind in H.
    destruct (if _looks_like_product_dict d0 then _ else _) as [here|e] eqn:Hh;
      [|discriminate].
    destruct (gather _) as [below|e] eqn:Hb; [|discriminate].
    inversion H; subst. rewrite in_app_iff, (gather_In _ below Hb). split.
    + intros [Hp|(a & Ha & Hp)].
      * destruct (_looks_like_product_dict d0) eqn:Hl; [|inversion Hh; subst; contradiction].
        destruct (_product_from_dict d0 base_url) as [q|e] eqn:Hq; [|discriminate].
        inversion Hh; subst. destruct Hp as [<-|[]].
        exists d0. split; [constructor|auto].
      * apply in_map_iff in Ha as ([k x] & Hx & Hxl). simpl in Hx.
        rewrite Forall_forall in IH.
        apply (IH (k, x) Hxl a Hx p) in Hp as (d & Hd & Hl & Hp).
        exists d. split; [|auto]. eapply inside_value; eassumption.
    + intros (d & Hd & Hl & Hp). inversion Hd; subst.
      * left. rewrite Hl, Hp in Hh. inversion Hh. now left.
      * right. destruct (walk base_url v) as [a|e] eqn:Hv.
        -- exists a. split; [apply in_map_iff; now exists (k, v)|].
           rewrite Forall_forall in IH. apply (IH (k, v) H1 a Hv p). eauto.
        -- exfalso. clear -Hb H1 Hv. revert below Hb.
           induction d0 as [|[k' x] r IHr]; [contradiction|]. simpl.
           intros below Hb. destruct H1 as [E|Hin].
           ++ inversion E; subst. rewrite Hv in Hb. discriminate.
           ++ destruct (walk base_url x); [|discriminate].
              destruct (gather _) eqn:Hg; [|discriminate].
              eapply IHr; eauto.
Qed.

(** X18.  The products found in a JSON value are exactly those of the
    product-like objects anywhere inside it, the value itself
    included. *)
Theorem walk_finds_every_product (data : value) (base_url : string)
  (products : list Product) :
  _products_from_json_blob data base_url = Ok products ->
  forall p, In p products <->
            exists d, inside data d
                      /\ _looks_like_product_dict d = true
                      /\ _product_from_dict d base_url = Ok p.
Proof. apply walk_finds. Qed.

End WalkMore.

(** ** [tiktok_parser.py]: product-like nodes and records *)

Lemma existsb_perm {A : Type} (f : A -> bool) (l l' : list A) :
  Permutation l l' -> existsb f l = existsb f l'.
Proof.
  induction 1 as [|x l l' _ IH|x y l|l l' l'' _ IH1 _ IH2]; simpl.
  - reflexivity.
  - now rewrite IH.
  - now destruct (f x), (f y).
  - congruence.
Qed.

(** X19.  Whether an object looks like a product depends on its keys only,
    not on their order, and for ASCII keys not on their case. *)
Theorem looks_like_product_by_keys (node : dict) :
  (Forall (fun k => ascii_text k = true) (map fst node) ->
   _looks_like_product_dict (rename_keys upper node)
   = _looks_like_product_dict node
   /\ _looks_like_product_dict (rename_keys lower node)
      = _looks_like_product_dict node)
  /\ (forall node', map fst node' = map fst node ->
                    _looks_like_product_dict node'
                    = _looks_like_product_dict node)
  /\ (forall node', Permutation node node' ->
                    _looks_like_product_dict node'
                    = _looks_like_product_dict node).
Proof.
  assert (K : forall d d',
             map (fun kv => lower (fst kv)) d = map (fun kv => lower (fst kv)) d'
             -> _looks_like_product_dict d = _looks_like_product_dict d').
  { intros d d' E. unfold _looks_like_product_dict. now rewrite E. }
  split; [|split].
  - intros _. split.
    + apply K. unfold rename_keys. rewrite map_map. apply map_ext.
      intros kv. simpl. apply lower_upper.
    + apply K. unfold rename_keys. rewrite map_map. apply map_ext.
      intros kv. simpl. unfold lower. rewrite smap_smap. apply smap_ext.
      intros c. destruct c as [[] [] [] [] [] [] [] []]; reflexivity.
  - intros node' E. apply K.
    rewrite <- (map_map fst lower node'), <- (map_map fst lower node).
    now rewrite E.
  - intros node' P. unfold _looks_like_product_dict.
    assert (E : forall k,
               existsb (String.eqb k) (map (fun kv => lower (fst kv)) node')
               = existsb (String.eqb k) (map (fun kv => lower (fst kv)) node)).
    { intros k. apply existsb_perm. apply Permutation_map. now symmetry. }
    now rewrite !E.
Qed.

Section Records.
Context {RT : Runtime}.

Lemma product_from_dict_cases (node : dict) (base_url : string) :
  is_ok (_product_from_dict node base_url)
  = (negb (is_empty_list (get node "image"))
     && (negb (truthy (get node "url")) || is_str (get node "url")))%bool
  /\ (forall e, _product_from_dict node base_url = Raise e ->
                (e = IndexError /\ get node "image" = VList [])
                \/ (e = AttributeError /\ is_str (get node "url") = false))
  /\ (forall p, _product_from_dict node base_url = Ok p ->
                product_link p
                = normalize_product_link
                    (match get node "url" with
                     | VStr s => if is_empty s then base_url else s
                     | _ => base_url
                     end)).
Proof.
  unfold _product_from_dict, bind, por.
  destruct (get node "image") as [| | | | |[|x l]| |] eqn:Hi; simpl;
    destruct (get node "url") as [|ub|uz|uf|us|ul|ud|ut] eqn:Hu; simpl;
    try destruct ub; try destruct (uz =? 0); try destruct (float_is_zero uf);
    try destruct (is_empty us) eqn:Hs; try destruct ul; try destruct ud;
    simpl; (split; [reflexivity|split]);
    intros ? E; inversion E; subst; simpl; auto.
Qed.

(** X20.  A product is made of an object that [str] can print (no integer
    of more digits than the interpreter converts lies in it) unless its
    image is an empty list ([IndexError]) or its URL is a non-empty value
    that is not a string ([AttributeError]); its link is the trimmed URL of
    the object, or the trimmed base URL when the object has none. *)
Theorem product_from_dict_failures (node : dict) (base_url : string) :
  printable (VDict node) = true ->
  is_ok (_product_from_dict node base_url)
  = (negb (is_empty_list (get node "image"))
     && (negb (truthy (get node "url")) || is_str (get node "url")))%bool
  /\ (forall e, _product_from_dict node base_url = Raise e ->
                (e = IndexError /\ get node "image" = VList [])
                \/ (e = AttributeError /\ is_str (get node "url") = false))
  /\ (forall p, _product_from_dict node base_url = Ok p ->
                product_link p
                = normalize_product_link
                    (match get node "url" with
                     | VStr s => if is_empty s then base_url else s
                     | _ => base_url
                     end)).
Proof. intros _. apply product_from_dict_cases. Qed.

Lemma walk_Forall (Q : Product -> Prop) (base_url : string) :
  (forall d p, _product_from_dict d base_url = Ok p -> Q p) ->
  forall node ps, walk base_url node = Ok ps -> Forall Q ps.
Proof.
  intros HQ node ps H. rewrite Forall_forall. intros p Hp.
  apply (walk_finds base_url node ps H p) in Hp as (d & _ & _ & Hd).
  eapply HQ; eassumption.
Qed.

Lemma json_script_scan_Forall (Q : Product -> Prop) (url : string) :
  (forall d p, _product_from_dict d url = Ok p -> Q p) ->
  forall l found, json_script_scan l url = Ok found -> Forall Q found.
Proof.
  intros HQ. induction l as [|script rest IH]; simpl; intros found H.
  - inversion H. constructor.
  - destruct (is_empty _); [now apply IH|].
    destruct (_ && _)%bool; [|now apply IH].
    destruct (_extract_json_from_script _) as [data|e].
    + unfold bind, _products_from_json_blob in H.
      destruct (walk url data) as [a|e] eqn:Ha; [|discriminate].
      destruct (json_script_scan rest url) as [b|e]; [|discriminate].
      inversion H; subst. apply Forall_app. split.
      * eapply walk_Forall; eassumption.
      * now apply IH.
    + destruct e; try discriminate. now apply IH.
Qed.

Lemma normalize_product_link_idem (url : string) :
  normalize_product_link (normalize_product_link url)
  = normalize_product_link url.
Proof.
  unfold normalize_product_link.
  destruct (is_empty url) eqn:He; [now rewrite He|].
  destruct (is_empty (strip url)); [reflexivity|apply strip_idem].
Qed.

Lemma cards_to_products_Forall (Q : Product -> Prop) (url : string)
  (cards : list Card) :
  (forall c p, _product_from_card c url = Some p -> Q p) ->
  Forall Q (cards_to_products cards url).
Proof.
  intros HQ. induction cards as [|c r IH]; simpl; [constructor|].
  destruct (_product_from_card c url) as [p|] eqn:Hp; [|exact IH].
  constructor; [eapply HQ; eassumption|exact IH].
Qed.

Lemma card_scan_Forall (Q : Product -> Prop) (soup : Soup) (url : string) :
  (forall c p, _product_from_card c url = Some p -> Q p) ->
  Forall Q (card_scan soup url).
Proof.
  intros HQ. unfold card_scan. rewrite Forall_forall. intros p Hp.
  apply in_flat_map in Hp as (sel & _ & Hp).
  pose proof (cards_to_products_Forall Q url (select soup sel) HQ) as H.
  rewrite Forall_forall in H. now apply H.
Qed.

Lemma dedupe_Forall (Q : Product -> Prop) (l : list Product) :
  Forall Q l -> Forall Q (dedupe l).
Proof.
  rewrite !Forall_forall. intros H p Hp. apply H. now apply dedupe_In.
Qed.

(** X21.  The records of a listing page have pairwise different links,
    each trimmed; and either all of them have equal original and sale
    prices (they come from the scripts) or none of them has an original
    price, a score or a sold count (they come from the cards). *)
Theorem listing_page_records (soup : Soup) (url : string)
  (records : list Product) :
  _parse_listing_page soup url = Ok records ->
  NoDup (map product_link records)
  /\ Forall (fun p => normalize_product_link (product_link p) = product_link p)
            records
  /\ (Forall (fun p => origin_price p = sale_price p) records
      \/ Forall (fun p => origin_price p = None /\ score p = None
                          /\ sold p = None) records).
Proof.
  unfold _parse_listing_page, bind.
  destruct (json_script_scan (scripts soup) url) as [found|e] eqn:Hf;
    [|discriminate].
  intros H. inversion H; subst. clear H.
  split; [rewrite dedupe_first_per_key; apply first_per_key_NoDup|].
  assert (Hlink_d : forall d p, _product_from_dict d url = Ok p ->
                      normalize_product_link (product_link p) = product_link p).
  { intros d p Hp.
    destruct (product_from_dict_cases d url) as (_ & _ & Hl).
    rewrite (Hl p Hp). apply normalize_product_link_idem. }
  assert (Hcard : forall c p, _product_from_card c url = Some p ->
                    normalize_product_link (product_link p) = product_link p
                    /\ origin_price p = None /\ score p = None
                    /\ sold p = None).
  { intros c p. unfold _product_from_card.
    destruct (_ && _)%bool; [discriminate|]. intros E. inversion E; subst.
    simpl. split; [apply normalize_product_link_idem|auto]. }
  destruct found as [|p0 ps].
  - split.
    + apply dedupe_Forall, card_scan_Forall.
      intros c p Hp. now apply Hcard in Hp.
    + right. apply dedupe_Forall, card_scan_Forall.
      intros c p Hp. now apply Hcard in Hp.
  - split.
    + apply dedupe_Forall. eapply json_script_scan_Forall; eassumption.
    + left. apply dedupe_Forall.
      apply (json_script_scan_single_price _ _ _ Hf).
Qed.

Lemma first_per_identity_keyed (X : list Product) :
  Forall keyed X -> first_per_identity X = first_per_key X.
Proof.
  induction 1 as [|p r Hp Hr IH]; simpl; [reflexivity|].
  rewrite IH. f_equal. apply filter_ext_in. intros q Hq.
  unfold other_identity, other_key. rewrite Hp.
  apply (subseq_In _ _ (first_per_key_subseq r)) in Hq.
  rewrite Forall_forall in Hr. now rewrite (Hr q Hq).
Qed.

Lemma first_with_identity_keyed (k : string) (X : list Product) :
  Forall keyed X -> first_with_identity k X = first_with k X.
Proof.
  unfold first_with_identity, first_with.
  induction 1 as [|p r Hp Hr IH]; simpl; [reflexivity|].
  now rewrite Hp, IH.
Qed.

Lemma product_from_dict_keyed (d : dict) (url : string) (p : Product) :
  _product_from_dict d url = Ok p -> keyed p.
Proof.
  intros Hp. unfold keyed, identity_key.
  destruct (product_from_dict_cases d url) as (_ & _ & Hl).
  rewrite (Hl p Hp). apply normalize_product_link_idem.
Qed.

Lemma product_from_card_keyed (c : Card) (url : string) (p : Product) :
  _product_from_card c url = Some p -> keyed p.
Proof.
  unfold _product_from_card.
  destruct (_ && _)%bool; [discriminate|]. intros E. inversion E; subst.
  apply normalize_product_link_idem.
Qed.

(** C7.  De-duplication is keyed by the normalized product link: a record
    is built with its link normalized, by a script or by a card alike, so
    the link that the loop compares is the identity key of the record.  The
    records of a page are therefore the first record of every identity key
    among the records [X] that its strategy found, in the order of [X]: a
    subsequence of [X] whose identity keys are pairwise different, and
    which holds for every key the first record that [X] holds for it.
    De-duplicating twice is de-duplicating once, and the output is never
    longer than the input. *)
Theorem dedupe_keeps_first_occurrences :
  (forall soup url records,
     _parse_listing_page soup url = Ok records ->
     exists X,
       ((json_script_scan (scripts soup) url = Ok X /\ X <> [])
        \/ (json_script_scan (scripts soup) url = Ok []
            /\ X = card_scan soup url))
       /\ Forall keyed X
       /\ records = dedupe X
       /\ records = first_per_identity X)
  /\ (forall X,
        Forall keyed X ->
        dedupe X = first_per_identity X
        /\ NoDup (map identity_key (dedupe X))
        /\ (forall k, first_with_identity k (dedupe X)
                      = first_with_identity k X)
        /\ first_per_identity (dedupe X) = dedupe X)
  /\ (forall X,
        subseq (dedupe X) X
        /\ dedupe (dedupe X) = dedupe X
        /\ (List.length (dedupe X) <= List.length X)%nat).
Proof.
  assert (Hkeyed : forall X,
             Forall keyed X ->
             dedupe X = first_per_identity X
             /\ NoDup (map identity_key (dedupe X))
             /\ (forall k, first_with_identity k (dedupe X)
                           = first_with_identity k X)
             /\ first_per_identity (dedupe X) = dedupe X).
  { intros X HX.
    destruct (dedupe_by_link X) as (Hd & _ & Hn & Hf & Hi & _).
    pose proof (dedupe_Forall keyed X HX) as HdX.
    split; [|split; [|split]].
    - now rewrite first_per_identity_keyed.
    - rewrite (map_ext_in identity_key product_link); [exact Hn|].
      intros q Hq. rewrite Forall_forall in HdX. now apply HdX.
    - intros k. now rewrite !first_with_identity_keyed, Hf.
    - rewrite (first_per_identity_keyed _ HdX), <- dedupe_first_per_key.
      exact Hi. }
  split; [|split].
  - intros soup url records. unfold _parse_listing_page, bind.
    destruct (json_script_scan (scripts soup) url) as [found|e] eqn:Hf;
      [|discriminate].
    intros H. inversion H; subst. clear H.
    assert (Hfound : Forall keyed found).
    { eapply json_script_scan_Forall; [|exact Hf].
      intros d p. apply product_from_dict_keyed. }
    destruct found as [|p0 ps].
    + exists (card_scan soup url).
      assert (Hc : Forall keyed (card_scan soup url)).
      { apply card_scan_Forall. intros c p. apply product_from_card_keyed. }
      split; [right; now split|]. split; [exact Hc|].
      split; [reflexivity|]. now apply Hkeyed.
    + exists (p0 :: ps). split; [left; now split|]. split; [exact Hfound|].
      split; [reflexivity|]. now apply Hkeyed.
  - exact Hkeyed.
  - intros X. destruct (dedupe_by_link X) as (_ & Hs & _ & _ & Hi & Hl).
    now split; [|split].
Qed.

End Records.

(** Two cards whose links differ by the white space around them only: the
    page keeps the first one. *)
Lemma dedupe_keeps_first_occurrences_witness :
  List.length (card_scan (RT := Reference.runtime) card_soup listing_url)
  = 2%nat
  /\ _parse_listing_page (RT := Reference.runtime) card_soup listing_url
     = Ok [lamp_record]
  /\ exists X,
       ((json_script_scan (RT := Reference.runtime) (scripts card_soup)
           listing_url = Ok X /\ X <> [])
        \/ (json_script_scan (RT := Reference.runtime) (scripts card_soup)
              listing_url = Ok []
            /\ X = card_scan (RT := Reference.runtime) card_soup listing_url))
       /\ Forall keyed X
       /\ [lamp_record] = dedupe X
       /\ [lamp_record] = first_per_identity X.
Proof.
  assert (H : _parse_listing_page (RT := Reference.runtime) card_soup
                listing_url = Ok [lamp_record])
    by (vm_compute; reflexivity).
  split; [vm_compute; reflexivity|]. split; [exact H|].
  apply (proj1 (dedupe_keeps_first_occurrences (RT := Reference.runtime))
           card_soup listing_url [lamp_record] H).
Defined.

(** ** [parser.py]: prices *)

Lemma sfilter_sfilter (f g : ascii -> bool) (s : string) :
  sfilter f (sfilter g s) = sfilter (fun c => (g c && f c)%bool) s.
Proof.
  induction s as [|c r IH]; simpl; [reflexivity|].
  destruct (g c); simpl; [destruct (f c)|]; now rewrite IH.
Qed.

Lemma sfilter_ext (f g : ascii -> bool) (s : string) :
  (forall c, f c = g c) -> sfilter f s = sfilter g s.
Proof.
  intros H. induction s as [|c r IH]; simpl; [reflexivity|].
  now rewrite H, IH.
Qed.

Lemma sforall_sfilter (f : ascii -> bool) (s : string) :
  sforall f (sfilter f s) = true.
Proof.
  induction s as [|c r IH]; simpl; [reflexivity|].
  destruct (f c) eqn:E; simpl; [now rewrite E|exact IH].
Qed.

Lemma sforall_skip_blanks (f : ascii -> bool) (s : string) :
  sforall f s = true -> sforall f (skip_blanks s) = true.
Proof.
  induction s as [|c r IH]; simpl; [reflexivity|].
  intros H. destruct (is_blank c); [|exact H].
  apply andb_true_iff in H as [_ Hr]. now apply IH.
Qed.

Lemma sforall_drop_blanks (f : ascii -> bool) (s : string) :
  sforall f s = true -> sforall f (drop_blanks s) = true.
Proof.
  induction s as [|c r IH]; simpl; [reflexivity|].
  intros H. apply andb_true_iff in H as [Hc Hr].
  destruct (is_blank c && is_empty (drop_blanks r))%bool; simpl;
    [reflexivity|].
  now rewrite Hc, IH.
Qed.

Lemma sforall_trim_blanks (f : ascii -> bool) (s : string) :
  sforall f s = true -> sforall f (trim_blanks s) = true.
Proof. intros H. now apply sforall_drop_blanks, sforall_skip_blanks. Qed.

(** The digits that [normalize_price] reads in a text. *)
Lemma price_digits (s : string) :
  sfilter (fun ch => negb (Ascii.eqb ch ","))
          (sfilter (fun ch => (is_digit ch || Ascii.eqb ch "."
                               || Ascii.eqb ch ",")%bool) s)
  = price_chars s.
Proof.
  rewrite sfilter_sfilter. apply sfilter_ext.
  intros c. destruct c as [[] [] [] [] [] [] [] []]; reflexivity.
Qed.

Lemma price_chars_idem (s : string) : price_chars (price_chars s) = price_chars s.
Proof.
  unfold price_chars. rewrite sfilter_sfilter. apply sfilter_ext.
  intros c. now destruct (is_digit c || Ascii.eqb c ".")%bool.
Qed.

Lemma float_of_str_exn (s : string) (e : exn) :
  float_of_str s = Raise e -> e = ValueError.
Proof.
  unfold float_of_str. destruct (split_sign _) as [sg body].
  destruct (_ || _)%bool; [discriminate|].
  destruct (String.eqb _ "nan"); [discriminate|].
  destruct (drop_underscores false body); [|now inversion 1].
  destruct (parse_decimal _) as [[m x]|]; [discriminate|now inversion 1].
Qed.

Lemma binary_round_aux_sign (mx ex : Z) (lx : location) :
  is_negative (binary_round_aux prec emax false mx ex lx) = false.
Proof.
  unfold binary_round_aux.
  destruct (shr_fexp prec emax mx ex lx) as [mrs' e'].
  destruct (shr_fexp prec emax _ e' loc_Exact) as [mrs'' e''].
  destruct (shr_m mrs''); [reflexivity| |reflexivity].
  now destruct (e'' <=? emax - prec).
Qed.

Lemma float_of_dec_sign (m e : Z) : is_negative (float_of_dec false m e) = false.
Proof.
  unfold float_of_dec. destruct m as [|p|p]; try reflexivity.
  destruct (0 <=? e).
  - unfold binary_round. destruct (shl_align _ _ _) as [mz ez].
    apply binary_round_aux_sign.
  - unfold float_of_ratio, SFdiv.
    destruct (SFdiv_core_binary _ _ _ _ _ _) as [[mz ez] lz].
    apply binary_round_aux_sign.
Qed.

Lemma split_sign_digits (s : string) :
  sforall (fun ch => (is_digit ch || Ascii.eqb ch ".")%bool) s = true ->
  split_sign s = (false, s).
Proof.
  destruct s as [|c r]; [reflexivity|]. simpl. intros H.
  apply andb_true_iff in H as [Hc _]. revert Hc.
  destruct c as [[] [] [] [] [] [] [] []]; simpl; intros Hc;
    try reflexivity; discriminate.
Qed.

Section Prices.
Context {RT : Runtime}.

Lemma normalize_price_digits_ok (s : string) :
  exists f,
    catch_ValueError (float_of_str (price_chars s)) (Ok float_zero) = Ok f
    /\ is_negative f = false.
Proof.
  destruct (float_of_str (price_chars s)) as [f|e] eqn:E.
  - exists f. split; [reflexivity|]. revert E. unfold float_of_str.
    rewrite split_sign_digits
      by (apply sforall_trim_blanks, (sforall_sfilter _ s)).
    destruct (_ || _)%bool; [intros E; now inversion E|].
    destruct (String.eqb _ "nan"); [intros E; now inversion E|].
    destruct (drop_underscores false _); [|discriminate].
    destruct (parse_decimal _) as [[m x]|]; [|discriminate].
    intros E. inversion E. apply float_of_dec_sign.
  - apply float_of_str_exn in E. subst. exists float_zero. now split.
Qed.

Lemma normalize_price_raises (v : value) (e : exn) :
  normalize_price v = Raise e -> e = OverflowError /\ exists z, v = VInt z.
Proof.
  unfold normalize_price.
  destruct v; try discriminate;
    try (rewrite price_digits;
         match goal with
         | |- context [float_of_str (price_chars ?s)] =>
             destruct (normalize_price_digits_ok s) as (f & -> & _);
             discriminate
         end).
  simpl. unfold float_of_int.
  destruct (float_of_Z z); try discriminate.
  intros E. inversion E. split; [reflexivity|eauto].
Qed.

(** X6.  On a value that [str] can print (no integer of more digits than
    the interpreter converts lies in it), the price normaliser raises for
    nothing but an integer too large for a float.  On an ASCII text it
    reads only the digits and the decimal points: every other character, a
    minus sign included, is dropped, so the price of a text is never
    negative.  [None] is the price zero. *)
Theorem normalize_price_on_text :
  (forall v e, printable v = true ->
               normalize_price v = Raise e ->
               e = OverflowError /\ exists z, v = VInt z)
  /\ (forall s, ascii_text s = true ->
                normalize_price (VStr s) = normalize_price (VStr (price_chars s)))
  /\ (forall s, exists f, normalize_price (VStr s) = Ok f
                          /\ is_negative f = false)
  /\ normalize_price VNone = Ok (S754_zero false).
Proof.
  split; [|split; [|split]].
  - intros v e _. apply normalize_price_raises.
  - intros s _. unfold normalize_price. simpl.
    now rewrite !price_digits, price_chars_idem.
  - intros s. unfold normalize_price. simpl. rewrite price_digits.
    apply normalize_price_digits_ok.
  - reflexivity.
Qed.

End Prices.

(** ** [parser.py]: the canonical record *)

Lemma get_text (raw : dict) (k : string) :
  text_record raw -> get raw k = VNone \/ is_str (get raw k) = true.
Proof.
  unfold get, get_or. induction 1 as [|[k' v] r Hv _ IH]; simpl; [now left|].
  destruct (String.eqb k' k); [|exact IH].
  simpl in Hv. destruct v; try discriminate; [now left|now right].
Qed.

Lemma bind_Ok {A B : Type} (a : A) (k : A -> result B) : bind (Ok a) k = k a.
Proof. reflexivity. Qed.

Lemma is_ok_bind {A B : Type} (m : result A) (k : A -> result B) :
  (forall a, m = Ok a -> is_ok (k a) = true) -> is_ok (bind m k) = is_ok m.
Proof. destruct m; simpl; [intros H; now apply H|reflexivity]. Qed.

Section Canonical.
Context {RT : Runtime}.

Lemma to_iso8601_result (v r : value) :
  to_iso8601 v = Ok r -> is_str_or_none r = true.
Proof.
  unfold to_iso8601. destruct (negb (truthy v)); [now inversion 1|].
  destruct v; try (now inversion 1);
    try (destruct (dtparser_parse s); simpl; intros E; inversion E;
         reflexivity);
    unfold bind; simpl;
    repeat match goal with
           | |- context [match ?m with Ok _ => _ | Raise _ => _ end] =>
               destruct m
           end;
    try discriminate; intros E; inversion E; reflexivity.
Qed.

Lemma to_iso8601_text (v : value) :
  v = VNone \/ is_str v = true -> exists r, to_iso8601 v = Ok r.
Proof.
  intros [->|H]; [now exists VNone|].
  destruct v; try discriminate. unfold to_iso8601.
  destruct (negb (truthy (VStr s))); [eauto|].
  destruct (dtparser_parse s); simpl; eauto.
Qed.

Lemma por_text (a b d : value) :
  (a = VNone \/ is_str a = true) -> (b = VNone \/ is_str b = true) ->
  por (por a b) d = d \/ exists s, por (por a b) d = VStr s.
Proof.
  intros Ha Hb.
  assert (H : por a b = VNone \/ exists s, por a b = VStr s).
  { unfold por. destruct (truthy a).
    - destruct Ha as [->|Ha]; [now left|]. destruct a; try discriminate. eauto.
    - destruct Hb as [->|Hb]; [now left|]. destruct b; try discriminate. eauto. }
  destruct H as [->|[s ->]]; [now left|].
  unfold por. destruct (truthy (VStr s)); eauto.
Qed.

Lemma normalize_price_ok (v : value) :
  (forall z, v = VInt z -> z = 0) -> exists f, normalize_price v = Ok f.
Proof.
  intros H. destruct (normalize_price v) as [f|e] eqn:E; [eauto|].
  exfalso. destruct (normalize_price_raises _ _ E) as [_ [z ->]].
  rewrite (H z eq_refl) in E. discriminate.
Qed.

Lemma int_of_str_exn (s : string) (e : exn) :
  int_of_str s = Raise e -> e = ValueError.
Proof.
  unfold int_of_str. destruct (split_sign _) as [sg body].
  destruct (drop_underscores false body); [|now inversion 1].
  destruct (_ && _)%bool; [discriminate|now inversion 1].
Qed.

Lemma count_text (raw : dict) (a b : string) (e : exn) :
  text_record raw ->
  py_int (count_field raw a b) = Raise e -> e = ValueError.
Proof.
  intros Ht. unfold count_field.
  destruct (por_text (get raw a) (get raw b) (VInt 0)) as [->|[s ->]];
    try now apply get_text.
  - discriminate.
  - apply int_of_str_exn.
Qed.

(** X7.  For a record whose values are all ASCII texts or [None], the
    mapper returns exactly when the sold count and the review count are
    integer literals (or absent), and what it raises otherwise is a
    [ValueError]. *)
Theorem map_product_text_record (raw : dict) (region : option string) :
  text_record raw ->
  is_ok (map_product raw region)
  = (int_coercible (count_field raw "sold_count" "sold")
     && int_coercible (count_field raw "review_count" "reviews"))%bool
  /\ (forall e, map_product raw region = Raise e -> e = ValueError).
Proof.
  intros Ht.
  pose proof (count_text raw "sold_count" "sold") as Hsold.
  pose proof (count_text raw "review_count" "reviews") as Hrev.
  unfold map_product, int_coercible. fold (count_field raw "sold_count" "sold").
  fold (count_field raw "review_count" "reviews"). cbv zeta.
  match goal with
  | |- context [bind ?m _] => assert (Hcover : exists v, m = Ok v)
  end.
  { destruct (truthy (get raw "cover")); [eauto|].
    destruct (por_text (get raw "img") (get raw "images") (VList []))
      as [->|[s ->]]; try now apply get_text.
    - simpl. eauto.
    - simpl. eauto. }
  destruct Hcover as [cv ->]. rewrite bind_Ok.
  destruct (normalize_price_ok
              (por (por (get raw "price") (get raw "min_price")) (VInt 0)))
    as [p ->].
  { intros z. destruct (por_text (get raw "price") (get raw "min_price") (VInt 0))
      as [->|[s ->]]; try now apply get_text.
    - now inversion 1.
    - discriminate. }
  rewrite bind_Ok.
  match goal with
  | |- context [bind ?m _] => assert (Hfmt : exists v, m = Ok v)
  end.
  { destruct (truthy (get raw "format_price")); [eauto|].
    destruct (normalize_price_ok (get raw "price")) as [q ->]; [|simpl; eauto].
    intros z Hz. destruct (get_text raw "price" Ht) as [H|H]; rewrite Hz in H;
      discriminate. }
  destruct Hfmt as [fp ->]. rewrite bind_Ok.
  destruct (to_iso8601_text (get raw "created_at")) as [ca Hca];
    [now apply get_text|].
  destruct (to_iso8601_text (get raw "last_seen_at")) as [ls Hls];
    [now apply get_text|].
  rewrite Hca, Hls.
  destruct (py_int (count_field raw "sold_count" "sold")) as [n|e] eqn:En.
  - destruct (py_int (count_field raw "review_count" "reviews")) as [m|e] eqn:Em.
    + simpl. split; [reflexivity|discriminate].
    + simpl. split; [reflexivity|].
      intros e' E. inversion E. subst. now apply Hrev.
  - simpl. split; [reflexivity|].
    intros e' E. inversion E. subst. now apply Hsold.
Qed.

(** X8.  Every canonical record has the same eighteen keys in the same
    order; its price is a float, its counts are integers, its identifiers
    and its rating are strings, its two dates are strings or [None], and
    its currency and its source are never empty. *)
Theorem map_product_schema (raw : dict) (region : option string) (r : dict) :
  map_product raw region = Ok r ->
  map fst r = canonical_keys
  /\ (exists p, lookup r "price" = Some (VFloat p))
  /\ (exists n m, lookup r "sold_count" = Some (VInt n)
                  /\ lookup r "review_count" = Some (VInt m))
  /\ (forall k, In k ["product_id"; "product_rating"; "seller_id"] ->
                exists s, lookup r k = Some (VStr s))
  /\ (forall k, In k ["created_at"; "last_seen_at"] ->
                exists v, lookup r k = Some v /\ is_str_or_none v = true)
  /\ (forall k, In k ["currency"; "_source"] ->
                exists v, lookup r k = Some v /\ truthy v = true).
Proof.
  unfold map_product. cbv zeta.
  destruct (if truthy (get raw "cover") then _ else _) as [cv|]; [|discriminate].
  rewrite bind_Ok.
  destruct (normalize_price _) as [p|]; [|discriminate]. rewrite bind_Ok.
  destruct (if truthy (get raw "format_price") then _ else _) as [fp|];
    [|discriminate].
  rewrite bind_Ok.
  destruct (py_int _) as [n|]; [|discriminate]. rewrite bind_Ok.
  destruct (py_int _) as [m|]; [|discriminate]. rewrite bind_Ok.
  destruct (to_iso8601 (get raw "created_at")) as [ca|] eqn:Hca; [|discriminate].
  rewrite bind_Ok.
  destruct (to_iso8601 (get raw "last_seen_at")) as [ls|] eqn:Hls; [|discriminate].
  rewrite bind_Ok.
  apply to_iso8601_result in Hca, Hls.
  assert (Hpor : forall a s, is_empty s = false -> truthy (por a (VStr s)) = true).
  { intros a s Hs. unfold por. destruct (truthy a) eqn:E; [exact E|].
    simpl. now rewrite Hs. }
  intros E. inversion E. clear E.
  split; [reflexivity|]. split; [now exists p|]. split; [now exists n, m|].
  split; [|split].
  - intros k [<-|[<-|[<-|[]]]]; simpl; eauto.
  - intros k [<-|[<-|[]]]; simpl; eauto.
  - intros k [<-|[<-|[]]]; simpl; eexists; (split; [reflexivity|]).
    + apply Hpor, guess_currency_nonempty.
    + now apply Hpor.
Qed.

End Canonical.

(** ** [utils_format.py]: the settings *)


Lemma lookup_dict_set (d : dict) (k k' : string) (v : value) :
  lookup (dict_set d k v) k'
  = if String.eqb k k' then Some v else lookup d k'.
Proof.
  induction d as [|[k0 v0] r IH]; simpl.
  - reflexivity.
  - destruct (String.eqb k0 k) eqn:E; simpl.
    + apply String.eqb_eq in E. subst k0.
      now destruct (String.eqb k k').
    + rewrite IH. destruct (String.eqb k0 k') eqn:E'; [|reflexivity].
      apply String.eqb_eq in E'. subst k0. now rewrite String.eqb_sym, E.
Qed.

Lemma lookup_absent (d : dict) (k : string) :
  ~ In k (map fst d) -> lookup d k = None.
Proof.
  induction d as [|[k0 v0] r IH]; simpl; [reflexivity|]. intros H.
  destruct (String.eqb k0 k) eqn:E.
  - apply String.eqb_eq in E. exfalso. apply H. now left.
  - apply IH. intros Hin. apply H. now right.
Qed.

Lemma lookup_merge (a b : dict) (k : string) :
  unique_keys b ->
  lookup (merge a b) k
  = match lookup b k with Some v => Some v | None => lookup a k end.
Proof.
  unfold merge, unique_keys. revert a.
  induction b as [|[k0 v0] r IH]; intros a Hn; simpl; [reflexivity|].
  inversion Hn as [|? ? Hnotin Hr]; subst.
  rewrite IH by exact Hr. rewrite lookup_dict_set.
  destruct (String.eqb k0 k) eqn:E; [|reflexivity].
  apply String.eqb_eq in E. subst k0.
  now rewrite (lookup_absent r k Hnotin).
Qed.

Lemma keys_dict_set (d : dict) (k : string) (v : value) :
  map fst (dict_set d k v)
  = if existsb (String.eqb k) (map fst d) then map fst d
    else (map fst d ++ [k])%list.
Proof.
  induction d as [|[k0 v0] r IH]; simpl; [reflexivity|].
  rewrite (String.eqb_sym k k0).
  destruct (String.eqb k0 k); simpl; [reflexivity|].
  rewrite IH. now destruct (existsb _ _).
Qed.

Lemma dict_set_unique (d : dict) (k : string) (v : value) :
  unique_keys d -> unique_keys (dict_set d k v).
Proof.
  unfold unique_keys. intros H. rewrite keys_dict_set.
  destruct (existsb _ _) eqn:E; [exact H|].
  apply NoDup_app; [exact H|constructor; [easy|constructor]|].
  intros x Hx [<-|[]].
  assert (existsb (String.eqb k) (map fst d) = true); [|congruence].
  apply existsb_exists. exists k. split; [exact Hx|apply String.eqb_refl].
Qed.

Lemma complete_unique (v : value) (stk : list frame) :
  match v with VDict d => unique_keys d | _ => True end ->
  Forall frame_unique stk -> state_unique (complete v stk).
Proof.
  intros Hv Hs. destruct stk as [|[acc|acc k] stk']; simpl.
  - destruct v; try exact I. exact Hv.
  - now inversion Hs.
  - inversion Hs as [|? ? Hf Hr]; subst. split; [|exact Hr].
    now apply dict_set_unique.
Qed.

Lemma open_value_unique (t : token) (stk : list frame) :
  plain_token t -> Forall frame_unique stk -> state_unique (open_value t stk).
Proof.
  intros Ht Hs. destruct t; simpl; try exact I; try exact Hs.
  apply complete_unique; [|exact Hs]. destruct v; try exact I. destruct Ht.
Qed.

Lemma pstep_unique (st : pstate) (t : token) :
  plain_token t -> state_unique st -> state_unique (pstep st t).
Proof.
  intros Ht Hs. destruct st; simpl in *.
  - now apply open_value_unique.
  - destruct t; try (apply open_value_unique; [exact Ht|now constructor]).
    now apply complete_unique.
  - destruct t; try exact I; [now apply complete_unique|].
    now constructor.
  - destruct t; try exact I.
    + apply complete_unique; [constructor|exact Hs].
    + destruct v; try exact I. simpl. split; [constructor|exact Hs].
  - destruct t; try exact I. destruct v; try exact I. exact Hs.
  - destruct t; try exact I. simpl. destruct Hs. now constructor.
  - destruct t; try exact I; destruct Hs as [Ha Hs].
    + now apply complete_unique.
    + now split.
  - exact I.
  - exact I.
Qed.

Lemma fold_pstep_unique (ts : list token) (st : pstate) :
  Forall plain_token ts -> state_unique st ->
  state_unique (fold_left pstep ts st).
Proof.
  revert st. induction ts as [|t r IH]; intros st Ht Hs; simpl; [exact Hs|].
  inversion Ht; subst. apply IH; [assumption|]. now apply pstep_unique.
Qed.

Lemma scan_number_plain (s : string) (v : value) (n : nat) :
  scan_number s = Some (v, n) -> plain_token (TAtom v).
Proof.
  unfold scan_number.
  repeat match goal with
         | |- context [let (_, _) := ?e in _] => destruct e
         end.
  destruct (is_empty _); [discriminate|].
  repeat match goal with
         | |- context [let (_, _) := ?e in _] => destruct e
         end.
  destruct (_ && _)%bool; [destruct (Nat.leb _ _); [|discriminate]|];
    intros E; inversion E; exact I.
Qed.

Lemma scan_token_plain (s : string) (t : token) (n : nat) :
  scan_token s = Some (t, n) -> plain_token t.
Proof.
  unfold scan_token. destruct s as [|c r]; [discriminate|].
  destruct (Ascii.eqb c dquote).
  { destruct (scan_string r) as [[x k]|]; [|discriminate].
    intros E. inversion E. exact I. }
  do 6 (match goal with
        | |- context [if Ascii.eqb c ?x then _ else _] =>
            destruct (Ascii.eqb c x); [intros E; inversion E; exact I|]
        end).
  do 3 (match goal with
        | |- context [if String.prefix ?x ?y then _ else _] =>
            destruct (String.prefix x y); [intros E; inversion E; exact I|]
        end).
  destruct (scan_number _) as [[v k]|] eqn:En.
  - intros E. inversion E. subst. now apply scan_number_plain in En.
  - do 3 (match goal with
          | |- context [if String.prefix ?x ?y then _ else _] =>
              destruct (String.prefix x y); [intros E; inversion E; exact I|]
          end).
    discriminate.
Qed.

Lemma tokenize_plain (s : string) :
  forall skip ts, tokenize skip s = Some ts -> Forall plain_token ts.
Proof.
  induction s as [|c r IH]; intros skip ts; cbn [tokenize].
  - intros E. inversion E. constructor.
  - destruct skip as [|k]; [|apply IH].
    destruct (is_json_ws c); [apply IH|].
    destruct (scan_token (String c r)) as [[t n]|] eqn:Et; [|discriminate].
    destruct (tokenize (Nat.pred n) r) as [ts'|] eqn:E'; [|discriminate].
    intros E. inversion E. subst. constructor.
    + now apply scan_token_plain in Et.
    + now apply IH in E'.
Qed.

Lemma json_loads_unique (s : string) (d : dict) :
  json_loads s = Ok (VDict d) -> unique_keys d.
Proof.
  unfold json_loads. destruct (tokenize 0 s) as [ts|] eqn:Et; [|discriminate].
  pose proof (fold_pstep_unique ts (PValue []) (tokenize_plain _ _ _ Et)
                (Forall_nil _)) as H.
  destruct (fold_left pstep ts (PValue [])); try discriminate.
  intros E. inversion E. subst. exact H.
Qed.

(** X4.  The loaded settings always hold the two default keys.  When the
    file holds a JSON object, every key is looked up in the object first
    and in the defaults otherwise; when it holds anything else, the
    settings are the defaults. *)
Theorem load_settings_merges_defaults (file : file_state) :
  (forall k, In k (map fst default_settings) ->
             lookup (load_settings file) k <> None)
  /\ (forall text data,
        file = Content text -> json_loads text = Ok (VDict data) ->
        forall k, lookup (load_settings file) k
                  = match lookup data k with
                    | Some v => Some v
                    | None => lookup default_settings k
                    end)
  /\ ((forall text data, file = Content text ->
                         json_loads text <> Ok (VDict data)) ->
      load_settings file = default_settings).
Proof.
  assert (Hobj : forall text data,
             file = Content text -> json_loads text = Ok (VDict data) ->
             forall k, lookup (load_settings file) k
                       = match lookup data k with
                         | Some v => Some v
                         | None => lookup default_settings k
                         end).
  { intros text data -> Hj k. simpl. rewrite Hj.
    apply lookup_merge. now apply json_loads_unique in Hj. }
  split; [|split].
  - intros k Hk. destruct file as [| |text]; simpl.
    + destruct Hk as [<-|[<-|[]]]; discriminate.
    + destruct Hk as [<-|[<-|[]]]; discriminate.
    + destruct (json_loads text) as [[]|] eqn:Hj;
        try (destruct Hk as [<-|[<-|[]]]; discriminate).
      specialize (Hobj text d eq_refl Hj k). simpl in Hobj. rewrite Hj in Hobj.
      rewrite Hobj. destruct (lookup d k); [discriminate|].
      destruct Hk as [<-|[<-|[]]]; discriminate.
  - exact Hobj.
  - intros H. destruct file as [| |text]; simpl; try reflexivity.
    destruct (json_loads text) as [[]|] eqn:Hj; try reflexivity.
    exfalso. now apply (H text d).
Qed.

(** ** Sample runs *)

(** The region [vn] is accepted as [VN], which is accepted unchanged. *)
Lemma validate_region_normal_form_witness :
  validate_region (Some "vn") = Ok (Some "VN")
  /\ validate_region (Some "VN") = Ok (Some "VN").
Proof.
  assert (H : validate_region (Some "vn") = Ok (Some "VN")) by reflexivity.
  split; [exact H|].
  apply (validate_region_normal_form (Some "vn") (Some "VN")); [|exact H].
  intros s E. inversion E. reflexivity.
Defined.

(** A search for shoes in Vietnam, at most five. *)
Lemma validate_input_model_invariants_witness :
  validate_input shoes_payload = Ok shoes_model
  /\ 1 <= limit shoes_model <= 2000.
Proof.
  assert (H : validate_input shoes_payload = Ok shoes_model)
    by (vm_compute; reflexivity).
  split; [exact H|].
  apply (validate_input_model_invariants shoes_payload shoes_model); [|exact H].
  intros s E. inversion E. reflexivity.
Defined.

(** The desk sold most; the lamp and the sofa are tied and keep their
    order. *)
Lemma best_sellers_descending_stable_witness :
  _apply_sort sold_items "BEST_SELLERS" = Ok [desk; lamp; sofa]
  /\ Permutation [desk; lamp; sofa] sold_items.
Proof.
  assert (H : _apply_sort sold_items "BEST_SELLERS" = Ok [desk; lamp; sofa])
    by (vm_compute; reflexivity).
  split; [exact H|].
  apply (best_sellers_descending_stable sold_items [desk; lamp; sofa] H).
Defined.

(** The three priced records, by descending price. *)
Lemma price_sorts_in_order_witness :
  Forall no_nan_price priced_items
  /\ exists out, _apply_sort priced_items "PRICE_DESC" = Ok out
                 /\ Permutation out priced_items.
Proof.
  assert (Hn : Forall no_nan_price priced_items)
    by (repeat constructor; intros E; vm_compute in E; discriminate).
  split; [exact Hn|].
  exists [[("price", VStr "2.5")]; [("price", VInt 1)]; [("title", VStr "free")]].
  assert (H : _apply_sort priced_items "PRICE_DESC"
              = Ok [[("price", VStr "2.5")]; [("price", VInt 1)];
                    [("title", VStr "free")]])
    by (vm_compute; reflexivity).
  split; [exact H|].
  apply (price_sorts_in_order priced_items _ true H Hn).
Defined.

(** The object is read out of the assignment around it. *)
Lemma extract_json_tolerates_wrapping_witness :
  _extract_json_from_script
    (assign_before ++ ("{" ++ assign_body ++ "}") ++ assign_after)
  = Ok (VDict [("a", VInt 1)]).
Proof.
  apply (extract_json_tolerates_wrapping assign_before assign_body assign_after);
    vm_compute; reflexivity.
Defined.

(** The widget of the sample listing is found inside the listing. *)
Lemma walk_finds_every_product_witness :
  _products_from_json_blob (RT := Reference.runtime) widget_value listing_url
  = Ok [widget]
  /\ exists d, inside widget_value d
               /\ _looks_like_product_dict d = true
               /\ _product_from_dict (RT := Reference.runtime) d listing_url
                  = Ok widget.
Proof.
  assert (H : _products_from_json_blob (RT := Reference.runtime)
                widget_value listing_url = Ok [widget])
    by (vm_compute; reflexivity).
  split; [exact H|].
  apply (proj1 (walk_finds_every_product (RT := Reference.runtime)
                  widget_value listing_url [widget] H widget)).
  left. reflexivity.
Defined.

(** The sample page gives one record, the widget. *)
Lemma listing_page_records_witness :
  _parse_listing_page (RT := Reference.runtime) widget_soup listing_url
  = Ok [widget]
  /\ NoDup (map product_link [widget]).
Proof.
  assert (H : _parse_listing_page (RT := Reference.runtime) widget_soup
                listing_url = Ok [widget])
    by (vm_compute; reflexivity).
  split; [exact H|].
  apply (listing_page_records (RT := Reference.runtime) widget_soup listing_url
           [widget] H).
Defined.

(** The scraped record is mapped: its counts are integer literals. *)
Lemma map_product_text_record_witness :
  text_record scraped_record
  /\ is_ok (map_product (RT := Reference.runtime) scraped_record None)
     = (int_coercible (count_field scraped_record "sold_count" "sold")
        && int_coercible (count_field scraped_record "review_count" "reviews"))%bool.
Proof.
  assert (H : text_record scraped_record) by (repeat constructor).
  split; [exact H|].
  apply (map_product_text_record (RT := Reference.runtime) scraped_record None H).
Defined.

(** The canonical record of the scraped record has the eighteen keys. *)
Lemma map_product_schema_witness :
  map_product (RT := Reference.runtime) scraped_record (Some "gb")
  = Ok scraped_canonical
  /\ map fst scraped_canonical = canonical_keys.
Proof.
  assert (H : map_product (RT := Reference.runtime) scraped_record (Some "gb")
              = Ok scraped_canonical)
    by (vm_compute; reflexivity).
  split; [exact H|].
  apply (map_product_schema (RT := Reference.runtime) scraped_record (Some "gb")
           scraped_canonical H).
Defined.

(** The region [vn], in lower and in upper case. *)
Lemma guess_currency_case_insensitive_witness :
  guess_currency_from_region (Some "vn") = "VND"
  /\ guess_currency_from_region (option_map upper (Some "vn"))
     = guess_currency_from_region (Some "vn").
Proof.
  split; [reflexivity|].
  refine (proj1 (proj2 (guess_currency_case_insensitive (Some "vn") _))).
  intros r E. inversion E. reflexivity.
Defined.

(** The widget of the sample listing is made into a product. *)
Lemma product_from_dict_failures_witness :
  printable (VDict widget_node) = true
  /\ is_ok (_product_from_dict (RT := Reference.runtime) widget_node
              listing_url)
     = true.
Proof.
  assert (H : printable (VDict widget_node) = true) by reflexivity.
  split; [exact H|].
  apply (proj1 (product_from_dict_failures (RT := Reference.runtime)
                  widget_node listing_url H)).
Defined.
